(** * PMC ingestion pipeline: a shallow embedding of the backend

    The development follows the Python sources of the backend:

    - [Str]    : Python's [str], a sequence of Unicode code points;
    - [PyStr]  : the [str] methods the code relies on;
    - [PyDict] : insertion-ordered dictionaries ([Dict[str, str]]);
    - [ET]     : the part of [xml.etree.ElementTree] used by the parser;
    - [PMCClient] : [clients/pmc_client.py] (section parsing, full text);
    - [Helpers]   : [utils/helpers.py] ([extract_pmc_id]);
    - [Py]        : exceptions, and the monad of code that acts on a state
                    and may raise;
    - [World]     : the relational tables, the log of the calls that leave
                    the process, and the oracles for the remote services;
    - [AIClient]  : [clients/ai_client.py];
    - [BatchProcessor] : [processors/batch_processor.py].

    A Python [str] is modelled as the sequence of its code points: [len],
    slices, [strip], [split] and the character classes of [re] count and
    test code points.  White space is the fixed set of [str.isspace].  The
    decimal digits ([\d]) and the case mappings [str.lower] and [str.upper]
    are those of the Unicode database of the interpreter: they are taken
    as a parameter ([Unicode]), of which only the behaviour on the ASCII
    range and two laws of [lower] are used. *)

From Stdlib Require Import ZArith NArith List Bool Lia.
From Stdlib.Strings Require Import Byte.
From stdpp Require Import gmap list fin_maps.

Local Open Scope Z_scope.

(* ===================================================================== *)
(** ** Sequences of code points *)
(* ===================================================================== *)

Module Str.

(** A code point. *)
Definition char : Type := N.
Bind Scope N_scope with char.

(** A Python [str]. *)
Inductive str : Type :=
| EmptyString
| String (c : char) (s : str).

Declare Scope str_scope.
Delimit Scope str_scope with str.
Bind Scope str_scope with str.

(** String literals are read as UTF-8: a literal stands for the sequence
    of the code points written in it. *)
Definition continuation (b : byte) : option N :=
  let n := Byte.to_N b in
  if ((128 <=? n) && (n <? 192))%N then Some (n - 128)%N else None.

Fixpoint decode (l : list byte) : option str :=
  match l with
  | [] => Some EmptyString
  | b :: l1 =>
      let n := Byte.to_N b in
      if (n <? 128)%N then option_map (String n) (decode l1)
      else if (n <? 192)%N then None
      else if (n <? 224)%N then
        match l1 with
        | b1 :: l2 =>
            match continuation b1 with
            | Some c1 => option_map (String ((n - 192) * 64 + c1)%N) (decode l2)
            | None => None
            end
        | _ => None
        end
      else if (n <? 240)%N then
        match l1 with
        | b1 :: b2 :: l3 =>
            match continuation b1, continuation b2 with
            | Some c1, Some c2 =>
                option_map (String ((n - 224) * 4096 + c1 * 64 + c2)%N)
                           (decode l3)
            | _, _ => None
            end
        | _ => None
        end
      else
        match l1 with
        | b1 :: b2 :: b3 :: l4 =>
            match continuation b1, continuation b2, continuation b3 with
            | Some c1, Some c2, Some c3 =>
                option_map
                  (String ((n - 240) * 262144 + c1 * 4096 + c2 * 64 + c3)%N)
                  (decode l4)
            | _, _, _ => None
            end
        | _ => None
        end
  end.

Definition byte_of (n : N) : byte :=
  match Byte.of_N n with Some b => b | None => x00 end.

Definition encode_char (c : char) : list byte :=
  if (c <? 128)%N then [byte_of c]
  else if (c <? 2048)%N then
    [byte_of (192 + c / 64); byte_of (128 + c mod 64)]%N
  else if (c <? 65536)%N then
    [byte_of (224 + c / 4096); byte_of (128 + (c / 64) mod 64);
     byte_of (128 + c mod 64)]%N
  else
    [byte_of (240 + c / 262144); byte_of (128 + (c / 4096) mod 64);
     byte_of (128 + (c / 64) mod 64); byte_of (128 + c mod 64)]%N.

Fixpoint encode (s : str) : list byte :=
  match s with
  | EmptyString => []
  | String c s' => encode_char c ++ encode s'
  end.

String Notation str decode encode : str_scope.

Local Open Scope str_scope.

(** [a + b] *)
Fixpoint append (a b : str) : str :=
  match a with
  | EmptyString => b
  | String c a' => String c (append a' b)
  end.

Infix "+:+" := append (at level 60, right associativity) : str_scope.
#[global] Arguments append : simpl never.

(** [len(s)] *)
Fixpoint strlen (s : str) : nat :=
  match s with
  | EmptyString => O
  | String _ s' => S (strlen s')
  end.

(** [a == b] *)
Fixpoint str_eqb (a b : str) : bool :=
  match a, b with
  | EmptyString, EmptyString => true
  | String c a', String d b' => N.eqb c d && str_eqb a' b'
  | _, _ => false
  end.

(** [p] is a prefix of [s]. *)
Fixpoint prefix (p s : str) : bool :=
  match p, s with
  | EmptyString, _ => true
  | String c p', String d s' => N.eqb c d && prefix p' s'
  | String _ _, EmptyString => false
  end.

(** The pieces of [l] with [sep] between them. *)
Fixpoint str_concat (sep : str) (l : list str) : str :=
  match l with
  | [] => EmptyString
  | [x] => x
  | x :: xs => x +:+ sep +:+ str_concat sep xs
  end.

(** The first code point of a literal. *)
Definition ord (s : str) : char :=
  match s with
  | String c _ => c
  | EmptyString => 0%N
  end.

Fixpoint to_list (s : str) : list N :=
  match s with
  | EmptyString => []
  | String c s' => c :: to_list s'
  end.

Fixpoint of_list (l : list N) : str :=
  match l with
  | [] => EmptyString
  | c :: l' => String c (of_list l')
  end.

#[export] Instance str_eq_dec : EqDecision str.
Proof. solve_decision. Defined.

#[export] Instance str_countable : Countable str.
Proof.
  refine (inj_countable' to_list of_list _).
  intros s. induction s as [|c s IH]; simpl; congruence.
Defined.

#[export] Instance str_inhabited : Inhabited str := populate EmptyString.

End Str.
Export Str.
Open Scope str_scope.

(* ===================================================================== *)
(** ** Python strings *)
(* ===================================================================== *)

Module PyStr.

Definition between (lo hi : N) (c : char) : bool :=
  ((lo <=? c) && (c <=? hi))%N.

Definition space : char := Eval cbv in ord " ".
Definition underscore : char := Eval cbv in ord "_".

(** [c.isspace()], which is also the class [\s] of [re] on a [str] and
    the blanks of [strip()] and [split()]: TAB..CR, FS..US, the space,
    NEL, the no-break space, the Ogham space mark, EN QUAD..HAIR SPACE,
    the line and paragraph separators, the narrow no-break space, the
    medium mathematical space and the ideographic space. *)
Definition is_space (c : char) : bool :=
  between 9 13 c || between 28 32 c
  || N.eqb c 133 || N.eqb c 160 || N.eqb c 5760
  || between 8192 8202 c || N.eqb c 8232 || N.eqb c 8233
  || N.eqb c 8239 || N.eqb c 8287 || N.eqb c 12288.

(** The ASCII range. *)
Definition is_ascii (c : char) : bool := (c <? 128)%N.

(** The case mappings of the ASCII range. *)
Definition lower_char (c : char) : char :=
  if between 65 90 c then (c + 32)%N else c.

Definition upper_char (c : char) : char :=
  if between 97 122 c then (c - 32)%N else c.

Fixpoint map_chars (f : char -> char) (s : str) : str :=
  match s with
  | EmptyString => EmptyString
  | String c s' => String (f c) (map_chars f s')
  end.

(** [s.replace(old, new)] for one-character [old] and [new]. *)
Definition replace_char (old new : char) : str -> str :=
  map_chars (fun c => if N.eqb c old then new else c).

Fixpoint all_chars (p : char -> bool) (s : str) : bool :=
  match s with
  | EmptyString => true
  | String c s' => p c && all_chars p s'
  end.

(** What the code takes from the Unicode database of the interpreter:
    the decimal digits (the class [\d] of [re] on a [str]) and the case
    mappings of whole strings ([s.lower()], [s.upper()], which may change
    the length and look at the neighbours of a character).  On the ASCII
    range the digits are [0]..[9] and [lower] maps [A]..[Z] only; [lower]
    is idempotent, and it commutes with the replacement of spaces by
    underscores, two characters that it neither maps nor produces and that
    play the same part in the context rule of the final sigma. *)
Class Unicode : Type := {
  is_digit : char -> bool;
  lower : str -> str;
  upper : str -> str;
  is_digit_ascii : forall c, is_ascii c = true -> is_digit c = between 48 57 c;
  lower_ascii :
    forall s, all_chars is_ascii s = true -> lower s = map_chars lower_char s;
  lower_lower : forall s, lower (lower s) = lower s;
  lower_replace :
    forall s, lower (replace_char space underscore s)
              = replace_char space underscore (lower s)
}.

(** [s.startswith(p)] *)
Definition startswith (p s : str) : bool := prefix p s.

(** [needle in s] *)
Fixpoint contains (needle s : str) : bool :=
  startswith needle s ||
  match s with
  | EmptyString => false
  | String _ s' => contains needle s'
  end.

(** [bool(s)]: a string is truthy when it is not empty. *)
Definition truthy (s : str) : bool :=
  match s with EmptyString => false | _ => true end.

Fixpoint lstrip (s : str) : str :=
  match s with
  | EmptyString => EmptyString
  | String c s' => if is_space c then lstrip s' else s
  end.

Fixpoint rstrip (s : str) : str :=
  match s with
  | EmptyString => EmptyString
  | String c s' =>
      let r := rstrip s' in
      if is_space c && negb (truthy r) then EmptyString else String c r
  end.

(** [s.strip()] *)
Definition strip (s : str) : str := rstrip (lstrip s).

(** [sep.join(parts)] *)
Definition join (sep : str) (parts : list str) : str :=
  str_concat sep parts.

(** [s[n:]] for [n >= 0] *)
Fixpoint drop (n : nat) (s : str) : str :=
  match n, s with
  | O, _ => s
  | S n', String _ s' => drop n' s'
  | S _, EmptyString => EmptyString
  end.

(** [s[:n]] for [n >= 0] *)
Fixpoint take (n : nat) (s : str) : str :=
  match n, s with
  | S n', String c s' => String c (take n' s')
  | _, _ => EmptyString
  end.

(** [s.split()]: the maximal runs of non-blank characters. *)
Fixpoint split_go (cur : str) (s : str) : list str :=
  match s with
  | EmptyString => if truthy cur then [cur] else []
  | String c s' =>
      if is_space c
      then (if truthy cur then [cur] else []) ++ split_go EmptyString s'
      else split_go (cur +:+ String c EmptyString) s'
  end.

Definition split : str -> list str := split_go EmptyString.

Definition newline : str := String 10 EmptyString.

End PyStr.

(* ===================================================================== *)
(** ** The ASCII excerpt of the Unicode database *)
(* ===================================================================== *)

(** The tables restricted to the ASCII range: the digits are [0]..[9] and
    the case mappings act on the ASCII letters, character by character.
    The concrete runs below are made of ASCII text, on which these tables
    are those of every version of the database. *)
Module BasicLatin.
Import PyStr.

Lemma map_chars_idem (f : char -> char) (s : str) :
  (forall c, f (f c) = f c) -> map_chars f (map_chars f s) = map_chars f s.
Proof.
  intros Hf. induction s as [|c s IH]; simpl; [reflexivity|].
  now rewrite Hf, IH.
Qed.

Lemma lower_char_idem (c : char) : lower_char (lower_char c) = lower_char c.
Proof.
  unfold lower_char, between.
  destruct ((65 <=? c) && (c <=? 90))%N eqn:E; [|now rewrite E].
  apply andb_true_iff in E as [E1 E2].
  apply N.leb_le in E1, E2.
  replace ((65 <=? c + 32) && (c + 32 <=? 90))%N with false; [reflexivity|].
  symmetry. apply andb_false_iff. right. apply N.leb_gt. lia.
Qed.

Lemma lower_char_replace (c : char) :
  lower_char (if N.eqb c space then underscore else c)
  = (if N.eqb (lower_char c) space then underscore else lower_char c).
Proof.
  unfold lower_char, between, space, underscore.
  destruct (N.eqb_spec c 32) as [->|Hc]; [reflexivity|].
  destruct ((65 <=? c) && (c <=? 90))%N eqn:E.
  - apply andb_true_iff in E as [E1 E2]. apply N.leb_le in E1, E2.
    destruct (N.eqb_spec (c + 32) 32); [lia | reflexivity].
  - destruct (N.eqb_spec c 32); [contradiction | reflexivity].
Qed.

Lemma map_chars_replace (s : str) :
  map_chars lower_char (replace_char space underscore s)
  = replace_char space underscore (map_chars lower_char s).
Proof.
  unfold replace_char.
  induction s as [|c s IH]; simpl; [reflexivity|].
  now rewrite lower_char_replace, IH.
Qed.

Definition basic_latin : Unicode :=
  {| is_digit := between 48 57;
     lower := map_chars lower_char;
     upper := map_chars upper_char;
     is_digit_ascii := fun _ _ => eq_refl;
     lower_ascii := fun _ _ => eq_refl;
     lower_lower := fun s => map_chars_idem lower_char s lower_char_idem;
     lower_replace := map_chars_replace |}.

End BasicLatin.

(* ===================================================================== *)
(** ** Insertion-ordered dictionaries with string values *)
(* ===================================================================== *)

Module PyDict.

(** A Python [dict] with string keys keeps its keys in insertion order;
    assigning to an existing key keeps the key's position.  The entries
    are kept as an association list whose keys are pairwise distinct
    ([wf]). *)
Definition t (V : Type) : Type := list (str * V).

Section Ops.
Context {V : Type}.

Definition empty : t V := [].

Definition keys (d : t V) : list str := map fst d.
Definition values (d : t V) : list V := map snd d.
Definition items (d : t V) : list (str * V) := d.

Definition wf (d : t V) : Prop := NoDup (keys d).

(** [d.get(k)] / [d[k]] *)
Fixpoint get (k : str) (d : t V) : option V :=
  match d with
  | [] => None
  | (k', v) :: d' => if str_eqb k k' then Some v else get k d'
  end.

(** [k in d] *)
Definition mem (k : str) (d : t V) : bool :=
  match get k d with Some _ => true | None => false end.

(** [d[k] = v] *)
Fixpoint set (k : str) (v : V) (d : t V) : t V :=
  match d with
  | [] => [(k, v)]
  | (k', v') :: d' =>
      if str_eqb k k' then (k', v) :: d' else (k', v') :: set k v d'
  end.
End Ops.

End PyDict.

(* ===================================================================== *)
(** ** ElementTree *)
(* ===================================================================== *)

Module ET.

(** An element: tag, [text] (the character data before the first child,
    [None] when there is none), children, and [tail] (the character data
    that follows the element's end tag).  Attributes are not read by the
    functions modelled here. *)
#[warnings="-register-all"]
Inductive Element : Type :=
| Elem (tag : str) (text : option str)
       (children : list Element) (tail : option str).

Definition tag (e : Element) : str := let 'Elem t _ _ _ := e in t.
Definition text (e : Element) : option str := let 'Elem _ t _ _ := e in t.
Definition children (e : Element) : list Element := let 'Elem _ _ c _ := e in c.
Definition tail (e : Element) : option str := let 'Elem _ _ _ t := e in t.

(** [e.iter()]: the element and all its descendants in document order. *)
Fixpoint iter (e : Element) : list Element :=
  match e with
  | Elem _ _ cs _ => e :: flat_map iter cs
  end.

(** [e.findall('.//tag')]: all descendants (not [e] itself) with that tag,
    in document order. *)
Definition findall (t : str) (e : Element) : list Element :=
  List.filter (fun x => str_eqb (tag x) t) (flat_map iter (children e)).

(** [e.find('.//tag')]: the first of them, or [None]. *)
Definition find (t : str) (e : Element) : option Element :=
  head (findall t e).

Definition yield_if_truthy (o : option str) : list str :=
  match o with
  | Some s => if PyStr.truthy s then [s] else []
  | None => []
  end.

(** [e.itertext()]: the inner text pieces in document order. *)
Fixpoint itertext (e : Element) : list str :=
  match e with
  | Elem _ t cs _ =>
      yield_if_truthy t ++
      flat_map (fun c => itertext c ++ yield_if_truthy (tail c)) cs
  end.

End ET.

(* ===================================================================== *)
(** ** clients/pmc_client.py *)
(* ===================================================================== *)

Module PMCClient.
Import PyStr.

(** The [metadata] dictionary built by [_parse_metadata]; a key that the
    parser does not set is [None] ([authors] and [keywords] are always
    set). *)
Record Author : Type := mkAuthor {
  last_name : option str;
  first_name : option str
}.

Record Metadata : Type := mkMetadata {
  md_title : option str;
  md_authors : list Author;
  md_journal : option str;
  md_publication_date : option str;
  md_doi : option str;
  md_pmid : option str;
  md_abstract : option str;
  md_keywords : list str
}.

(** The [article] dictionary returned by [_parse_pmc_xml]; the keys
    ['metadata'] and ['sections'] are always set there, so the defaults
    of [article.get('metadata', {})] and [article.get('sections', {})]
    are never used. *)
Record Article : Type := mkArticle {
  pmc_id : str;
  metadata : Metadata;
  sections : PyDict.t str;
  full_text : str
}.

Section WithUnicode.
Context {U : Unicode}.

(** [_get_element_text] *)
Definition _get_element_text (element : ET.Element) : str :=
  let text_parts :=
    fold_left
      (fun text_parts text =>
         let clean_text := strip text in
         if truthy clean_text then text_parts ++ [clean_text] else text_parts)
      (ET.itertext element) [] in
  join " " text_parts.

(** [_normalize_section_title] *)
Definition _normalize_section_title (title : str) : str :=
  let title_lower := lower title in
  if contains "introduction" title_lower || contains "background" title_lower
  then "introduction"
  else if contains "method" title_lower || contains "material" title_lower
  then "methods"
  else if contains "result" title_lower
  then "results"
  else if contains "discussion" title_lower
  then "discussion"
  else if contains "conclusion" title_lower
  then "conclusion"
  else replace_char space underscore title_lower.

Definition blank_line : str := newline +:+ newline.

(** The body of the loop of [_parse_body_sections]. *)
Definition parse_sec (sections : PyDict.t str) (sec : ET.Element) : PyDict.t str :=
  match ET.find "title" sec with
  | Some title_elem =>
      match ET.text title_elem with
      | Some title_text =>
          if truthy title_text then
            let section_title := strip (lower title_text) in
            let key := _normalize_section_title section_title in
            let section_text := _get_element_text sec in
            match PyDict.get key sections with
            | Some old =>
                PyDict.set key (old +:+ blank_line +:+ section_text) sections
            | None => PyDict.set key section_text sections
            end
          else sections
      | None => sections
      end
  | None => sections
  end.

(** [_parse_body_sections] *)
Definition _parse_body_sections (body : ET.Element) : PyDict.t str :=
  fold_left parse_sec (ET.findall "sec" body) PyDict.empty.

Definition section_order : list str :=
  ["introduction"; "methods"; "results"; "discussion"; "conclusion"].

Definition in_list (k : str) (l : list str) : bool :=
  existsb (str_eqb k) l.

(** [_extract_full_text], reading the abstract and the sections. *)
Definition extract_full_text_of (abstract : option str)
    (sections : PyDict.t str) : str :=
  let parts := [] in
  let abstract := default "" abstract in
  let parts :=
    if truthy abstract then parts ++ ["ABSTRACT" +:+ newline +:+ abstract]
    else parts in
  let parts :=
    fold_left
      (fun parts section_name =>
         match PyDict.get section_name sections with
         | Some text => parts ++ [upper section_name +:+ newline +:+ text]
         | None => parts
         end)
      section_order parts in
  let parts :=
    fold_left
      (fun parts '(key, text) =>
         if negb (in_list key section_order)
         then parts ++ [upper key +:+ newline +:+ text]
         else parts)
      (PyDict.items sections) parts in
  join blank_line parts.

Definition _extract_full_text (article : Article) : str :=
  extract_full_text_of (md_abstract (metadata article)) (sections article).

(** [_parse_pmc_xml], from the parsed root on.  [_parse_metadata] is
    taken as a parameter: only its ['abstract'] entry is read here. *)
Definition _parse_pmc_xml
    (parse_metadata : ET.Element -> str -> Metadata)
    (root : ET.Element) (pmc_id : str) : Article :=
  let md :=
    match ET.find "front" root with
    | Some front => parse_metadata front pmc_id
    | None => mkMetadata None [] None None None None None []
    end in
  let secs :=
    match ET.find "body" root with
    | Some body => _parse_body_sections body
    | None => PyDict.empty
    end in
  mkArticle pmc_id md secs (extract_full_text_of (md_abstract md) secs).

End WithUnicode.

End PMCClient.

(* ===================================================================== *)
(** ** utils/helpers.py and the identifier pattern *)
(* ===================================================================== *)

Module Helpers.
Import PyStr.

Section WithUnicode.
Context {U : Unicode}.

(** The digits matched by [\d+] at the start of [s]: the longest run. *)
Fixpoint take_digits (s : str) : str :=
  match s with
  | EmptyString => EmptyString
  | String c s' => if is_digit c then String c (take_digits s') else EmptyString
  end.

(** [re.match(r'PMC(\d+)', s)]: group 1 of a match anchored at the start. *)
Definition match_here (s : str) : option str :=
  if startswith "PMC" s then
    let digits := take_digits (drop 3 s) in
    if truthy digits then Some digits else None
  else None.

(** [re.search(r'PMC(\d+)', s)]: group 1 of the leftmost match. *)
Fixpoint re_search (s : str) : option str :=
  match match_here s with
  | Some g => Some g
  | None =>
      match s with
      | EmptyString => None
      | String _ s' => re_search s'
      end
  end.

(** [extract_pmc_id] *)
Definition extract_pmc_id (url : str) : option str :=
  match re_search url with
  | Some g => Some ("PMC" +:+ g)
  | None => None
  end.

End WithUnicode.

End Helpers.

(* ===================================================================== *)
(** ** Exceptions, and the monad of stateful code that may raise *)
(* ===================================================================== *)

Module Py.

(** An exception: [type(e).__name__] and [str(e)]. *)
Record exn : Type := mkExn { exn_type : str; exn_msg : str }.

Definition ValueError (msg : str) : exn := mkExn "ValueError" msg.
Definition TypeError (msg : str) : exn := mkExn "TypeError" msg.
Definition IndexError (msg : str) : exn := mkExn "IndexError" msg.
Definition AttributeError (msg : str) : exn := mkExn "AttributeError" msg.
Definition JSONDecodeError (msg : str) : exn := mkExn "JSONDecodeError" msg.
Definition RetryError : exn := mkExn "RetryError" "".

Inductive result (A : Type) : Type :=
| Ok (a : A)
| Raise (e : exn).
Arguments Ok {A} a.
Arguments Raise {A} e.

(** A computation over a state [S] that returns or raises. *)
Definition M (S A : Type) : Type := S -> result A * S.

Section Ops.
Context {S : Type}.

#[export] Instance M_ret : MRet (M S) := fun A a s => (Ok a, s).

#[export] Instance M_bind : MBind (M S) := fun A B k m s =>
  match m s with
  | (Ok a, s') => k a s'
  | (Raise e, s') => (Raise e, s')
  end.

Definition raise {A} (e : exn) : M S A := fun s => (Raise e, s).

Definition lift_result {A} (r : result A) : M S A := fun s => (r, s).

(** [try: m  except Exception as e: h e] *)
Definition try_except {A} (m : M S A) (h : exn -> M S A) : M S A :=
  fun s =>
    match m s with
    | (Ok a, s') => (Ok a, s')
    | (Raise e, s') => h e s'
  end.

Definition modify (f : S -> S) : M S unit := fun s => (Ok tt, f s).

(** [for x in l: acc = body acc x] *)
Fixpoint for_fold {A B} (l : list A) (acc : B) (body : B -> A -> M S B)
  : M S B :=
  match l with
  | [] => mret acc
  | x :: l' => acc' ← body acc x; for_fold l' acc' body
  end.

(** [for x in l: body x] *)
Definition for_each {A} (l : list A) (body : A -> M S unit) : M S unit :=
  for_fold l tt (fun _ x => body x).

(** tenacity's [@retry(stop=stop_after_attempt(n), wait=...)]: the call
    is repeated while it raises; after the [n]-th failed attempt
    [RetryError] is raised.  [wait] is run between two attempts. *)
Fixpoint retry {A} (n : nat) (wait : M S unit) (f : M S A) : M S A :=
  match n with
  | O => raise RetryError
  | Datatypes.S n' =>
      try_except f
        (fun _ => match n' with
                  | O => raise RetryError
                  | Datatypes.S _ => wait ;; retry n' wait f
                  end)
  end.

(** Every value that [m] returns satisfies [P]. *)
Definition returns {A} (P : A -> Prop) (m : M S A) : Prop :=
  forall s a s', m s = (Ok a, s') -> P a.

(** [asyncio.gather] with [return_exceptions=True], the tasks being
    run to completion one after the other in list order: an exception
    of a task becomes its result. *)
Fixpoint gather {A} (tasks : list (M S A)) : M S (list (result A)) :=
  match tasks with
  | [] => mret []
  | t :: ts =>
      fun s =>
        let '(r, s') := t s in
        let '(rs, s'') := gather ts s' in
        (match rs with
         | Ok rs' => Ok (r :: rs')
         | Raise e => Raise e
         end, s'')
  end.
End Ops.

(** [l[lo:hi]] for [0 <= lo] and [0 <= hi] *)
Definition slice {A} (l : list A) (lo hi : Z) : list A :=
  firstn (Z.to_nat (hi - lo)) (skipn (Z.to_nat lo) l).

(** [range(0, stop, step)] for [0 <= stop] *)
Definition range0 (stop step : Z) : result (list Z) :=
  if step =? 0 then Raise (ValueError "range() arg 3 must not be zero")
  else if step <? 0 then Ok []
  else Ok (map (fun k => Z.of_nat k * step)
               (seq 0 (Z.to_nat ((stop + step - 1) / step)))).

(** [len(l)] *)
Definition len {A} (l : list A) : Z := Z.of_nat (length l).

End Py.

(* ===================================================================== *)
(** ** The world of the pipeline: tables, external calls, oracles *)
(* ===================================================================== *)

Module World.
Import PyStr PMCClient Py.

(** A decoded JSON value; the literal of a number is kept as it is, the
    pipeline never computes with it. *)
#[warnings="-register-all"]
Inductive JSON : Type :=
| JNull
| JBool (b : bool)
| JNumber (literal : str)
| JString (s : str)
| JArray (items : list JSON)
| JObject (fields : list (str * JSON)).

(** What the model is asked: the fixed instructions of the prompt are
    left out, the parts that depend on the article are kept. *)
Record Prompt : Type := mkPrompt {
  prompt_title : str;
  prompt_abstract : str;
  prompt_content : str
}.

(** Row of [processing_status]. *)
Record StatusRow : Type := mkStatusRow {
  st_status : str;
  st_started_at : option Z;
  st_completed_at : option Z;
  st_attempts : Z;
  st_last_error : option str
}.

(** Row of [processing_errors]. *)
Record ErrorRow : Type := mkErrorRow {
  err_pmc_id : str;
  err_message : str;
  err_type : str;
  err_timestamp : Z
}.

(** Row of [publications]: the columns named by [_store_in_postgres]. *)
Record PubRow : Type := mkPubRow {
  col_pmid : option str;
  col_doi : option str;
  col_title : option str;
  col_abstract : option str;
  col_journal : option str;
  col_publication_date : option str;
  col_authors : str;
  col_keywords : str;
  col_hypothesis : option JSON;
  col_key_findings : str;
  col_organisms_studied : str;
  col_space_conditions : str;
  col_full_text : str;
  col_created_at : option Z;
  col_updated_at : option Z
}.

(** The calls that leave the process. *)
Inductive Event : Type :=
| EvFetch (pmc_id : str)
| EvModelCall (p : Prompt)
| EvEncode (texts : list str)
| EvPgAcquire
| EvPgQuery (statement : str)
| EvWeaviateInsert (collection pmc_id : str) (section_name : option str)
| EvEsIndex (pmc_id : str)
| EvGraphPublication (pmc_id : str)
| EvSleep.

Record t : Type := mkWorld {
  processing_status : gmap str StatusRow;
  processing_errors : list ErrorRow;
  publications : gmap str PubRow;
  trace : list Event
}.

Definition log (e : Event) (w : t) : t :=
  mkWorld (processing_status w) (processing_errors w) (publications w)
          (trace w ++ [e]).

Definition with_status (f : gmap str StatusRow -> gmap str StatusRow)
    (w : t) : t :=
  mkWorld (f (processing_status w)) (processing_errors w) (publications w)
          (trace w).

Definition with_errors (f : list ErrorRow -> list ErrorRow) (w : t) : t :=
  mkWorld (processing_status w) (f (processing_errors w)) (publications w)
          (trace w).

Definition with_publications (f : gmap str PubRow -> gmap str PubRow)
    (w : t) : t :=
  mkWorld (processing_status w) (processing_errors w) (f (publications w))
          (trace w).

(** What [SentenceTransformer.encode] may hand back. *)
Inductive EncodeValue (float : Type) : Type :=
| NdArray (rows : list (list float))
| PySeq (rows : list (list float))
| Unsized.
Arguments NdArray {float} rows.
Arguments PySeq {float} rows.
Arguments Unsized {float}.

(** The services behind the pipeline.  Every answer may depend on the
    whole world at the time of the call, log of earlier calls included. *)
Record Env (float : Type) : Type := mkEnv {
  float_zero : float;
  (** [PMCAPIClient.fetch_article], retries and XML parsing included *)
  fetch_article : t -> str -> result Article;
  (** [response.choices[0].message.content] of the chat completion *)
  chat_completion : t -> Prompt -> result (option str);
  (** [json.loads]; [None] stands for [JSONDecodeError] *)
  json_loads : str -> option JSON;
  (** [json.dumps] *)
  json_dumps : JSON -> str;
  (** [self.embedding_model.encode] *)
  encode : t -> list str -> result (EncodeValue float);
  (** failures of the stores *)
  pg_fault : t -> option exn;
  weaviate_fault : t -> option exn;
  es_fault : t -> option exn;
  neo4j_fault : t -> option exn;
  (** [self.es_client is not None] *)
  es_client : bool;
  (** [NOW()] *)
  now : t -> Z;
  (** the default of [publications.updated_at] in the schema (the schema
      file is not part of the sources) *)
  updated_at_default : t -> option Z
}.
Arguments float_zero {float} e.
Arguments fetch_article {float} e.
Arguments chat_completion {float} e.
Arguments json_loads {float} e.
Arguments json_dumps {float} e.
Arguments encode {float} e.
Arguments pg_fault {float} e.
Arguments weaviate_fault {float} e.
Arguments es_fault {float} e.
Arguments neo4j_fault {float} e.
Arguments es_client {float} e.
Arguments now {float} e.
Arguments updated_at_default {float} e.

(** An external call: logged, then answered by the oracle. *)
Definition call {A} (ev : Event) (oracle : t -> result A) : M t A :=
  fun w => (oracle w, log ev w).

(** An external write that may fail; [effect] is applied when it does
    not. *)
Definition write (ev : Event) (fault : t -> option exn) (effect : t -> t)
  : M t unit :=
  fun w =>
    match fault w with
    | Some e => (Raise e, log ev w)
    | None => (Ok tt, log ev (effect w))
    end.

(** [d.get(k, dflt)] on a decoded JSON value: only objects have [get]. *)
Definition json_get (j : JSON) (k : str) (dflt : JSON) : result JSON :=
  match j with
  | JObject fields => Ok (default dflt (PyDict.get k fields))
  | _ => Raise (AttributeError "get")
  end.

(** [d.get(k)] *)
Definition json_get_opt (j : JSON) (k : str) : result (option JSON) :=
  match j with
  | JObject fields => Ok (PyDict.get k fields)
  | _ => Raise (AttributeError "get")
  end.

End World.

(* ===================================================================== *)
(** ** clients/ai_client.py *)
(* ===================================================================== *)

Module AIClient.
Import PyStr PMCClient Py World.

Section WithEnv.
Context {U : Unicode} {float : Type} (env : Env float).

(** [_get_default_enriched_data] *)
Definition _get_default_enriched_data : JSON :=
  JObject [("hypothesis", JString "Not extracted");
           ("organisms", JArray []);
           ("space_conditions", JArray []);
           ("key_findings", JArray []);
           ("implications", JString "Not extracted");
           ("knowledge_gaps", JArray []);
           ("entities", JArray [])].

(** [_prepare_content_for_llm] *)
Definition _prepare_content_for_llm (article_data : Article) : str :=
  let sections := sections article_data in
  let priority_sections :=
    ["introduction"; "results"; "conclusion"; "discussion"] in
  let content_parts :=
    fold_left
      (fun content_parts section_name =>
         match PyDict.get section_name sections with
         | Some text =>
             let words := firstn 500 (split text) in
             content_parts ++ [upper section_name +:+ ": " +:+ join " " words]
         | None => content_parts
         end)
      priority_sections [] in
  join blank_line content_parts.

Definition build_prompt (article_data : Article) : Prompt :=
  mkPrompt (default "" (md_title (metadata article_data)))
           (default "" (md_abstract (metadata article_data)))
           (_prepare_content_for_llm article_data).

(** [s.endswith(suffix)] *)
Definition endswith (suffix s : str) : bool :=
  (strlen suffix <=? strlen s)%nat &&
  str_eqb (drop (strlen s - strlen suffix) s) suffix.

Definition fence : str := "```".

(** The clean-up of the answer before [json.loads]. *)
Definition strip_code_fences (response_text : str) : str :=
  let response_text := strip response_text in
  let response_text :=
    if startswith (fence +:+ "json") response_text
    then drop 7 response_text else response_text in
  let response_text :=
    if startswith fence response_text
    then drop 3 response_text else response_text in
  let response_text :=
    if endswith fence response_text
    then take (strlen response_text - 3) response_text
    else response_text in
  strip response_text.

Definition is_instance (type_name : str) (e : exn) : bool :=
  str_eqb (exn_type e) type_name.

(** The function under the decorator: the [try] block and its two
    [except] clauses. *)
Definition extract_structured_info_once (article_data : Article)
  : M World.t JSON :=
  let prompt := build_prompt article_data in
  try_except
    (content ← call (EvModelCall prompt)
                    (fun w => chat_completion env w prompt);
     match content with
     | None => raise (AttributeError "strip")
     | Some response_text =>
         match json_loads env (strip_code_fences response_text) with
         | Some enriched_data => mret enriched_data
         | None => raise (JSONDecodeError "")
         end
     end)
    (fun e =>
       if is_instance "JSONDecodeError" e
       then mret _get_default_enriched_data
       else mret _get_default_enriched_data).

(** The pause of tenacity between two attempts. *)
Definition backoff : M World.t unit :=
  modify (log EvSleep).

(** [extract_structured_info], decorated with
    [@retry(stop=stop_after_attempt(3), wait=wait_exponential(...))]. *)
Definition extract_structured_info (article_data : Article)
  : M World.t JSON :=
  retry 3 backoff (extract_structured_info_once article_data).

Definition call_encode (texts : list str)
  : M World.t (EncodeValue float) :=
  call (EvEncode texts) (fun w => encode env w texts).

(** [hasattr(v, '__len__')] *)
Definition has_len (v : EncodeValue float) : bool :=
  match v with
  | NdArray _ | PySeq _ => true
  | Unsized => false
  end.

(** [len(v)]: the first dimension. *)
Definition py_len (v : EncodeValue float) : result nat :=
  match v with
  | NdArray rows | PySeq rows => Ok (length rows)
  | Unsized => Raise (TypeError "len")
  end.

(** The function under the decorator. *)
Definition generate_embeddings_once (texts : list str)
  : M World.t (list (list float)) :=
  try_except
    (embeddings ← call_encode texts;
     match embeddings with
     | NdArray rows => mret rows
     | PySeq rows => mret rows
     | Unsized => raise (TypeError "not iterable")
     end)
    (fun _ =>
       probe ← call_encode ["test"];
       embedding_dim ←
         (if has_len probe
          then probe' ← call_encode ["test"]; lift_result (py_len probe')
          else mret 384%nat);
       mret (map (fun _ => repeat (float_zero env) embedding_dim) texts)).

(** [generate_embeddings], decorated like [extract_structured_info]. *)
Definition generate_embeddings (texts : list str)
  : M World.t (list (list float)) :=
  retry 3 backoff (generate_embeddings_once texts).

End WithEnv.

End AIClient.

(* ===================================================================== *)
(** ** processors/batch_processor.py *)
(* ===================================================================== *)

Module BatchProcessor.
Import PyStr PMCClient Py World AIClient.

(** [self.stats] (the two time stamps are left out). *)
Record Stats : Type := mkStats {
  total : Z;
  success : Z;
  errors : Z;
  skipped : Z
}.

(** [self.stats] as [__init__] leaves it. *)
Definition init_stats : Stats := mkStats 0 0 0 0.

(** The processor: its counters and the world it acts on.  Only
    [process_all_articles] touches the counters. *)
Record Processor : Type := mkProcessor {
  stats : Stats;
  world : World.t
}.

Definition lift_world {A} (m : M World.t A) : M Processor A :=
  fun p =>
    let '(r, w) := m (world p) in (r, mkProcessor (stats p) w).

Definition with_stats (f : Stats -> Stats) : M Processor unit :=
  modify (fun p => mkProcessor (f (stats p)) (world p)).

(** The dictionary returned by [process_single_article]. *)
Record ArticleResult : Type := mkArticleResult {
  res_pmc_id : str;
  res_status : str;
  res_reason : option str;
  res_metadata : option Metadata
}.

(** [_extract_pmc_id] *)
Definition _extract_pmc_id {U : Unicode} (url : str) : result str :=
  match Helpers.re_search url with
  | Some g => Ok ("PMC" +:+ g)
  | None => Raise (ValueError ("Invalid PMC URL: " +:+ url))
  end.

(** [l[0]] *)
Definition first_item {A} (l : list A) : result A :=
  match l with
  | x :: _ => Ok x
  | [] => Raise (IndexError "list index out of range")
  end.

Definition author_json (a : Author) : JSON :=
  JObject ((match last_name a with
            | Some s => [("last_name", JString s)] | None => [] end) ++
           (match first_name a with
            | Some s => [("first_name", JString s)] | None => [] end)).

Section WithEnv.
Context {U : Unicode} {float : Type} (env : Env float).

Definition pg_acquire : M World.t unit :=
  write EvPgAcquire (pg_fault env) id.

Definition pg_execute (statement : str) (effect : World.t -> World.t)
  : M World.t unit :=
  write (EvPgQuery statement) (pg_fault env) effect.

(** [SELECT pmc_id FROM processing_status WHERE status = 'completed'] *)
Definition select_completed : M World.t (gset str) :=
  fun w =>
    match pg_fault env w with
    | Some e => (Raise e, log (EvPgQuery "select completed") w)
    | None =>
        (Ok (dom (filter (fun kv => st_status kv.2 = "completed")
                         (processing_status w))),
         log (EvPgQuery "select completed") w)
    end.

(** [_get_processed_ids] *)
Definition _get_processed_ids : M World.t (gset str) :=
  pg_acquire ;; select_completed.

(** [INSERT INTO processing_status ... ON CONFLICT (pmc_id) DO UPDATE] *)
Definition upsert_processing (pmc_id status : str) (w : World.t)
  : World.t :=
  with_status
    (fun tbl =>
       match tbl !! pmc_id with
       | Some row =>
           <[pmc_id := mkStatusRow status (Some (now env w))
                         (st_completed_at row) (st_attempts row + 1)
                         (st_last_error row)]> tbl
       | None =>
           <[pmc_id := mkStatusRow status (Some (now env w)) None 1 None]> tbl
       end) w.

(** [UPDATE processing_status SET status, completed_at WHERE pmc_id] *)
Definition update_completed (pmc_id status : str) (w : World.t)
  : World.t :=
  with_status
    (fun tbl =>
       match tbl !! pmc_id with
       | Some row =>
           <[pmc_id := mkStatusRow status (st_started_at row)
                         (Some (now env w)) (st_attempts row)
                         (st_last_error row)]> tbl
       | None => tbl
       end) w.

(** [UPDATE processing_status SET status, last_error WHERE pmc_id] *)
Definition update_failed (pmc_id status : str) (error : option str)
    (w : World.t) : World.t :=
  with_status
    (fun tbl =>
       match tbl !! pmc_id with
       | Some row =>
           <[pmc_id := mkStatusRow status (st_started_at row)
                         (st_completed_at row) (st_attempts row) error]> tbl
       | None => tbl
       end) w.

(** [_update_processing_status] *)
Definition _update_processing_status (pmc_id status : str)
    (error : option str) : M World.t unit :=
  pg_acquire ;;
  if str_eqb status "processing" then
    pg_execute "upsert processing_status" (upsert_processing pmc_id status)
  else if str_eqb status "completed" then
    pg_execute "update processing_status completed"
               (update_completed pmc_id status)
  else if str_eqb status "failed" then
    pg_execute "update processing_status failed"
               (update_failed pmc_id status error)
  else mret tt.

(** [_log_error] *)
Definition _log_error (pmc_id error_message error_type : str)
  : M World.t unit :=
  pg_acquire ;;
  pg_execute "insert processing_errors"
    (fun w => with_errors
                (fun l => l ++ [mkErrorRow pmc_id error_message error_type
                                           (now env w)]) w).

(** The statement of [_store_in_postgres]:
    [INSERT INTO publications ... ON CONFLICT (pmc_id) DO UPDATE SET
     updated_at = NOW(), title = EXCLUDED.title,
     abstract = EXCLUDED.abstract, full_text = EXCLUDED.full_text]. *)
Definition upsert_publication (pmc_id : str) (excluded : PubRow)
    (now_ : Z) (table : gmap str PubRow) : gmap str PubRow :=
  match table !! pmc_id with
  | None => <[pmc_id := excluded]> table
  | Some row =>
      <[pmc_id := mkPubRow
          (col_pmid row) (col_doi row)
          (col_title excluded)
          (col_abstract excluded)
          (col_journal row) (col_publication_date row)
          (col_authors row) (col_keywords row)
          (col_hypothesis row) (col_key_findings row)
          (col_organisms_studied row) (col_space_conditions row)
          (col_full_text excluded)
          (col_created_at row)
          (Some now_)]> table
  end.

(** [_store_in_postgres] *)
Definition _store_in_postgres (pmc_id : str) (article_data : Article)
    (enriched_data : JSON) : M World.t unit :=
  pg_acquire ;;
  let md := metadata article_data in
  hypothesis ← lift_result (json_get_opt enriched_data "hypothesis");
  key_findings ← lift_result (json_get enriched_data "key_findings" (JArray []));
  organisms ← lift_result (json_get enriched_data "organisms" (JArray []));
  space_conditions ←
    lift_result (json_get enriched_data "space_conditions" (JArray []));
  pg_execute "upsert publications"
    (fun w =>
       let values :=
         mkPubRow (md_pmid md) (md_doi md) (md_title md) (md_abstract md)
                  (md_journal md) (md_publication_date md)
                  (json_dumps env (JArray (map author_json (md_authors md))))
                  (json_dumps env (JArray (map JString (md_keywords md))))
                  hypothesis
                  (json_dumps env key_findings)
                  (json_dumps env organisms)
                  (json_dumps env space_conditions)
                  (full_text article_data)
                  (Some (now env w))
                  (updated_at_default env w) in
       with_publications (upsert_publication pmc_id values (now env w)) w).

(** [_store_in_weaviate] *)
Definition _store_in_weaviate (pmc_id : str) (article_data : Article)
    (enriched_data : JSON) (full_text_embedding : list float)
    (section_embeddings : PyDict.t (list float)) : M World.t unit :=
  _ ← lift_result (json_get enriched_data "organisms" (JArray []));
  write (EvWeaviateInsert "Publication" pmc_id None) (weaviate_fault env) id ;;
  if negb (Nat.eqb (length (sections article_data)) 0)
     && negb (Nat.eqb (length section_embeddings) 0)
  then
    for_each (PyDict.items section_embeddings)
      (fun '(section_name, section_embedding) =>
         match PyDict.get section_name (sections article_data) with
         | Some section_text =>
             if truthy section_text
             then write (EvWeaviateInsert "PublicationSection" pmc_id
                                          (Some section_name))
                        (weaviate_fault env) id
             else mret tt
         | None => mret tt
         end)
  else mret tt.

(** [_index_in_elasticsearch] *)
Definition _index_in_elasticsearch (pmc_id : str)
    (article_data : Article) : M World.t unit :=
  if negb (es_client env) then mret tt
  else write (EvEsIndex pmc_id) (es_fault env) id.

(** [KnowledgeGraphBuilder.create_publication_node], as one write. *)
Definition create_publication_node (article_data : Article)
    (enriched_data : JSON) : M World.t unit :=
  write (EvGraphPublication (pmc_id article_data)) (neo4j_fault env) id.

(** The bound of the slices [text[:8000]]. *)
Definition max_chars : nat := Z.to_nat 8000.

(** [any(text.strip() for text in sections.values())] *)
Definition any_nonblank (sections : PyDict.t str) : bool :=
  existsb (fun text => truthy (strip text)) (PyDict.values sections).

(** The [try] block of [process_single_article]. *)
Definition process_single_article_try (pmc_id : str)
  : M World.t ArticleResult :=
  _update_processing_status pmc_id "processing" None ;;
  article_data ← call (EvFetch pmc_id) (fun w => fetch_article env w pmc_id);
  let sections_available :=
    negb (Nat.eqb (length (sections article_data)) 0)
    && any_nonblank (sections article_data) in
  if negb sections_available then
    _update_processing_status pmc_id "skipped_no_sections" None ;;
    mret (mkArticleResult pmc_id "skipped" (Some "no_sections") None)
  else
    enriched_data ← extract_structured_info env article_data;
    full_text_embedding ←
      generate_embeddings env [take max_chars (full_text article_data)];
    section_embeddings ←
      for_fold (PyDict.items (sections article_data)) PyDict.empty
        (fun section_embeddings '(section_name, section_text) =>
           if truthy section_text then
             emb ← generate_embeddings env [take max_chars section_text];
             emb0 ← lift_result (first_item emb);
             mret (PyDict.set section_name emb0 section_embeddings)
           else mret section_embeddings);
    _store_in_postgres pmc_id article_data enriched_data ;;
    full_text_embedding0 ← lift_result (first_item full_text_embedding);
    _store_in_weaviate pmc_id article_data enriched_data
                       full_text_embedding0 section_embeddings ;;
    _index_in_elasticsearch pmc_id article_data ;;
    create_publication_node article_data enriched_data ;;
    _update_processing_status pmc_id "completed" None ;;
    mret (mkArticleResult pmc_id "success" None
                          (Some (metadata article_data))).

(** [process_single_article] *)
Definition process_single_article (pmc_url : str)
  : M World.t ArticleResult :=
  pmc_id ← lift_result (_extract_pmc_id pmc_url);
  try_except (process_single_article_try pmc_id)
    (fun e =>
       _log_error pmc_id (exn_msg e) (exn_type e) ;;
       _update_processing_status pmc_id "failed" (Some (exn_msg e)) ;;
       raise e).

(** The counting of one result of [asyncio.gather]. *)
Definition count_result (result : result ArticleResult)
  : M Processor unit :=
  match result with
  | Raise _ =>
      with_stats (fun s => mkStats (total s) (success s) (errors s + 1)
                                   (skipped s))
  | Ok r =>
      if str_eqb (res_status r) "success" then
        with_stats (fun s => mkStats (total s) (success s + 1) (errors s)
                                     (skipped s))
      else if str_eqb (res_status r) "skipped" then
        with_stats (fun s => mkStats (total s) (success s) (errors s)
                                     (skipped s + 1))
      else mret tt
  end.

(** The body of the loop that filters the URLs already processed. *)
Definition keep_unprocessed (processed_ids : gset str)
    (urls_to_process : list str) (url : str)
  : M Processor (list str) :=
  pmc_id ← lift_result (_extract_pmc_id url);
  if bool_decide (pmc_id ∉ processed_ids)
  then mret (urls_to_process ++ [url])
  else
    with_stats (fun s => mkStats (total s) (success s) (errors s)
                                 (skipped s + 1)) ;;
    mret urls_to_process.

(** The body of the loop over the batches. *)
Definition process_batch (urls_to_process : list str) (batch_size : Z)
    (i : Z) : M Processor unit :=
  let batch := slice urls_to_process i (i + batch_size) in
  let tasks := map process_single_article batch in
  raw_results ← lift_world (gather tasks);
  for_each raw_results count_result ;;
  lift_world (modify (log EvSleep)).

(** [process_all_articles]; the progress messages, the two time stamps and
    the final report are left out. *)
Definition process_all_articles (pmc_urls : list str) (batch_size : Z)
  : M Processor unit :=
  with_stats (fun s => mkStats (len pmc_urls) (success s) (errors s)
                               (skipped s)) ;;
  processed_ids ← lift_world _get_processed_ids;
  urls_to_process ← for_fold pmc_urls [] (keep_unprocessed processed_ids);
  starts ← lift_result (range0 (len urls_to_process) batch_size);
  for_each starts (process_batch urls_to_process batch_size).

End WithEnv.

End BatchProcessor.

(* ===================================================================== *)
(** ** The rules of the specification, stated on their own *)
(* ===================================================================== *)

Module Rules.
Import PyStr PMCClient Py BatchProcessor.

Section WithUnicode.
Context {U : Unicode}.

(** A blank line between two parts: two line feeds. *)
Definition blank : str := String 10 (String 10 EmptyString).

(** The canonical sections, in their fixed order. *)
Definition canonical : list str :=
  ["introduction"; "methods"; "results"; "discussion"; "conclusion"].

(** A part of the full text: the upper-cased key, a line feed, the text. *)
Definition header (key text : str) : str :=
  upper key +:+ String 10 text.

(** The concatenation rule of the full text: the abstract when it is not
    empty, under the header ABSTRACT, the canonical sections that are
    present, in their fixed order, then the other sections in insertion
    order; the parts are separated by blank lines. *)
Definition full_text_rule (abstract : option str)
    (sections : PyDict.t str) : str :=
  let abstract_part :=
    match abstract with
    | Some a => if truthy a then ["ABSTRACT" +:+ String 10 a] else []
    | None => []
    end in
  let canonical_parts :=
    flat_map (fun name => match PyDict.get name sections with
                          | Some text => [header name text]
                          | None => []
                          end) canonical in
  let remaining :=
    map (fun kv => header (fst kv) (snd kv))
        (List.filter (fun kv => negb (existsb (str_eqb (fst kv)) canonical))
                     (PyDict.items sections)) in
  str_concat blank (abstract_part ++ canonical_parts ++ remaining).

(** The direct text of the first nested title of a section, when it has
    one that is not empty. *)
Definition direct_title (sec : ET.Element) : option str :=
  match ET.find "title" sec with
  | Some title_elem =>
      match ET.text title_elem with
      | Some x => if truthy x then Some x else None
      | None => None
      end
  | None => None
  end.

(** The key a section's title normalizes to. *)
Definition title_key (sec : ET.Element) : option str :=
  match direct_title sec with
  | Some x => Some (_normalize_section_title (strip (lower x)))
  | None => None
  end.

Definition has_key (k : str) (sec : ET.Element) : bool :=
  match title_key sec with
  | Some k' => str_eqb k' k
  | None => false
  end.

(** The texts of the sections of [body] whose title normalizes to [k],
    in encounter order. *)
Definition texts_with_key (k : str) (body : ET.Element) : list str :=
  map _get_element_text (List.filter (has_key k) (ET.findall "sec" body)).

(** [s] begins with [PMC] and a digit. *)
Definition id_here (s : str) : bool :=
  startswith "PMC" s &&
  match drop 3 s with
  | String c _ => is_digit c
  | EmptyString => false
  end.

(** [s] has a substring made of [PMC] and a digit. *)
Fixpoint has_id (s : str) : bool :=
  id_here s ||
  match s with
  | EmptyString => false
  | String _ s' => has_id s'
  end.

(** What a key holds after a run of sections: the texts filed under it,
    appended to what was there. *)
Definition appended (old : option str) (texts : list str)
  : option str :=
  match old, texts with
  | Some o, _ => Some (fold_left (fun acc y => acc +:+ blank +:+ y) texts o)
  | None, [] => None
  | None, x :: rest =>
      Some (fold_left (fun acc y => acc +:+ blank +:+ y) rest x)
  end.

End WithUnicode.

(** The number of identifiers accounted for by the counters. *)
Definition counted (s : Stats) : Z := success s + errors s + skipped s.

Definition status_counted (r : result ArticleResult) : Prop :=
  match r with
  | Ok a => res_status a = "success" \/ res_status a = "skipped"
  | Raise _ => True
  end.

End Rules.

(* ===================================================================== *)
(** ** Concrete runs *)
(* ===================================================================== *)

Module Scenarios.
Import PyStr PMCClient Py World AIClient BatchProcessor.

#[local] Existing Instance BasicLatin.basic_latin.

Definition url1 : str := "https://source.example/articles/PMC11930778/".

Definition metadata1 : Metadata :=
  mkMetadata (Some "Title") [mkAuthor (Some "Doe") (Some "Jane")] (Some "J")
             (Some "2024-01-05") None None (Some "An abstract") ["space"].

(** A document whose only section is blank. *)
Definition blank_article (pmc_id : str) : Article :=
  mkArticle pmc_id metadata1 [("introduction", "   ")]
            (extract_full_text_of (Some "An abstract") [("introduction", "   ")]).

(** A document with one section of text. *)
Definition plain_article (pmc_id : str) : Article :=
  mkArticle pmc_id metadata1 [("introduction", "Cells in orbit")]
            (extract_full_text_of (Some "An abstract")
                                  [("introduction", "Cells in orbit")]).

Definition empty_world : World.t := mkWorld ∅ [] ∅ [].

Definition fresh_processor : Processor := mkProcessor init_stats empty_world.

Definition is_probe (texts : list str) : bool :=
  match texts with
  | [t] => str_eqb t "test"
  | _ => false
  end.

(** Stores that never fail, a model service that is down, an embedding
    model of dimension 384 that fails on everything but the probe.  The
    components of the vectors are integers here. *)
Definition degraded_env (article : str -> Article) : Env Z :=
  mkEnv Z 0
    (fun _ pmc_id => Ok (article pmc_id))
    (fun _ _ => Raise (mkExn "APIConnectionError" "model unreachable"))
    (fun _ => None)
    (fun _ => "[]")
    (fun _ texts => if is_probe texts then Ok (NdArray [repeat 1 384%nat])
                    else Raise (mkExn "RuntimeError" "encode failed"))
    (fun _ => None) (fun _ => None) (fun _ => None) (fun _ => None)
    true
    (fun w => Z.of_nat (length (trace w)))
    (fun _ => None).

(** The same, with an embedding model that always fails. *)
Definition no_embedding_env (article : str -> Article) : Env Z :=
  mkEnv Z 0
    (fun _ pmc_id => Ok (article pmc_id))
    (fun _ _ => Raise (mkExn "APIConnectionError" "model unreachable"))
    (fun _ => None)
    (fun _ => "[]")
    (fun _ _ => Raise (mkExn "RuntimeError" "encode failed"))
    (fun _ => None) (fun _ => None) (fun _ => None) (fun _ => None)
    true
    (fun w => Z.of_nat (length (trace w)))
    (fun _ => None).

Definition old_row : PubRow :=
  mkPubRow (Some "111") (Some "10.1/x") (Some "Old title") (Some "Old abstract")
           (Some "Old journal") (Some "2020") "[old authors]" "[old keywords]"
           (Some (JString "Old hypothesis")) "[old findings]"
           "[old organisms]" "[old conditions]" "Old text" (Some 1) None.

Definition world_with_row : World.t :=
  mkWorld ∅ [] {[ "PMC11930778" := old_row ]} [].

(** A body with two sections filed under [introduction]. *)
Definition sec_of (title text : str) : ET.Element :=
  ET.Elem "sec" None
    [ET.Elem "title" (Some title) [] None; ET.Elem "p" (Some text) [] None]
    None.

Definition background_introduction : ET.Element :=
  ET.Elem "body" None
    [sec_of "Background" "first"; sec_of "Introduction" "second"] None.




End Scenarios.

(* ===================================================================== *)
(** ** utils/helpers.py: the text and list helpers *)
(* ===================================================================== *)

Module HelpersText.
Import PyStr Py Helpers.

(** The class of [re.sub(r'[\x00-\x1f\x7f-\x9f]', '', text)]. *)
Definition is_control (c : char) : bool :=
  between 0 31 c || between 127 159 c.

(** [re.sub] of a character class by the empty string. *)
Fixpoint remove_chars (p : char -> bool) (s : str) : str :=
  match s with
  | EmptyString => EmptyString
  | String c s' => if p c then remove_chars p s' else String c (remove_chars p s')
  end.

(** [re.sub(r'\s+', ' ', text)]: every maximal run of blanks becomes one
    space; [in_run] says that the previous character was a blank. *)
Fixpoint collapse_go (in_run : bool) (s : str) : str :=
  match s with
  | EmptyString => EmptyString
  | String c s' =>
      if is_space c
      then (if in_run then collapse_go true s'
            else String space (collapse_go true s'))
      else String c (collapse_go false s')
  end.

Definition collapse_spaces : str -> str := collapse_go false.

(** [sanitize_text] *)
Definition sanitize_text (text : str) : str :=
  if negb (truthy text) then ""
  else
    let text := remove_chars is_control text in
    let text := collapse_spaces text in
    let text := strip text in
    text.

(** [text[:stop]] *)
Definition slice_to (text : str) (stop : Z) : str :=
  if stop <? 0
  then take (Z.to_nat (Z.of_nat (strlen text) + stop)) text
  else take (Z.to_nat stop) text.

(** [truncate_text] *)
Definition truncate_text (text : str) (max_length : Z) : str :=
  if negb (truthy text) || (Z.of_nat (strlen text) <=? max_length)
  then text
  else slice_to text max_length +:+ "...".

(** [$] without [re.MULTILINE]: the end, or a line break that ends the
    string. *)
Definition at_end (s : str) : bool :=
  str_eqb s "" || str_eqb s newline.

(** [validate_pmc_url]: [re.match] of
    [^https?://pmc\.ncbi\.nlm\.nih\.gov/articles/PMC\d+/?$]. *)
Definition validate_pmc_url {U : Unicode} (url : str) : bool :=
  let after_scheme :=
    if startswith "https" url then Some (drop 5 url)
    else if startswith "http" url then Some (drop 4 url)
    else None in
  match after_scheme with
  | None => false
  | Some rest =>
      let host := "://pmc.ncbi.nlm.nih.gov/articles/PMC" in
      if startswith host rest then
        let rest := drop (strlen host) rest in
        let digits := take_digits rest in
        if truthy digits then
          let rest := drop (strlen digits) rest in
          let rest := if startswith "/" rest then drop 1 rest else rest in
          at_end rest
        else false
      else false
  end.

(** [chunk_list] *)
Definition chunk_list {A} (lst : list A) (chunk_size : Z)
  : result (list (list A)) :=
  match range0 (len lst) chunk_size with
  | Ok starts => Ok (map (fun i => slice lst i (i + chunk_size)) starts)
  | Raise e => Raise e
  end.

End HelpersText.

(* ===================================================================== *)
(** ** clients/pmc_client.py: the request and the tables *)
(* ===================================================================== *)

Module PMCFetch.
Import PyStr PMCClient.

(** The normalisation at the head of [fetch_article]. *)
Definition normalize_pmc_id (pmc_id : str) : str :=
  if negb (startswith "PMC" pmc_id) then "PMC" +:+ pmc_id else pmc_id.

(** [pmc_id.replace('PMC', '')]: the occurrences are removed from left to
    right. *)
Fixpoint remove_pmc (s : str) : str :=
  match s with
  | EmptyString => EmptyString
  | String c1 s1 =>
      match s1 with
      | String c2 (String c3 rest) =>
          if N.eqb c1 (ord "P") && N.eqb c2 (ord "M") && N.eqb c3 (ord "C")
          then remove_pmc rest
          else String c1 (remove_pmc s1)
      | _ => String c1 (remove_pmc s1)
      end
  end.

(** [self.rate_limit] of [__init__] *)
Definition rate_limit (api_key : option str) : Z :=
  match api_key with
  | Some k => if truthy k then 10 else 3
  | None => 3
  end.

(** The [params] of [_fetch_full_text_xml]. *)
Definition request_params (email : str) (api_key : option str)
    (pmc_id : str) : PyDict.t str :=
  let numeric_id := remove_pmc pmc_id in
  let params :=
    [("db", "pmc"); ("id", numeric_id); ("retmode", "xml"); ("email", email)] in
  match api_key with
  | Some k => if truthy k then PyDict.set "api_key" k params else params
  | None => params
  end.

(** The parameters that [fetch_article] sends for [pmc_id]. *)
Definition fetch_params (email : str) (api_key : option str)
    (pmc_id : str) : PyDict.t str :=
  request_params email api_key (normalize_pmc_id pmc_id).

(** The cells of a row: [_get_element_text] of each element with that
    tag. *)
Definition cells (cell_tag : str) (tr : ET.Element) : list str :=
  fold_left (fun row cell => row ++ [_get_element_text cell])
            (ET.findall cell_tag tr) [].

(** [_parse_xml_table]: the headers and the rows. *)
Definition _parse_xml_table (table : ET.Element)
  : list str * list (list str) :=
  let headers :=
    match ET.find "thead" table with
    | Some thead =>
        fold_left
          (fun headers tr =>
             let header_row := cells "th" tr in
             match header_row with
             | [] => headers
             | _ => header_row
             end)
          (ET.findall "tr" thead) []
    | None => []
    end in
  let rows :=
    match ET.find "tbody" table with
    | Some tbody =>
        fold_left
          (fun rows tr =>
             let row := cells "td" tr in
             match row with
             | [] => rows
             | _ => rows ++ [row]
             end)
          (ET.findall "tr" tbody) []
    | None => []
    end in
  (headers, rows).

End PMCFetch.

(* ===================================================================== *)
(** ** Invariants of computations on the world *)
(* ===================================================================== *)

Module Frames.
Import PyStr PMCClient Py World AIClient BatchProcessor.

(** The three relational tables are the same in both worlds. *)
Definition same_tables (w w' : World.t) : Prop :=
  processing_status w' = processing_status w /\
  processing_errors w' = processing_errors w /\
  publications w' = publications w.

(** The table of publications is the same in both worlds. *)
Definition same_publications (w w' : World.t) : Prop :=
  publications w' = publications w.

(** Whatever [m] does, it leaves the three tables as they are. *)
Definition quiet {A} (m : M World.t A) : Prop :=
  forall w r w', m w = (r, w') -> same_tables w w'.

(** Whatever [m] does, it leaves the table of publications as it is. *)
Definition keeps_publications {A} (m : M World.t A) : Prop :=
  forall w r w', m w = (r, w') -> same_publications w w'.

(** A property of worlds that only looks at the tables. *)
Definition on_tables (T : World.t -> Prop) : Prop :=
  forall w w', same_tables w w' -> T w -> T w'.

(** From a world that satisfies [P], a value returned by [m] and the
    world then satisfy [Q], and the world after an exception satisfies
    [R]. *)
Definition hoare {A} (P : World.t -> Prop) (m : M World.t A)
    (Q : A -> World.t -> Prop) (R : World.t -> Prop) : Prop :=
  forall w r w',
    P w -> m w = (r, w') ->
    match r with Ok a => Q a w' | Raise _ => R w' end.

Definition is_encode (e : Event) : bool :=
  match e with EvEncode _ => true | _ => false end.

Definition is_sleep (e : Event) : bool :=
  match e with EvSleep => true | _ => false end.

Definition is_fetch (e : Event) : bool :=
  match e with EvFetch _ => true | _ => false end.

(** The URL yields an identifier whose status row says [completed]. *)
Definition completed_url {U : Unicode} (w : World.t) (url : str) : Prop :=
  exists pmc_id row,
    _extract_pmc_id url = Ok pmc_id /\
    processing_status w !! pmc_id = Some row /\
    st_status row = "completed".

(** The URL yields an identifier. *)
Definition valid_url {U : Unicode} (url : str) : Prop :=
  exists pmc_id, _extract_pmc_id url = Ok pmc_id.

(** A word: not empty, without a blank. *)
Definition is_word (w : str) : bool :=
  truthy w && all_chars (fun c => negb (is_space c)) w.

(** The excerpt of a section in the prompt. *)
Definition excerpt (text : str) : str :=
  join " " (firstn 500 (split text)).

(** The first occurrences of the elements of a list, in order. *)
Fixpoint first_occurrences (seen l : list str) : list str :=
  match l with
  | [] => []
  | k :: l' =>
      if in_list k seen then first_occurrences seen l'
      else k :: first_occurrences (seen ++ [k]) l'
  end.

(** A needle without space and underscore: it neither appears nor
    disappears when the spaces become underscores. *)
Definition plain_needle (needle : str) : bool :=
  all_chars (fun c => negb (N.eqb c space) && negb (N.eqb c underscore))
            needle.

(** A string that neither begins nor ends with a blank. *)
Definition stripped (s : str) : Prop := lstrip s = s /\ rstrip s = s.

(** No control character, and no blank but the space, never two in a
    row; [prev_blank] says that the previous character was a blank. *)
Fixpoint single_spaced (prev_blank : bool) (s : str) : bool :=
  match s with
  | EmptyString => true
  | String c s' =>
      negb (HelpersText.is_control c) &&
      (if is_space c
       then N.eqb c space && negb prev_blank && single_spaced true s'
       else single_spaced false s')
  end.

(** The number of events of a kind in the log of a world. *)
Definition count_events (p : Event -> bool) (w : World.t) : nat :=
  length (List.filter p (trace w)).

(** From [w] to [w'] the log grew by at most [encodes] calls to the
    embedding model and [sleeps] pauses and by nothing else, and the
    tables are the same. *)
Definition embedding_calls (encodes sleeps : nat) (w w' : World.t) : Prop :=
  (count_events is_encode w' <= count_events is_encode w + encodes)%nat /\
  (count_events is_sleep w' <= count_events is_sleep w + sleeps)%nat /\
  (length (trace w') + count_events is_encode w + count_events is_sleep w
   = length (trace w) + count_events is_encode w' + count_events is_sleep w')%nat /\
  same_tables w w'.

(** A model service that answers an empty JSON object in a fenced block;
    the stores never fail and the embedding model has dimension 3. *)
Definition healthy_env (article : str -> Article) : Env Z :=
  mkEnv Z 0
    (fun _ pmc_id => Ok (article pmc_id))
    (fun _ _ => Ok (Some ("```json" +:+ newline +:+ "{}" +:+ newline +:+ "```")))
    (fun s => if str_eqb s "{}" then Some (JObject [])
              else if str_eqb s "[]" then Some (JArray [])
              else None)
    (fun _ => "[]")
    (fun _ texts => Ok (NdArray (map (fun _ => [1; 2; 3]) texts)))
    (fun _ => None) (fun _ => None) (fun _ => None) (fun _ => None)
    true
    (fun w => Z.of_nat (length (trace w)))
    (fun _ => None).

(** The same, with a model service that answers a JSON array. *)
Definition array_env (article : str -> Article) : Env Z :=
  mkEnv Z 0
    (fun _ pmc_id => Ok (article pmc_id))
    (fun _ _ => Ok (Some "[]"))
    (fun s => if str_eqb s "{}" then Some (JObject [])
              else if str_eqb s "[]" then Some (JArray [])
              else None)
    (fun _ => "[]")
    (fun _ texts => Ok (NdArray (map (fun _ => [1; 2; 3]) texts)))
    (fun _ => None) (fun _ => None) (fun _ => None) (fun _ => None)
    true
    (fun w => Z.of_nat (length (trace w)))
    (fun _ => None).

(** The same as [healthy_env], with a source that cannot be reached. *)
Definition unreachable_env : Env Z :=
  mkEnv Z 0
    (fun _ _ => Raise (mkExn "Exception" "API error 500: down"))
    (fun _ _ => Ok (Some "{}"))
    (fun s => if str_eqb s "{}" then Some (JObject []) else None)
    (fun _ => "[]")
    (fun _ texts => Ok (NdArray (map (fun _ => [1; 2; 3]) texts)))
    (fun _ => None) (fun _ => None) (fun _ => None) (fun _ => None)
    true
    (fun w => Z.of_nat (length (trace w)))
    (fun _ => None).

(** A table with a header row and two rows, one of them without cells. *)
Definition small_table : ET.Element :=
  ET.Elem "table" None
    [ET.Elem "thead" None
       [ET.Elem "tr" None [ET.Elem "th" (Some "Gene") [] None;
                           ET.Elem "th" (Some "Fold") [] None] None] None;
     ET.Elem "tbody" None
       [ET.Elem "tr" None [ET.Elem "td" (Some "p53") [] None;
                           ET.Elem "td" (Some " 2.1 ") [] None] None;
        ET.Elem "tr" None [] None] None] None.

(** What holds of the tables once an article is stored and completed. *)
Definition stored_and_completed (errors0 : list ErrorRow) (pmc_id : str)
    (w : World.t) : Prop :=
  (exists row, processing_status w !! pmc_id = Some row /\
               st_status row = "completed") /\
  is_Some (publications w !! pmc_id) /\
  processing_errors w = errors0.

(** The processor after one more skipped identifier. *)
Definition skip_one (p : Processor) : Processor :=
  mkProcessor (mkStats (total (stats p)) (success (stats p))
                       (errors (stats p)) (skipped (stats p) + 1))
              (world p).

(** The identifiers whose status row says [completed]. *)
Definition completed_ids (w : World.t) : gset str :=
  dom (filter (fun kv => st_status kv.2 = "completed") (processing_status w)).

(** The world after the two calls of [_get_processed_ids]. *)
Definition after_select (w : World.t) : World.t :=
  log (EvPgQuery "select completed") (log EvPgAcquire w).

(** A world in which the article of [Scenarios.url1] is completed. *)
Definition completed_world : World.t :=
  mkWorld {[ "PMC11930778" := mkStatusRow "completed" (Some 1) (Some 2) 1 None ]}
          [] ∅ [].

(** The keys of the titled sections of [body], in encounter order. *)
Definition title_keys {U : Unicode} (body : ET.Element) : list str :=
  omap Rules.title_key (ET.findall "sec" body).

End Frames.

(* ===================================================================== *)
(** * Properties *)
(* ===================================================================== *)

(** ** Strings and dictionaries *)

Module StrFacts.

Lemma str_eqb_refl (a : str) : str_eqb a a = true.
Proof.
  induction a as [|c a IH]; [reflexivity|].
  cbn [str_eqb]. now rewrite N.eqb_refl, IH.
Qed.

Lemma str_eqb_eq (a b : str) : str_eqb a b = true <-> a = b.
Proof.
  split; [|intros ->; apply str_eqb_refl].
  revert b. induction a as [|c a IH]; intros [|d b]; cbn [str_eqb];
    try discriminate; [reflexivity|].
  intros [Hc Hs]%andb_true_iff.
  apply N.eqb_eq in Hc. apply IH in Hs. congruence.
Qed.

Lemma str_eqb_neq (a b : str) : str_eqb a b = false <-> a <> b.
Proof.
  rewrite <- str_eqb_eq. destruct (str_eqb a b); split; congruence.
Qed.

End StrFacts.
Export StrFacts.

Module PyStrFacts.
Import PyStr.

Lemma append_nil_l (b : str) : "" +:+ b = b.
Proof. reflexivity. Qed.

Lemma append_cons (x : char) (a b : str) :
  String x a +:+ b = String x (a +:+ b).
Proof. reflexivity. Qed.

Lemma append_assoc (a b c : str) : (a +:+ b) +:+ c = a +:+ (b +:+ c).
Proof.
  induction a as [|x a IH]; [reflexivity|].
  rewrite !append_cons. now f_equal.
Qed.

Lemma append_empty_r (a : str) : a +:+ "" = a.
Proof.
  induction a as [|x a IH]; [reflexivity|].
  rewrite append_cons. now f_equal.
Qed.

Lemma startswith_spec (p s : str) :
  startswith p s = true <-> exists rest, s = p +:+ rest.
Proof.
  unfold startswith. revert s.
  induction p as [|c p IH]; intros s.
  - destruct s; simpl; split; eauto.
  - destruct s as [|d s]; cbn [prefix].
    + split; [discriminate | intros [r Hr]; discriminate].
    + rewrite andb_true_iff, N.eqb_eq, IH. split.
      * intros [-> [r ->]]. exists r. reflexivity.
      * intros [r Hr]. rewrite append_cons in Hr.
        injection Hr as -> ->. eauto.
Qed.

(** [needle in s] holds exactly when [needle] is a substring of [s]. *)
Lemma contains_spec (needle s : str) :
  contains needle s = true <->
  exists before after, s = before +:+ needle +:+ after.
Proof.
  induction s as [|c s IH]; cbn [contains];
    rewrite orb_true_iff, startswith_spec.
  - split.
    + intros [[r Hr]|H]; [|discriminate]. exists "", r. exact Hr.
    + intros ([|x b] & a & H); [left; eauto | discriminate].
  - rewrite IH. split.
    + intros [[r Hr]|(b & a & ->)].
      * exists "", r. exact Hr.
      * exists (String c b), a. reflexivity.
    + intros ([|x b] & a & H).
      * left. exists a. exact H.
      * right. rewrite append_cons in H. injection H as -> ->. eauto.
Qed.

Lemma join_cons2 (sep x y : str) (l : list str) :
  join sep (x :: y :: l) = x +:+ sep +:+ join sep (y :: l).
Proof. reflexivity. Qed.

(** Appending the pieces one by one, as [+=] does, builds the join. *)
Lemma join_fold_left (sep : str) (l : list str) (x : str) :
  fold_left (fun acc y => acc +:+ sep +:+ y) l x = join sep (x :: l).
Proof.
  revert x. induction l as [|y l IH]; intros x; [reflexivity|].
  cbn [fold_left]. rewrite IH.
  destruct l as [|z l].
  - reflexivity.
  - rewrite !join_cons2. now rewrite !append_assoc.
Qed.

End PyStrFacts.

Module PyDictFacts.
Import PyDict.

Section Facts.
Context {V : Type}.
Implicit Types (d : PyDict.t V) (k : str) (v : V).

Lemma get_set_same k v d : get k (set k v d) = Some v.
Proof.
  induction d as [|[k' v'] d IH]; simpl.
  - now rewrite str_eqb_refl.
  - destruct (str_eqb k k') eqn:E; simpl; rewrite E; [reflexivity | exact IH].
Qed.

Lemma get_set_other k k' v d : k <> k' -> get k (set k' v d) = get k d.
Proof.
  intros Hne. induction d as [|[k2 v2] d IH]; simpl.
  - apply str_eqb_neq in Hne. now rewrite Hne.
  - destruct (str_eqb k' k2) eqn:E; simpl.
    + apply str_eqb_eq in E. subst k2.
      apply str_eqb_neq in Hne. now rewrite Hne.
    + now rewrite IH.
Qed.

Lemma keys_set_present k v d :
  In k (keys d) -> keys (set k v d) = keys d.
Proof.
  induction d as [|[k' v'] d IH]; simpl; [tauto|].
  intros Hin. destruct (str_eqb k k') eqn:E; simpl; [reflexivity|].
  f_equal. apply IH. destruct Hin as [->|Hin]; [|exact Hin].
  now rewrite str_eqb_refl in E.
Qed.

Lemma keys_set_absent k v d :
  ~ In k (keys d) -> keys (set k v d) = keys d ++ [k].
Proof.
  induction d as [|[k' v'] d IH]; simpl; [reflexivity|].
  intros Hnin. destruct (str_eqb k k') eqn:E; simpl.
  - apply str_eqb_eq in E. subst k'. exfalso. apply Hnin. now left.
  - f_equal. apply IH. tauto.
Qed.

Lemma get_in_keys k d : In k (keys d) <-> get k d <> None.
Proof.
  induction d as [|[k' v'] d IH]; simpl; [tauto|].
  destruct (str_eqb k k') eqn:E.
  - apply str_eqb_eq in E. split; [discriminate | auto].
  - apply str_eqb_neq in E. rewrite <- IH. split; [|tauto].
    intros [H|H]; [congruence | exact H].
Qed.

(** Assignment keeps the keys pairwise distinct. *)
Lemma wf_set k v d : wf d -> wf (set k v d).
Proof.
  unfold wf. intros Hwf.
  destruct (in_dec str_eq_dec k (keys d)) as [Hin|Hnin].
  - now rewrite keys_set_present.
  - rewrite keys_set_absent by exact Hnin.
    apply NoDup_app. split; [exact Hwf|]. split.
    + intros x Hx Hx'. apply list_elem_of_In in Hx, Hx'.
      destruct Hx' as [<-|[]]. tauto.
    + apply NoDup_singleton.
Qed.
End Facts.

End PyDictFacts.

(** ** The parser *)

Module PMCClientFacts.
Import PyStr PMCClient Rules Scenarios PyStrFacts PyDictFacts.

Section WithUnicode.
Context {U : Unicode}.

(** C5. Section-title normalization applies the substring rules to the
    lower-cased title in the listed order: [introduction] or [background]
    gives [introduction]; otherwise [method] or [material] gives
    [methods]; otherwise [result] gives [results]; otherwise [discussion]
    gives [discussion]; otherwise [conclusion] gives [conclusion]; any
    other title gives its lower-cased form with the spaces replaced by
    underscores.  Being a function of the title alone, the key is the
    same every time. *)
Theorem normalize_section_title_precedence (title : str) :
  let has := fun needle => contains needle (lower title) in
  (has "introduction" = true \/ has "background" = true ->
   _normalize_section_title title = "introduction") /\
  (has "introduction" = false -> has "background" = false ->
   has "method" = true \/ has "material" = true ->
   _normalize_section_title title = "methods") /\
  (has "introduction" = false -> has "background" = false ->
   has "method" = false -> has "material" = false ->
   has "result" = true ->
   _normalize_section_title title = "results") /\
  (has "introduction" = false -> has "background" = false ->
   has "method" = false -> has "material" = false ->
   has "result" = false -> has "discussion" = true ->
   _normalize_section_title title = "discussion") /\
  (has "introduction" = false -> has "background" = false ->
   has "method" = false -> has "material" = false ->
   has "result" = false -> has "discussion" = false ->
   has "conclusion" = true ->
   _normalize_section_title title = "conclusion") /\
  (has "introduction" = false -> has "background" = false ->
   has "method" = false -> has "material" = false ->
   has "result" = false -> has "discussion" = false ->
   has "conclusion" = false ->
   _normalize_section_title title
   = replace_char (ord " ") (ord "_") (lower title)).
Proof.
  intros has. subst has. unfold _normalize_section_title. cbv beta.
  repeat split.
  - intros [H|H]; rewrite H; [reflexivity | now rewrite orb_true_r].
  - intros H1 H2 [H|H]; rewrite H1, H2, H; [reflexivity | now rewrite orb_true_r].
  - intros H1 H2 H3 H4 H5. now rewrite H1, H2, H3, H4, H5.
  - intros H1 H2 H3 H4 H5 H6. now rewrite H1, H2, H3, H4, H5, H6.
  - intros H1 H2 H3 H4 H5 H6 H7. now rewrite H1, H2, H3, H4, H5, H6, H7.
  - intros H1 H2 H3 H4 H5 H6 H7. now rewrite H1, H2, H3, H4, H5, H6, H7.
Qed.

(** *** Full text *)

Lemma fold_left_append {A B} (f : A -> list B) (l : list A) (acc : list B) :
  fold_left (fun parts x => parts ++ f x) l acc = acc ++ flat_map f l.
Proof.
  revert acc. induction l as [|x l IH]; intros acc; simpl.
  - now rewrite app_nil_r.
  - rewrite IH. now rewrite app_assoc.
Qed.

Lemma fold_left_same {A B} (f g : B -> A -> B) (l : list A) (acc : B) :
  (forall b a, f b a = g b a) -> fold_left f l acc = fold_left g l acc.
Proof.
  intros H. revert acc. induction l as [|x l IH]; intros acc; simpl;
    [reflexivity | now rewrite H, IH].
Qed.

Lemma flat_map_filter {A B} (p : A -> bool) (f : A -> B) (l : list A) :
  flat_map (fun x => if p x then [f x] else []) l = map f (List.filter p l).
Proof.
  induction l as [|x l IH]; simpl; [reflexivity|].
  destruct (p x); simpl; now rewrite IH.
Qed.

Lemma extract_full_text_of_rule (abstract : option str)
    (sections : PyDict.t str) :
  extract_full_text_of abstract sections = full_text_rule abstract sections.
Proof.
  unfold extract_full_text_of, full_text_rule.
  change (join blank_line) with (str_concat blank). f_equal.
  rewrite (fold_left_same _
             (fun parts kv =>
                parts ++ (if negb (existsb (str_eqb (fst kv)) canonical)
                          then [header (fst kv) (snd kv)] else []))).
  2:{ intros b [k t]; simpl. destruct (negb _); [reflexivity|].
      now rewrite app_nil_r. }
  rewrite fold_left_append.
  rewrite (fold_left_same _
             (fun parts name =>
                parts ++ match PyDict.get name sections with
                         | Some text => [header name text]
                         | None => []
                         end)).
  2:{ intros b name. destruct (PyDict.get name sections); [reflexivity|].
      now rewrite app_nil_r. }
  rewrite fold_left_append.
  rewrite (flat_map_filter
             (fun kv => negb (existsb (str_eqb (fst kv)) canonical))
             (fun kv => header (fst kv) (snd kv))).
  rewrite <- app_assoc. f_equal.
  destruct abstract as [a|]; simpl; [|reflexivity].
  destruct (truthy a); reflexivity.
Qed.

(** C1. The full text derived from an article is the concatenation fixed
    by the rule: the abstract under the header ABSTRACT when it is not
    empty, then the sections [introduction], [methods], [results],
    [discussion], [conclusion] that are present in the mapping, in that
    order, then every other section in insertion order, each under its
    upper-cased key, the parts separated by blank lines.  The text stored
    in the article that the parser returns is this concatenation of its
    own abstract and sections. *)
Theorem extract_full_text_concatenation :
  (forall article : Article,
     _extract_full_text article =
     full_text_rule (md_abstract (metadata article)) (sections article)) /\
  (forall parse_metadata root pmc_id,
     let article := _parse_pmc_xml parse_metadata root pmc_id in
     full_text article =
     full_text_rule (md_abstract (metadata article)) (sections article)).
Proof.
  split.
  - intros article. apply extract_full_text_of_rule.
  - intros pm root id. apply extract_full_text_of_rule.
Qed.

(** *** Sections *)

Lemma parse_sec_keyed (sections : PyDict.t str) (sec : ET.Element) :
  parse_sec sections sec =
  match title_key sec with
  | Some key =>
      match PyDict.get key sections with
      | Some old =>
          PyDict.set key (old +:+ blank +:+ _get_element_text sec) sections
      | None => PyDict.set key (_get_element_text sec) sections
      end
  | None => sections
  end.
Proof.
  unfold parse_sec, title_key, direct_title.
  destruct (ET.find "title" sec) as [t|]; [|reflexivity].
  destruct (ET.text t) as [x|]; [|reflexivity].
  destruct (truthy x); reflexivity.
Qed.

Lemma parse_sec_wf sections sec :
  PyDict.wf sections -> PyDict.wf (parse_sec sections sec).
Proof.
  intros Hwf. rewrite parse_sec_keyed.
  destruct (title_key sec) as [key|]; [|exact Hwf].
  destruct (PyDict.get key sections); now apply wf_set.
Qed.

Lemma parse_secs_wf secs sections :
  PyDict.wf sections -> PyDict.wf (fold_left parse_sec secs sections).
Proof.
  revert sections. induction secs as [|sec secs IH]; intros d Hwf; simpl;
    [exact Hwf | apply IH, parse_sec_wf, Hwf].
Qed.

Lemma parse_secs_get (k : str) (secs : list ET.Element)
    (sections : PyDict.t str) :
  PyDict.get k (fold_left parse_sec secs sections) =
  appended (PyDict.get k sections)
           (map _get_element_text (List.filter (has_key k) secs)).
Proof.
  revert sections. induction secs as [|sec secs IH]; intros d.
  - simpl. destruct (PyDict.get k d); reflexivity.
  - cbn [fold_left List.filter]. rewrite IH, parse_sec_keyed.
    unfold has_key. destruct (title_key sec) as [key|]; [|reflexivity].
    destruct (str_eqb key k) eqn:E.
    + apply str_eqb_eq in E. subst key.
      destruct (PyDict.get k d) as [old|] eqn:G;
        rewrite get_set_same; reflexivity.
    + apply str_eqb_neq in E.
      assert (k <> key) as E' by congruence.
      destruct (PyDict.get key d); now rewrite get_set_other.
Qed.

Lemma parse_body_sections_get (k : str) (body : ET.Element) :
  PyDict.get k (_parse_body_sections body) =
  match texts_with_key k body with
  | [] => None
  | texts => Some (str_concat blank texts)
  end.
Proof.
  unfold _parse_body_sections, texts_with_key. rewrite parse_secs_get.
  cbn [PyDict.get PyDict.empty appended].
  destruct (map _ _) as [|x rest]; [reflexivity|].
  now rewrite join_fold_left.
Qed.

(** C6. When two or more sections of a body have titles that normalize
    to the same key, the parsed mapping has one entry for that key (its
    keys are pairwise distinct) and the value is the texts of those
    sections in encounter order, separated by blank lines (two line
    feeds). *)
Theorem duplicate_section_keys_concatenated
    (body : ET.Element) (k : str) :
  (2 <= length (texts_with_key k body))%nat ->
  NoDup (PyDict.keys (_parse_body_sections body)) /\
  PyDict.get k (_parse_body_sections body) =
  Some (str_concat (String 10 (String 10 "")) (texts_with_key k body)).
Proof.
  intros Hlen. split.
  - apply parse_secs_wf. apply NoDup_nil_2.
  - rewrite parse_body_sections_get.
    destruct (texts_with_key k body); [simpl in Hlen; lia | reflexivity].
Qed.




End WithUnicode.

#[local] Existing Instance BasicLatin.basic_latin.

Lemma normalize_section_title_precedence_witness :
  _normalize_section_title "Materials and Methods" = "methods".
Proof.
  apply (proj1 (proj2
           (normalize_section_title_precedence "Materials and Methods")));
    [reflexivity | reflexivity | left; reflexivity].
Defined.

Example normalize_other :
  _normalize_section_title "Data Availability" = "data_availability".
Proof. reflexivity. Qed.

Example full_text_example :
  extract_full_text_of (Some "abs")
    [("data_availability", "d"); ("results", "r"); ("introduction", "i")]
  = "ABSTRACT" +:+ newline +:+ "abs" +:+ blank_line +:+
    "INTRODUCTION" +:+ newline +:+ "i" +:+ blank_line +:+
    "RESULTS" +:+ newline +:+ "r" +:+ blank_line +:+
    "DATA_AVAILABILITY" +:+ newline +:+ "d".
Proof. reflexivity. Qed.

Lemma duplicate_section_keys_concatenated_witness :
  PyDict.get "introduction" (_parse_body_sections background_introduction) =
  Some ("Background first" +:+ String 10 (String 10 "Introduction second")).
Proof.
  apply (proj2 (duplicate_section_keys_concatenated
                  (U := BasicLatin.basic_latin)
                  background_introduction "introduction"
                  ltac:(vm_compute; lia))).
Defined.



End PMCClientFacts.

(** ** Identifier extraction *)

Module HelpersFacts.
Import PyStr Helpers Rules Py BatchProcessor PyStrFacts.

Section WithUnicode.
Context {U : Unicode}.

Lemma pmc_append (x : str) :
  "PMC" +:+ x = String 80 (String 77 (String 67 x)).
Proof. reflexivity. Qed.

Lemma id_here_spec (s : str) :
  id_here s = true <->
  exists d r, s = "PMC" +:+ String d r /\ is_digit d = true.
Proof.
  unfold id_here. rewrite andb_true_iff, startswith_spec. split.
  - intros [[x ->] H]. rewrite pmc_append in H. cbn [drop] in H.
    destruct x as [|d r]; [discriminate|]. eauto.
  - intros (d & r & -> & Hd). split; [eauto|].
    rewrite pmc_append. cbn [drop]. exact Hd.
Qed.

Lemma match_here_id_here (s g : str) :
  match_here s = Some g -> id_here s = true.
Proof.
  unfold match_here, id_here. destruct (startswith "PMC" s); [|discriminate].
  destruct (drop 3 s) as [|c r]; [discriminate|]. cbn [take_digits andb].
  destruct (is_digit c); [reflexivity | discriminate].
Qed.

Lemma take_digits_app (digits rest : str) :
  all_chars is_digit digits = true ->
  match rest with String c _ => is_digit c | EmptyString => false end = false ->
  take_digits (digits +:+ rest) = digits.
Proof.
  intros Hd Hr. induction digits as [|c ds IH].
  - rewrite append_nil_l. destruct rest as [|c r]; [reflexivity|].
    cbn [take_digits]. now rewrite Hr.
  - cbn [all_chars] in Hd. apply andb_true_iff in Hd as [Hc Hds].
    rewrite append_cons. cbn [take_digits]. rewrite Hc. f_equal. now apply IH.
Qed.

Lemma match_here_id (digits rest : str) :
  truthy digits = true ->
  all_chars is_digit digits = true ->
  match rest with String c _ => is_digit c | EmptyString => false end = false ->
  match_here ("PMC" +:+ digits +:+ rest) = Some digits.
Proof.
  intros Hne Hd Hr. unfold match_here.
  replace (startswith "PMC" ("PMC" +:+ digits +:+ rest)) with true
    by (symmetry; apply startswith_spec; eauto).
  rewrite pmc_append. cbn [drop]. rewrite take_digits_app by assumption.
  now rewrite Hne.
Qed.

(** No identifier begins inside [before] once [before] holds none. *)
Lemma id_here_not_straddling (c : char) (before x : str) :
  has_id (String c before) = false ->
  id_here (String c before +:+ "PMC" +:+ x) = false.
Proof.
  intros Hno. destruct (id_here _) eqn:E; [exfalso | reflexivity].
  apply id_here_spec in E as (d & r & E & Hd).
  rewrite !pmc_append, append_cons in E. injection E as -> E.
  destruct before as [|c2 b2].
  { rewrite append_nil_l in E. discriminate. }
  rewrite append_cons in E. injection E as -> E.
  destruct b2 as [|c3 b3].
  { rewrite append_nil_l in E. discriminate. }
  rewrite append_cons in E. injection E as -> E.
  destruct b3 as [|c4 b4].
  { rewrite append_nil_l in E. injection E as <- _.
    rewrite is_digit_ascii in Hd by reflexivity. discriminate. }
  rewrite append_cons in E. injection E as -> E.
  cbn [has_id] in Hno. apply orb_false_iff in Hno as [Hno _].
  assert (id_here (String 80 (String 77 (String 67 (String d b4)))) = true)
    as Hyes by (apply id_here_spec; exists d, b4; split; [reflexivity | exact Hd]).
  congruence.
Qed.

Lemma re_search_skip (before x : str) :
  has_id before = false ->
  re_search (before +:+ "PMC" +:+ x) = re_search ("PMC" +:+ x).
Proof.
  induction before as [|c b IH]; intros Hno; [reflexivity|].
  pose proof (id_here_not_straddling c b x Hno) as Hhere.
  rewrite append_cons in *. cbn [re_search].
  destruct (match_here _) as [g|] eqn:E.
  - apply match_here_id_here in E. congruence.
  - apply IH. cbn [has_id] in Hno. now apply orb_false_iff in Hno as [_ ?].
Qed.

Lemma re_search_none (s : str) :
  has_id s = false -> re_search s = None.
Proof.
  induction s as [|c s IH]; intros Hno; cbn [has_id] in Hno;
    apply orb_false_iff in Hno as [Hhere Hrest]; cbn [re_search].
  - destruct (match_here "") eqn:E; [|reflexivity].
    apply match_here_id_here in E. congruence.
  - destruct (match_here (String c s)) eqn:E.
    + apply match_here_id_here in E. congruence.
    + now apply IH.
Qed.

Lemma re_search_first (before digits rest : str) :
  has_id before = false ->
  truthy digits = true ->
  all_chars is_digit digits = true ->
  match rest with String c _ => is_digit c | EmptyString => false end = false ->
  re_search (before +:+ "PMC" +:+ digits +:+ rest) = Some digits.
Proof.
  intros Hno Hne Hd Hr. rewrite re_search_skip by exact Hno.
  pose proof (match_here_id digits rest Hne Hd Hr) as Hm.
  rewrite pmc_append in *. cbn [re_search]. now rewrite Hm.
Qed.

Lemma digits_split (s : str) :
  exists digits rest,
    s = digits +:+ rest /\
    all_chars is_digit digits = true /\
    match rest with String c _ => is_digit c | EmptyString => false end = false.
Proof.
  induction s as [|c s (ds & rest & -> & Hd & Hr)].
  - exists "", "". repeat split.
  - destruct (is_digit c) eqn:Hc.
    + exists (String c ds), rest. repeat split; [|exact Hr].
      cbn [all_chars]. now rewrite Hc, Hd.
    + exists "", (String c (ds +:+ rest)). repeat split. exact Hc.
Qed.

Lemma id_here_app (b x : str) :
  id_here b = true -> id_here (b +:+ x) = true.
Proof.
  rewrite !id_here_spec. intros (d & r & -> & Hd).
  exists d, (r +:+ x). split; [|exact Hd].
  now rewrite !pmc_append, !append_cons.
Qed.

(** Every string with such a substring splits around its first one. *)
Lemma has_id_decompose (url : str) :
  has_id url = true ->
  exists before digits rest,
    url = before +:+ "PMC" +:+ digits +:+ rest /\
    has_id before = false /\
    truthy digits = true /\
    all_chars is_digit digits = true /\
    match rest with String c _ => is_digit c | EmptyString => false end = false.
Proof.
  induction url as [|c s IH]; intros Hyes; cbn [has_id] in Hyes.
  - discriminate.
  - destruct (id_here (String c s)) eqn:E.
    + apply id_here_spec in E as (d & r & E & Hd).
      destruct (digits_split r) as (ds & rest & -> & Hds & Hr).
      exists "", (String d ds), rest. rewrite E. repeat split; [|exact Hr].
      cbn [all_chars]. now rewrite Hd, Hds.
    + destruct (IH Hyes) as (b & ds & rest & -> & Hb & Hne & Hds & Hr).
      exists (String c b), ds, rest. repeat split; try assumption.
      cbn [has_id]. rewrite Hb, orb_false_r.
      destruct (id_here (String c b)) eqn:E'; [|reflexivity].
      apply (id_here_app _ ("PMC" +:+ ds +:+ rest)) in E'.
      rewrite append_cons in E'. congruence.
Qed.

(** C7. On a string whose first substring made of [PMC] and digits is
    [PMC] followed by the digits [digits] (no such substring lies in
    [before], and [rest] does not go on with a digit), both extractions
    give exactly [PMC] followed by [digits].  On a string without such a
    substring [extract_pmc_id] gives [None] and the batch processor's
    [_extract_pmc_id] raises [ValueError]. *)
Theorem extract_pmc_id_first_occurrence :
  (forall before digits rest : str,
     has_id before = false ->
     truthy digits = true ->
     all_chars is_digit digits = true ->
     match rest with String c _ => is_digit c | EmptyString => false end
       = false ->
     let url := before +:+ "PMC" +:+ digits +:+ rest in
     extract_pmc_id url = Some ("PMC" +:+ digits) /\
     _extract_pmc_id url = Ok ("PMC" +:+ digits)) /\
  (forall url : str,
     has_id url = false ->
     extract_pmc_id url = None /\
     _extract_pmc_id url = Raise (ValueError ("Invalid PMC URL: " +:+ url))).
Proof.
  split.
  - intros before digits rest Hno Hne Hd Hr url. subst url.
    unfold extract_pmc_id, _extract_pmc_id.
    now rewrite re_search_first.
  - intros url Hno. unfold extract_pmc_id, _extract_pmc_id.
    now rewrite re_search_none.
Qed.

End WithUnicode.

#[local] Existing Instance BasicLatin.basic_latin.

Lemma extract_pmc_id_first_occurrence_witness :
  extract_pmc_id "https://pmc.ncbi.nlm.nih.gov/articles/PMC11930778/"
    = Some "PMC11930778" /\
  extract_pmc_id "https://example.com/article" = None.
Proof.
  split.
  - apply (proj1 extract_pmc_id_first_occurrence
             "https://pmc.ncbi.nlm.nih.gov/articles/" "11930778" "/");
      reflexivity.
  - apply (proj2 extract_pmc_id_first_occurrence
             "https://example.com/article"); reflexivity.
Defined.

End HelpersFacts.

(** ** The monad *)

Module PyFacts.
Import Py.

Section Facts.
Context {S : Type}.

Lemma bind_unfold {A B} (m : M S A) (k : A -> M S B) (s : S) :
  (m ≫= k) s =
  match m s with
  | (Ok a, s') => k a s'
  | (Raise e, s') => (Raise e, s')
  end.
Proof. reflexivity. Qed.

Lemma returns_ret {A} (P : A -> Prop) (a : A) :
  P a -> returns P (mret a : M S A).
Proof. intros HP s a' s' E. injection E as <- _. exact HP. Qed.

Lemma returns_raise {A} (P : A -> Prop) (e : exn) :
  returns P (raise e : M S A).
Proof. intros s a s' E. discriminate. Qed.

Lemma returns_bind {A B} (P : B -> Prop) (m : M S A) (k : A -> M S B) :
  (forall a, returns P (k a)) -> returns P (m ≫= k).
Proof.
  intros Hk s b s' E. rewrite bind_unfold in E.
  destruct (m s) as [[a|e] s1]; [|discriminate]. exact (Hk a s1 b s' E).
Qed.

Lemma returns_try_except {A} (P : A -> Prop) (m : M S A)
    (h : exn -> M S A) :
  returns P m -> (forall e, returns P (h e)) -> returns P (try_except m h).
Proof.
  intros Hm Hh s a s' E. unfold try_except in E.
  destruct (m s) as [[a1|e] s1] eqn:Em.
  - injection E as <- <-. exact (Hm s a1 s1 Em).
  - exact (Hh e s1 a s' E).
Qed.

(** [gather] always returns, with one result per task. *)
Lemma gather_results {A} (P : A -> Prop) (tasks : list (M S A)) :
  Forall (returns P) tasks ->
  forall s, exists rs s',
    gather tasks s = (Ok rs, s') /\
    length rs = length tasks /\
    Forall (fun r => match r with Ok a => P a | Raise _ => True end) rs.
Proof.
  induction 1 as [|t ts Ht Hts IH]; intros s.
  - exists [], s. repeat split. constructor.
  - cbn [gather]. destruct (t s) as [r s1] eqn:Et.
    destruct (IH s1) as (rs & s2 & -> & Hlen & Hall).
    exists (r :: rs), s2. repeat split.
    + simpl. now rewrite Hlen.
    + constructor; [|exact Hall].
      destruct r as [a|e]; [exact (Ht s a s1 Et) | exact I].
Qed.
End Facts.

(** The batches cut by [range(0, len(l), step)] cover the list. *)
Lemma slice_length {A} (l : list A) (i step : Z) :
  0 <= i -> 0 < step ->
  len (slice l i (i + step)) = Z.min step (Z.max 0 (len l - i)).
Proof.
  intros Hi Hstep. unfold len, slice.
  rewrite length_take, length_drop. lia.
Qed.

Lemma slices_sum_upto {A} (l : list A) (step : Z) (m : nat) :
  0 < step ->
  fold_right Z.add 0
    (map (fun i => len (slice l i (i + step)))
         (map (fun k => Z.of_nat k * step) (seq 0 m)))
  = Z.min (len l) (Z.of_nat m * step).
Proof.
  intros Hstep. induction m as [|m IH].
  - simpl. unfold len. lia.
  - rewrite seq_S, !map_app, fold_right_app. cbn [map fold_right plus].
    assert (forall (xs : list Z) (z : Z),
               fold_right Z.add z xs = fold_right Z.add 0 xs + z) as Hshift.
    { induction xs as [|x xs IHxs]; intros z; simpl; [lia|].
      rewrite IHxs. lia. }
    rewrite Hshift, IH, slice_length by nia.
    replace (Z.of_nat (Datatypes.S m) * step)
      with (Z.of_nat m * step + step) by lia.
    assert (0 <= Z.of_nat m * step) by nia. unfold len in *. lia.
Qed.

Lemma slices_cover {A} (l : list A) (step : Z) (starts : list Z) :
  0 < step ->
  range0 (len l) step = Ok starts ->
  fold_right Z.add 0 (map (fun i => len (slice l i (i + step))) starts)
  = len l.
Proof.
  intros Hstep Hr. unfold range0 in Hr.
  destruct (Z.eqb_spec step 0); [lia|].
  destruct (Z.ltb_spec step 0); [lia|].
  injection Hr as <-. rewrite slices_sum_upto by exact Hstep.
  assert (0 <= len l) by (unfold len; lia).
  rewrite Z2Nat.id by (apply Z.div_pos; lia).
  pose proof (Z.div_mod (len l + step - 1) step ltac:(lia)) as Hdm.
  pose proof (Z.mod_pos_bound (len l + step - 1) step Hstep) as Hb.
  nia.
Qed.

End PyFacts.

(** ** The batch scheduler *)

Module BatchProcessorFacts.
Import PyStr PMCClient Py World AIClient BatchProcessor Rules PyFacts.

Section WithEnv.
Context {U : Unicode} {float : Type} (env : Env float).

(** What [process_single_article] returns says [success] or
    [skipped]. *)
Lemma process_single_article_status (pmc_url : str) :
  returns (fun a => res_status a = "success" \/ res_status a = "skipped")
          (process_single_article env pmc_url).
Proof.
  unfold process_single_article.
  apply returns_bind; intros pmc_id. apply returns_try_except.
  - unfold process_single_article_try.
    apply returns_bind; intros _. apply returns_bind; intros article_data.
    destruct (negb _).
    + apply returns_bind; intros _. apply returns_ret. now right.
    + repeat (apply returns_bind; intros ?). apply returns_ret. now left.
  - intros e. apply returns_bind; intros _. apply returns_bind; intros _.
    apply returns_raise.
Qed.

Lemma count_result_counts (r : result ArticleResult) (p : Processor) :
  status_counted r ->
  exists p',
    count_result r p = (Ok tt, p') /\
    counted (stats p') = counted (stats p) + 1 /\
    total (stats p') = total (stats p).
Proof.
  intros Hr. destruct r as [a|e]; cbn [count_result status_counted] in *.
  - destruct Hr as [-> | ->]; cbn [str_eqb N.eqb Pos.eqb andb];
      eexists; (split; [reflexivity|]); unfold counted; simpl; lia.
  - eexists; (split; [reflexivity|]); unfold counted; simpl; lia.
Qed.

Lemma count_results_counts (rs : list (result ArticleResult))
    (p : Processor) :
  Forall status_counted rs ->
  exists p',
    for_each rs count_result p = (Ok tt, p') /\
    counted (stats p') = counted (stats p) + len rs /\
    total (stats p') = total (stats p).
Proof.
  intros Hall. revert p. induction Hall as [|r rs Hr Hrs IH]; intros p.
  - exists p. unfold len. simpl. repeat split; lia.
  - destruct (count_result_counts r p Hr) as (p1 & E1 & Hc1 & Ht1).
    destruct (IH p1) as (p2 & E2 & Hc2 & Ht2).
    exists p2. unfold for_each in *. cbn [for_fold].
    rewrite bind_unfold, E1. split; [exact E2|].
    unfold len in *. cbn [length]. lia.
Qed.

Lemma process_batch_counts (urls : list str) (batch_size i : Z)
    (p : Processor) :
  exists r p',
    process_batch env urls batch_size i p = (r, p') /\
    counted (stats p') =
      counted (stats p) + len (slice urls i (i + batch_size)) /\
    total (stats p') = total (stats p).
Proof.
  unfold process_batch. cbv zeta. rewrite bind_unfold.
  destruct (gather_results
              (fun a => res_status a = "success" \/ res_status a = "skipped")
              (map (process_single_article env)
                   (slice urls i (i + batch_size)))
              ltac:(apply Forall_map, Forall_forall; intros;
                    apply process_single_article_status)
              (world p)) as (rs & w1 & Eg & Hlen & Hall).
  unfold lift_world at 1. rewrite Eg.
  destruct (count_results_counts rs (mkProcessor (stats p) w1) Hall)
    as (p1 & E1 & Hc1 & Ht1).
  rewrite bind_unfold, E1. unfold lift_world, modify.
  eexists _, _. split; [reflexivity|]. cbn [stats] in *.
  rewrite length_map in Hlen. unfold len in *. split; lia.
Qed.

Lemma batches_count (urls : list str) (batch_size : Z)
    (starts : list Z) (p p' : Processor) :
  for_each starts (process_batch env urls batch_size) p = (Ok tt, p') ->
  counted (stats p') =
    counted (stats p) +
    fold_right Z.add 0
      (map (fun i => len (slice urls i (i + batch_size))) starts) /\
  total (stats p') = total (stats p).
Proof.
  revert p. induction starts as [|i starts IH]; intros p E.
  - injection E as <-. simpl. split; lia.
  - unfold for_each in *. cbn [for_fold] in E. rewrite bind_unfold in E.
    destruct (process_batch_counts urls batch_size i p)
      as (r & p1 & E1 & Hc1 & Ht1).
    rewrite E1 in E. destruct r as [[]|e]; [|discriminate].
    destruct (IH p1 E) as [Hc Ht]. cbn [map fold_right]. split; lia.
Qed.

Lemma keep_unprocessed_counts (processed_ids : gset str)
    (urls acc acc' : list str) (p p' : Processor) :
  for_fold urls acc (keep_unprocessed processed_ids) p = (Ok acc', p') ->
  counted (stats p') + len acc' = counted (stats p) + len acc + len urls /\
  total (stats p') = total (stats p).
Proof.
  revert acc p. induction urls as [|url urls IH]; intros acc p E.
  - injection E as <- <-. unfold len. simpl. split; lia.
  - cbn [for_fold] in E. rewrite bind_unfold in E.
    unfold keep_unprocessed at 1 in E. rewrite bind_unfold in E.
    unfold lift_result at 1 in E.
    destruct (_extract_pmc_id url) as [pmc_id|e]; [|discriminate].
    destruct (bool_decide (pmc_id ∉ processed_ids)).
    + destruct (IH _ _ E) as [Hc Ht]. unfold len in *.
      rewrite length_app in Hc. cbn [length] in *. split; lia.
    + destruct (IH _ _ E) as [Hc Ht]. unfold len, counted in *.
      cbn [length stats success errors skipped total] in *. split; lia.
Qed.

(** C2, under the conditions that make it hold.  When
    [process_all_articles] is entered with the counters [success],
    [errors] and [skipped] at zero (as [__init__] leaves them), with a
    positive batch size, and returns, the statistics satisfy
    [success + errors + skipped = total], and [total] is the number of
    URLs supplied, whatever the outcomes of the identifiers were. *)
Theorem process_all_articles_accounts
    (pmc_urls : list str) (batch_size : Z) (p p' : Processor) :
  0 < batch_size ->
  success (stats p) = 0 -> errors (stats p) = 0 -> skipped (stats p) = 0 ->
  process_all_articles env pmc_urls batch_size p = (Ok tt, p') ->
  success (stats p') + errors (stats p') + skipped (stats p')
    = total (stats p') /\
  total (stats p') = len pmc_urls.
Proof.
  intros Hbs Hs0 He0 Hk0 E. unfold process_all_articles in E.
  rewrite bind_unfold in E. unfold with_stats at 1, modify at 1 in E.
  rewrite bind_unfold in E. unfold lift_world at 1 in E.
  destruct (_get_processed_ids env _) as [[processed_ids|e] w1];
    [|discriminate].
  rewrite bind_unfold in E.
  destruct (for_fold pmc_urls [] _ _) as [[urls_to_process|e] p1] eqn:E1;
    [|discriminate].
  apply keep_unprocessed_counts in E1 as [Hc1 Ht1].
  rewrite bind_unfold in E. unfold lift_result at 1 in E.
  destruct (range0 _ _) as [starts|e] eqn:Er; [|discriminate].
  apply batches_count in E as [Hc Ht].
  rewrite (slices_cover _ _ _ Hbs Er) in Hc.
  unfold counted, len in *.
  cbn [stats success errors skipped total length] in *. lia.
Qed.

End WithEnv.

#[local] Existing Instance BasicLatin.basic_latin.

Lemma process_all_articles_accounts_witness :
  let env := Scenarios.degraded_env Scenarios.plain_article in
  let p' := snd (process_all_articles env [Scenarios.url1] 10
                                      Scenarios.fresh_processor) in
  success (stats p') + errors (stats p') + skipped (stats p')
    = total (stats p') /\
  total (stats p') = len [Scenarios.url1].
Proof.
  intros env p'.
  apply (process_all_articles_accounts env [Scenarios.url1] 10
           Scenarios.fresh_processor p');
    [lia | reflexivity | reflexivity | reflexivity
    | vm_compute; reflexivity].
Defined.

(** C2, as stated, fails: with a negative batch size no batch is formed,
    the run returns and one identifier is unaccounted for; and on a
    second run of the same processor the counters go on from the first
    run while [total] starts again. *)
Lemma process_all_articles_counterexample :
  let env := Scenarios.degraded_env Scenarios.blank_article in
  let run1 := process_all_articles env [Scenarios.url1] (-1)
                                   Scenarios.fresh_processor in
  let run2 := process_all_articles env [Scenarios.url1] 10
                                   Scenarios.fresh_processor in
  let run3 := process_all_articles env [Scenarios.url1] 10 (snd run2) in
  (fst run1 = Ok tt /\ stats (snd run1) = mkStats 1 0 0 0 /\
   counted (stats (snd run1)) <> total (stats (snd run1))) /\
  (fst run3 = Ok tt /\ stats (snd run3) = mkStats 1 0 0 2 /\
   counted (stats (snd run3)) <> total (stats (snd run3))).
Proof. vm_compute. repeat split; discriminate. Qed.

End BatchProcessorFacts.

(** ** Enrichment, embeddings and the stores *)

Module PipelineFacts.
Import PyStr PMCClient Py World AIClient BatchProcessor PyFacts.

Section WithEnv.
Context {U : Unicode} {float : Type} (env : Env float).

(** The function under the decorator never raises. *)
Lemma extract_structured_info_once_ok (article_data : Article)
    (w : World.t) :
  exists enriched_data,
    extract_structured_info_once env article_data w =
    (Ok enriched_data, log (EvModelCall (build_prompt article_data)) w).
Proof.
  unfold extract_structured_info_once, try_except, call.
  rewrite bind_unfold.
  destruct (chat_completion env w _) as [[text|]|e]; cbn [raise].
  - destruct (json_loads env _); cbn; eauto.
  - destruct (is_instance _ _); cbn; eauto.
  - destruct (is_instance _ _); cbn; eauto.
Qed.

(** C3, on the code.  When the model call fails, or its answer has no
    content or is not valid JSON, [extract_structured_info] returns
    exactly the default structure and does not raise; it does so after
    a single model call: the failure is handled inside the decorated
    function, so the retry wrapper never makes a second attempt. *)
Theorem extract_structured_info_fallback_single_call
    (article_data : Article) (w : World.t) :
  match chat_completion env w (build_prompt article_data) with
  | Raise _ => True
  | Ok None => True
  | Ok (Some text) => json_loads env (strip_code_fences text) = None
  end ->
  extract_structured_info env article_data w =
  (Ok (JObject [("hypothesis", JString "Not extracted");
                ("organisms", JArray []);
                ("space_conditions", JArray []);
                ("key_findings", JArray []);
                ("implications", JString "Not extracted");
                ("knowledge_gaps", JArray []);
                ("entities", JArray [])]),
   log (EvModelCall (build_prompt article_data)) w).
Proof.
  intros Hfail.
  unfold extract_structured_info, retry, extract_structured_info_once,
    try_except, call.
  rewrite bind_unfold.
  destruct (chat_completion env w _) as [[text|]|e]; cbn [raise].
  - rewrite Hfail. reflexivity.
  - destruct (is_instance _ _); reflexivity.
  - destruct (is_instance _ _); reflexivity.
Qed.

(** [extract_structured_info] never raises and calls the model once,
    whatever the model answers. *)
Lemma extract_structured_info_one_attempt (article_data : Article)
    (w : World.t) :
  exists enriched_data,
    extract_structured_info env article_data w =
    (Ok enriched_data, log (EvModelCall (build_prompt article_data)) w).
Proof.
  destruct (extract_structured_info_once_ok article_data w) as [d E].
  exists d. unfold extract_structured_info, retry, try_except.
  now rewrite E.
Qed.

(** C4, on the code.  When [encode] fails on the texts and the two
    probes that follow return arrays, [generate_embeddings] returns one
    zero vector per text, and the length of each vector is the number
    of rows of the probe's answer (one row for the single probe text),
    not the length of a row. *)
Theorem generate_embeddings_fallback_length
    (texts : list str) (w : World.t) (e : exn)
    (rows rows' : list (list float)) :
  let w1 := log (EvEncode texts) w in
  let w2 := log (EvEncode ["test"]) w1 in
  encode env w texts = Raise e ->
  encode env w1 ["test"] = Ok (NdArray rows) ->
  encode env w2 ["test"] = Ok (NdArray rows') ->
  fst (generate_embeddings env texts w) =
  Ok (map (fun _ => repeat (float_zero env) (length rows')) texts).
Proof.
  intros w1 w2 E0 E1 E2.
  unfold generate_embeddings, retry, generate_embeddings_once, try_except,
    call_encode, call.
  rewrite bind_unfold, E0. rewrite bind_unfold. fold w1. rewrite E1.
  cbn [has_len]. rewrite !bind_unfold. fold w2. rewrite E2.
  reflexivity.
Qed.

(** When [encode] always fails, the probe fails too, nothing is
    defaulted to 384 and the exception of the third attempt leaves
    [generate_embeddings] as [RetryError]. *)
Lemma generate_embeddings_probe_failure (texts : list str)
    (w : World.t) :
  (forall w' t, exists e, encode env w' t = Raise e) ->
  fst (generate_embeddings env texts w) = Raise RetryError.
Proof.
  intros Hfail.
  assert (forall w0, exists e,
             generate_embeddings_once env texts w0 =
             (Raise e, log (EvEncode ["test"]) (log (EvEncode texts) w0)))
    as Honce.
  { intros w0. unfold generate_embeddings_once, try_except, call_encode, call.
    rewrite bind_unfold. destruct (Hfail w0 texts) as [e0 ->].
    rewrite bind_unfold.
    destruct (Hfail (log (EvEncode texts) w0) ["test"]) as [e1 ->].
    eauto. }
  unfold generate_embeddings, retry, try_except.
  destruct (Honce w) as [e1 ->]. rewrite bind_unfold.
  unfold backoff at 1, modify at 1.
  destruct (Honce (log EvSleep (log (EvEncode ["test"])
                                    (log (EvEncode texts) w)))) as [e2 ->].
  rewrite bind_unfold. unfold backoff at 1, modify at 1.
  match goal with |- context [generate_embeddings_once env texts ?w0] =>
    destruct (Honce w0) as [e3 ->] end.
  reflexivity.
Qed.

(** C8. When a row with the identifier exists, a successful
    [_store_in_postgres] leaves a row for it in which the title, the
    abstract and the full text are those of the article at hand and
    [updated_at] is set, while every other column, the enrichment
    columns among them, is the one of the existing row; the rows of
    the other identifiers are untouched. *)
Theorem store_in_postgres_conflict_frame
    (pmc_id : str) (article_data : Article) (enriched_data : JSON)
    (w w' : World.t) (row : PubRow) :
  publications w !! pmc_id = Some row ->
  _store_in_postgres env pmc_id article_data enriched_data w = (Ok tt, w') ->
  exists row',
    publications w' !! pmc_id = Some row' /\
    (col_title row' = md_title (metadata article_data) /\
     col_abstract row' = md_abstract (metadata article_data) /\
     col_full_text row' = full_text article_data /\
     is_Some (col_updated_at row')) /\
    (col_hypothesis row' = col_hypothesis row /\
     col_key_findings row' = col_key_findings row /\
     col_organisms_studied row' = col_organisms_studied row /\
     col_space_conditions row' = col_space_conditions row) /\
    (col_pmid row' = col_pmid row /\
     col_doi row' = col_doi row /\
     col_journal row' = col_journal row /\
     col_publication_date row' = col_publication_date row /\
     col_authors row' = col_authors row /\
     col_keywords row' = col_keywords row /\
     col_created_at row' = col_created_at row) /\
    (forall other, other <> pmc_id ->
       publications w' !! other = publications w !! other).
Proof.
  intros Hrow E. unfold _store_in_postgres in E.
  rewrite bind_unfold in E. unfold pg_acquire, write in E.
  destruct (pg_fault env w); [discriminate|].
  destruct enriched_data; try discriminate E.
  cbn [json_get_opt json_get] in E. unfold lift_result in E.
  rewrite !bind_unfold in E. unfold pg_execute, write in E.
  destruct (pg_fault env _); [discriminate|].
  injection E as <-. cbn [publications log with_publications id].
  unfold upsert_publication. rewrite Hrow.
  eexists. split; [apply lookup_insert_eq|].
  cbn. repeat split; eauto.
  intros other Hne. now rewrite lookup_insert_ne.
Qed.

(** C9, on the code.  For an article without a section of non-blank
    text, with a relational store that answers,
    [process_single_article] returns the skipped result after the two
    status calls and the fetch, without a call to the model, to the
    embedding model or to a sink; the publications are untouched; the
    status row still says [processing], since
    [_update_processing_status] has no branch for
    [skipped_no_sections]. *)
Theorem process_single_article_blank_sections
    (pmc_url pmc_id : str) (article_data : Article) (w : World.t) :
  _extract_pmc_id pmc_url = Ok pmc_id ->
  (forall w', pg_fault env w' = None) ->
  (forall w', fetch_article env w' pmc_id = Ok article_data) ->
  length (sections article_data) = 0%nat \/
    any_nonblank (sections article_data) = false ->
  exists w',
    process_single_article env pmc_url w =
      (Ok (mkArticleResult pmc_id "skipped" (Some "no_sections") None), w') /\
    trace w' = trace w ++ [EvPgAcquire;
                           EvPgQuery "upsert processing_status";
                           EvFetch pmc_id;
                           EvPgAcquire] /\
    publications w' = publications w /\
    exists row, processing_status w' !! pmc_id = Some row /\
                st_status row = "processing".
Proof.
  intros Hid Hpg Hfetch Hblank.
  unfold process_single_article. rewrite bind_unfold, Hid.
  unfold lift_result at 1, try_except, process_single_article_try.
  rewrite bind_unfold. unfold _update_processing_status at 1.
  rewrite bind_unfold. unfold pg_acquire at 1, write at 1. rewrite Hpg.
  cbn [str_eqb N.eqb Pos.eqb andb]. unfold pg_execute at 1, write at 1.
  rewrite Hpg. rewrite bind_unfold. unfold call at 1. rewrite Hfetch.
  assert (negb (negb (length (sections article_data) =? 0)%nat
                && any_nonblank (sections article_data)) = true) as ->.
  { destruct Hblank as [-> | ->]; [reflexivity|].
    now rewrite andb_false_r. }
  rewrite bind_unfold. unfold _update_processing_status at 1.
  rewrite bind_unfold. unfold pg_acquire at 1, write at 1. rewrite Hpg.
  cbn [str_eqb N.eqb Pos.eqb andb].
  eexists. split; [reflexivity|].
  cbn [trace publications processing_status log with_status id
       upsert_processing].
  split; [now rewrite <- !app_assoc|]. split; [reflexivity|].
  destruct (processing_status w !! pmc_id); eexists;
    (split; [apply lookup_insert_eq | reflexivity]).
Qed.

End WithEnv.

Import Scenarios.

#[local] Existing Instance BasicLatin.basic_latin.

Lemma extract_structured_info_fallback_single_call_witness :
  let env := degraded_env plain_article in
  let article_data := plain_article "PMC11930778" in
  extract_structured_info env article_data empty_world =
  (Ok (_get_default_enriched_data),
   log (EvModelCall (build_prompt article_data)) empty_world).
Proof.
  intros env article_data.
  apply (extract_structured_info_fallback_single_call env article_data
           empty_world).
  exact I.
Defined.

(** With the model service down, an article with text is still stored
    and marked [completed]. *)
Example enrichment_failure_still_completed :
  let run := process_all_articles (degraded_env plain_article) [url1] 10
                                  fresh_processor in
  fst run = Ok tt /\
  stats (snd run) = mkStats 1 1 0 0 /\
  st_status <$> processing_status (world (snd run)) !! "PMC11930778"
    = Some "completed".
Proof. vm_compute. repeat split. Qed.

Lemma generate_embeddings_fallback_length_witness :
  fst (generate_embeddings (degraded_env plain_article) ["text"] empty_world)
  = Ok [[0]].
Proof.
  exact (generate_embeddings_fallback_length
           (degraded_env plain_article) ["text"] empty_world
           (mkExn "RuntimeError" "encode failed")
           [repeat 1 384%nat] [repeat 1 384%nat]
           eq_refl eq_refl eq_refl).
Defined.

Example generate_embeddings_raises :
  fst (generate_embeddings (no_embedding_env plain_article) ["text"]
                           empty_world)
  = Raise RetryError.
Proof.
  apply generate_embeddings_probe_failure. intros w' t. eexists. reflexivity.
Qed.

Lemma store_in_postgres_conflict_frame_witness :
  let env := degraded_env plain_article in
  let w' := snd (_store_in_postgres env "PMC11930778"
                   (plain_article "PMC11930778")
                   (_get_default_enriched_data) world_with_row) in
  exists row',
    publications w' !! "PMC11930778" = Some row' /\
    col_title row' = Some "Title" /\
    col_hypothesis row' = Some (JString "Old hypothesis") /\
    col_journal row' = Some "Old journal".
Proof.
  intros env w'.
  destruct (store_in_postgres_conflict_frame env "PMC11930778"
              (plain_article "PMC11930778") (_get_default_enriched_data)
              world_with_row w' old_row eq_refl
              ltac:(vm_compute; reflexivity))
    as (row' & Hrow & (Ht & _) & (Hh & _) & (_ & _ & Hj & _) & _).
  exists row'. repeat split; assumption.
Defined.

Lemma process_single_article_blank_sections_witness :
  exists w',
    process_single_article (degraded_env blank_article) url1 empty_world =
      (Ok (mkArticleResult "PMC11930778" "skipped" (Some "no_sections") None),
       w') /\
    trace w' = trace empty_world ++
               [EvPgAcquire; EvPgQuery "upsert processing_status";
                EvFetch "PMC11930778"; EvPgAcquire] /\
    publications w' = publications empty_world /\
    exists row, processing_status w' !! "PMC11930778" = Some row /\
                st_status row = "processing".
Proof.
  apply (process_single_article_blank_sections (degraded_env blank_article)
           url1 "PMC11930778" (blank_article "PMC11930778") empty_world).
  - reflexivity.
  - intros w'. reflexivity.
  - intros w'. reflexivity.
  - right. reflexivity.
Defined.

(** The run of the scenario: one identifier, a document with a blank
    section only. *)
Example blank_article_run :
  let run := process_all_articles (degraded_env blank_article) [url1] 10
                                  fresh_processor in
  fst run = Ok tt /\
  stats (snd run) = mkStats 1 0 0 1 /\
  st_status <$> processing_status (world (snd run)) !! "PMC11930778"
    = Some "processing" /\
  trace (world (snd run)) =
    [EvPgAcquire; EvPgQuery "select completed";
     EvPgAcquire; EvPgQuery "upsert processing_status";
     EvFetch "PMC11930778"; EvPgAcquire; EvSleep].
Proof. vm_compute. repeat split. Qed.

End PipelineFacts.

(** ** More on strings *)

Module TextFacts.
Import PyStr PyStrFacts Frames.

Section WithUnicode.
Context {U : Unicode}.

Lemma map_chars_compose (f g : char -> char) (s : str) :
  map_chars f (map_chars g s) = map_chars (fun c => f (g c)) s.
Proof. induction s as [|c s IH]; simpl; [reflexivity | now rewrite IH]. Qed.

Lemma map_chars_ext (f g : char -> char) (s : str) :
  (forall c, f c = g c) -> map_chars f s = map_chars g s.
Proof.
  intros H. induction s as [|c s IH]; simpl; [reflexivity | now rewrite H, IH].
Qed.

Lemma replace_idem (s : str) :
  replace_char space underscore (replace_char space underscore s)
  = replace_char space underscore s.
Proof.
  unfold replace_char. rewrite map_chars_compose. apply map_chars_ext.
  intros c. destruct (N.eqb c space) eqn:E; [reflexivity | now rewrite E].
Qed.

Lemma startswith_replace (needle s : str) :
  plain_needle needle = true ->
  startswith needle (replace_char space underscore s) = startswith needle s.
Proof.
  unfold startswith, replace_char, plain_needle. revert s.
  induction needle as [|a needle IH]; intros s Hp.
  - destruct s; reflexivity.
  - cbn [all_chars] in Hp. apply andb_true_iff in Hp as [Ha Hp].
    apply andb_true_iff in Ha as [Ha1 Ha2].
    apply negb_true_iff in Ha1, Ha2.
    destruct s as [|b s]; [reflexivity|]. cbn [map_chars prefix].
    rewrite IH by exact Hp. f_equal.
    destruct (N.eqb_spec b space) as [->|Hb]; [|reflexivity].
    now rewrite Ha1, Ha2.
Qed.

Lemma contains_replace (needle s : str) :
  plain_needle needle = true ->
  contains needle (replace_char space underscore s) = contains needle s.
Proof.
  intros Hp. induction s as [|c s IH].
  - reflexivity.
  - change (replace_char space underscore (String c s))
      with (String (if N.eqb c space then underscore else c)
                   (replace_char space underscore s)).
    cbn [contains]. rewrite IH.
    change (String (if N.eqb c space then underscore else c)
                   (replace_char space underscore s))
      with (replace_char space underscore (String c s)).
    now rewrite startswith_replace.
Qed.

(** *** Stripping *)

Lemma lstrip_fixed (c : char) (s : str) :
  is_space c = false -> lstrip (String c s) = String c s.
Proof. intros H. cbn [lstrip]. now rewrite H. Qed.

Lemma lstrip_head (s : str) :
  match lstrip s with
  | EmptyString => True
  | String c _ => is_space c = false
  end.
Proof.
  induction s as [|c s IH]; cbn [lstrip]; [exact I|].
  destruct (is_space c) eqn:E; [exact IH | exact E].
Qed.

Lemma rstrip_cons_truthy (c : char) (s : str) :
  truthy (rstrip s) = true -> rstrip (String c s) = String c (rstrip s).
Proof. intros H. cbn [rstrip]. rewrite H. now rewrite andb_false_r. Qed.

Lemma rstrip_cons_nonspace (c : char) (s : str) :
  is_space c = false -> rstrip (String c s) = String c (rstrip s).
Proof. intros H. cbn [rstrip]. now rewrite H. Qed.

Lemma rstrip_idem (s : str) : rstrip (rstrip s) = rstrip s.
Proof.
  induction s as [|c s IH]; [reflexivity|]. cbn [rstrip].
  destruct (is_space c && negb (truthy (rstrip s))) eqn:E; [reflexivity|].
  cbn [rstrip]. now rewrite IH, E.
Qed.

Lemma rstrip_head (s : str) :
  match s with
  | EmptyString => True
  | String c _ => is_space c = false -> exists r, rstrip s = String c r
  end.
Proof.
  destruct s as [|c s]; [exact I|]. intros H.
  rewrite rstrip_cons_nonspace by exact H. eauto.
Qed.

Lemma strip_stripped (s : str) : stripped (strip s).
Proof.
  unfold stripped, strip. split; [|apply rstrip_idem].
  pose proof (lstrip_head s) as Hh.
  destruct (lstrip s) as [|c t]; [reflexivity|].
  rewrite rstrip_cons_nonspace by exact Hh. now apply lstrip_fixed.
Qed.

Lemma strip_fixed (s : str) : stripped s -> strip s = s.
Proof. intros [Hl Hr]. unfold strip. now rewrite Hl, Hr. Qed.

Lemma strip_idem (s : str) : strip (strip s) = strip s.
Proof. apply strip_fixed, strip_stripped. Qed.

Lemma lstrip_app (a b : str) :
  truthy a = true -> lstrip a = a -> lstrip (a +:+ b) = a +:+ b.
Proof.
  intros Ht Hl. destruct a as [|c a]; [discriminate|].
  pose proof (lstrip_head (String c a)) as Hh. rewrite Hl in Hh.
  rewrite append_cons. now apply lstrip_fixed.
Qed.

Lemma truthy_app_r (a b : str) : truthy b = true -> truthy (a +:+ b) = true.
Proof.
  intros H. destruct a; [exact H | reflexivity].
Qed.

Lemma rstrip_app (a b : str) :
  truthy (rstrip b) = true -> rstrip (a +:+ b) = a +:+ rstrip b.
Proof.
  intros H. induction a as [|c a IH]; [reflexivity|].
  rewrite !append_cons, rstrip_cons_truthy; rewrite IH;
    [reflexivity | now apply truthy_app_r].
Qed.

(** Joining stripped, non-empty parts by any separator gives a stripped
    string. *)
Lemma join_stripped (sep : str) (parts : list str) :
  Forall (fun p => truthy p = true /\ stripped p) parts ->
  stripped (join sep parts) /\
  (parts <> [] -> truthy (join sep parts) = true).
Proof.
  induction 1 as [|p parts [Hp [Hl Hr]] Hall [IHs IHt]].
  - split; [split; reflexivity | congruence].
  - destruct parts as [|q parts].
    + unfold join. cbn [str_concat]. repeat split; auto.
    + rewrite join_cons2.
      specialize (IHt ltac:(discriminate)). destruct IHs as [IHl IHr].
      assert (truthy (rstrip (sep +:+ join sep (q :: parts))) = true) as Ht.
      { rewrite rstrip_app by now rewrite IHr. apply truthy_app_r.
        now rewrite IHr. }
      split; [split|].
      * now apply lstrip_app.
      * rewrite rstrip_app by exact Ht.
        rewrite rstrip_app by now rewrite IHr. now rewrite IHr.
      * intros _. destruct p; [discriminate | reflexivity].
Qed.

End WithUnicode.

End TextFacts.

(** ** More on the parser *)

Module ParserMoreFacts.
Import PyStr PMCClient Rules Frames PMCFetch PyStrFacts PyDictFacts TextFacts
       PMCClientFacts.

Section WithUnicode.
Context {U : Unicode}.

Lemma normalize_canonical (k : str) :
  In k ["introduction"; "methods"; "results"; "discussion"; "conclusion"] ->
  _normalize_section_title k = k.
Proof.
  intros Hk. unfold _normalize_section_title.
  repeat (destruct Hk as [<- | Hk];
          [rewrite lower_ascii by reflexivity; reflexivity|]).
  destruct Hk.
Qed.

(** X1. Normalizing a section key again gives the same key: the five
    canonical keys are fixed, and a slug stays as it is. *)
Theorem normalize_section_title_idempotent (title : str) :
  _normalize_section_title (_normalize_section_title title)
  = _normalize_section_title title.
Proof.
  assert (In (_normalize_section_title title)
             ["introduction"; "methods"; "results"; "discussion";
              "conclusion"] \/
          (_normalize_section_title title
             = replace_char space underscore (lower title) /\
           contains "introduction" (lower title)
             || contains "background" (lower title) = false /\
           contains "method" (lower title)
             || contains "material" (lower title) = false /\
           contains "result" (lower title) = false /\
           contains "discussion" (lower title) = false /\
           contains "conclusion" (lower title) = false)) as Hcases.
  { unfold _normalize_section_title.
    destruct (contains "introduction" (lower title) ||
              contains "background" (lower title)); [left; simpl; tauto|].
    destruct (contains "method" (lower title) ||
              contains "material" (lower title)); [left; simpl; tauto|].
    destruct (contains "result" (lower title)); [left; simpl; tauto|].
    destruct (contains "discussion" (lower title)); [left; simpl; tauto|].
    destruct (contains "conclusion" (lower title)); [left; simpl; tauto|].
    right. tauto. }
  destruct Hcases as [Hk | H]; [now apply normalize_canonical|].
  destruct H as (-> & E1 & E2 & E3 & E4 & E5).
  unfold _normalize_section_title.
  rewrite lower_replace, lower_lower, replace_idem.
  rewrite !contains_replace by reflexivity.
  now rewrite E1, E2, E3, E4, E5.
Qed.

Lemma in_list_In (k : str) (l : list str) :
  in_list k l = true <-> In k l.
Proof.
  unfold in_list. rewrite existsb_exists. split.
  - intros (x & Hx & E). apply str_eqb_eq in E. now subst.
  - intros H. exists k. split; [exact H | apply str_eqb_refl].
Qed.

Lemma parse_secs_keys (secs : list ET.Element) (sections : PyDict.t str) :
  PyDict.keys (fold_left parse_sec secs sections) =
  PyDict.keys sections ++
  first_occurrences (PyDict.keys sections) (omap title_key secs).
Proof.
  revert sections. induction secs as [|sec secs IH]; intros d.
  - simpl. now rewrite app_nil_r.
  - cbn [fold_left]. rewrite IH, parse_sec_keyed.
    change (omap title_key (sec :: secs))
      with (match title_key sec with
            | Some k => k :: omap title_key secs
            | None => omap title_key secs
            end).
    destruct (title_key sec) as [key|]; [|reflexivity].
    cbn [first_occurrences].
    destruct (in_list key (PyDict.keys d)) eqn:Ein.
    + apply in_list_In in Ein.
      destruct (PyDict.get key d) eqn:G.
      * now rewrite keys_set_present.
      * apply get_in_keys in Ein. congruence.
    + assert (~ In key (PyDict.keys d)) as Hnin.
      { intros Hin. apply in_list_In in Hin. congruence. }
      destruct (PyDict.get key d) eqn:G.
      * exfalso. apply Hnin, get_in_keys. congruence.
      * rewrite keys_set_absent by exact Hnin. now rewrite <- app_assoc.
Qed.

(** X2. The keys of the parsed sections, in insertion order, are the keys
    that the titles of the body's sections normalize to, each at its first
    occurrence in encounter order. *)
Theorem parse_body_sections_keys (body : ET.Element) :
  PyDict.keys (_parse_body_sections body)
  = first_occurrences [] (title_keys body).
Proof. unfold _parse_body_sections, title_keys. now rewrite parse_secs_keys. Qed.

Lemma join_truthy (sep : str) (parts : list str) :
  Forall (fun p => truthy p = true) parts ->
  parts <> [] -> truthy (join sep parts) = true.
Proof.
  intros Hall Hne. destruct parts as [|p parts]; [congruence|].
  apply Forall_cons in Hall as [Hp _].
  destruct parts as [|q parts]; [exact Hp|].
  rewrite join_cons2. destruct p; [discriminate | reflexivity].
Qed.

Lemma header_truthy (key text : str) : truthy (header key text) = true.
Proof.
  unfold header. apply truthy_app_r. reflexivity.
Qed.

Lemma flat_map_nonempty {A B} (f : A -> list B) (l : list A) (x : A) :
  In x l -> f x <> [] -> flat_map f l <> [].
Proof.
  induction l as [|y l IH]; simpl; [tauto|].
  intros [->|Hin] Hne E; apply app_eq_nil in E as [E1 E2]; [tauto|].
  now apply IH.
Qed.

Lemma Forall_flat_map_all {A B} (P : B -> Prop) (f : A -> list B)
    (l : list A) :
  (forall x, Forall P (f x)) -> Forall P (flat_map f l).
Proof.
  intros H. induction l as [|x l IH]; simpl; [constructor|].
  apply Forall_app_2; [apply H | exact IH].
Qed.

Lemma Forall_map_all {A B} (P : B -> Prop) (f : A -> B) (l : list A) :
  (forall x, P (f x)) -> Forall P (map f l).
Proof.
  intros H. induction l as [|x l IH]; simpl; constructor; auto.
Qed.

(** X3. The full text is empty exactly when the abstract is missing or
    empty and there is no section at all; a section with an empty text
    still contributes its header. *)
Theorem extract_full_text_empty_iff (abstract : option str)
    (sections : PyDict.t str) :
  extract_full_text_of abstract sections = "" <->
  (abstract = None \/ abstract = Some "") /\ sections = [].
Proof.
  rewrite extract_full_text_of_rule. unfold full_text_rule. split.
  - intros E.
    match type of E with str_concat _ ?parts = _ =>
      assert (parts = []) as Hparts end.
    { match goal with |- ?parts = [] =>
        destruct (list_eq_nil_dec parts) as [Hnil|Hne]; [exact Hnil|] end.
      exfalso.
      match type of E with str_concat ?sep ?parts = _ =>
        assert (truthy (join sep parts) = true) as Ht end.
      { apply join_truthy; [|exact Hne].
        apply Forall_app_2; [|apply Forall_app_2].
        - destruct abstract as [a|]; [|constructor].
          destruct (truthy a); repeat constructor.
        - apply Forall_flat_map_all. intros name.
          destruct (PyDict.get name sections); repeat constructor.
          apply header_truthy.
        - apply Forall_map_all. intros kv. apply header_truthy. }
      unfold join in Ht. rewrite E in Ht. discriminate. }
    apply app_eq_nil in Hparts as [Ha Hrest].
    apply app_eq_nil in Hrest as [Hc Hr]. split.
    + destruct abstract as [[|c a]|]; auto. discriminate.
    + destruct sections as [|[k v] d]; [reflexivity|]. exfalso.
      destruct (existsb (str_eqb k) canonical) eqn:Ein.
      * apply (in_list_In k canonical) in Ein.
        revert Hc. apply (flat_map_nonempty _ _ k Ein).
        cbn [PyDict.get]. now rewrite str_eqb_refl.
      * cbn [PyDict.items List.filter fst] in Hr. rewrite Ein in Hr.
        discriminate.
  - intros [Ha ->]. destruct Ha as [-> | ->]; reflexivity.
Qed.

Lemma get_element_text_parts (l : list str) (acc : list str) :
  Forall (fun p => truthy p = true /\ stripped p) acc ->
  Forall (fun p => truthy p = true /\ stripped p)
    (fold_left
       (fun text_parts text =>
          let clean_text := strip text in
          if truthy clean_text then text_parts ++ [clean_text] else text_parts)
       l acc).
Proof.
  revert acc. induction l as [|t l IH]; intros acc Hacc; [exact Hacc|].
  cbn [fold_left]. apply IH. cbv zeta.
  destruct (truthy (strip t)) eqn:E; [|exact Hacc].
  apply Forall_app_2; [exact Hacc|]. repeat constructor; [exact E|..];
    apply strip_stripped.
Qed.

(** X4. The flattened text of an element neither begins nor ends with a
    blank: stripping it changes nothing. *)
Theorem get_element_text_stripped (element : ET.Element) :
  strip (_get_element_text element) = _get_element_text element.
Proof.
  apply strip_fixed. unfold _get_element_text.
  apply join_stripped, get_element_text_parts. constructor.
Qed.

Lemma cells_map (cell_tag : str) (tr : ET.Element) :
  cells cell_tag tr = map _get_element_text (ET.findall cell_tag tr).
Proof.
  unfold cells.
  rewrite (fold_left_append (fun cell => [_get_element_text cell])).
  simpl. induction (ET.findall cell_tag tr) as [|x l IH]; simpl;
    [reflexivity | now rewrite IH].
Qed.

Lemma rows_fold (trs : list ET.Element) (acc : list (list str)) :
  fold_left (fun rows tr => match cells "td" tr with
                            | [] => rows
                            | _ => rows ++ [cells "td" tr]
                            end) trs acc
  = acc ++ List.filter (fun row => negb (Nat.eqb (length row) 0))
                       (map (cells "td") trs).
Proof.
  revert acc. induction trs as [|tr trs IH]; intros acc; simpl.
  - now rewrite app_nil_r.
  - rewrite IH. destruct (cells "td" tr) eqn:E; simpl; [reflexivity|].
    now rewrite <- app_assoc.
Qed.

(** X5. The rows of a parsed table are the rows of the first [tbody] that
    have at least one [td], in document order, each with the flattened
    texts of its cells: a row without cells is never kept. *)
Theorem parse_xml_table_rows (table tbody : ET.Element) :
  ET.find "tbody" table = Some tbody ->
  snd (_parse_xml_table table) =
    List.filter (fun row => negb (Nat.eqb (length row) 0))
      (map (fun tr => map _get_element_text (ET.findall "td" tr))
           (ET.findall "tr" tbody)) /\
  Forall (fun row => row <> []) (snd (_parse_xml_table table)).
Proof.
  intros Hb. unfold _parse_xml_table. cbn [snd]. rewrite Hb.
  cbv zeta. rewrite rows_fold. cbn [app].
  assert (map (cells "td") (ET.findall "tr" tbody) =
          map (fun tr => map _get_element_text (ET.findall "td" tr))
              (ET.findall "tr" tbody)) as ->.
  { apply map_ext. intros tr. apply cells_map. }
  split; [reflexivity|].
  apply Forall_forall. intros row Hin.
  apply list_elem_of_In, filter_In in Hin as [_ Hlen].
  destruct row; [discriminate | discriminate].
Qed.

End WithUnicode.

End ParserMoreFacts.

(** ** The helpers on URLs, lists and texts *)

Module HelpersTextFacts.
Import PyStr Helpers Rules Py HelpersText PMCFetch Frames BatchProcessor
       PyStrFacts TextFacts HelpersFacts PyFacts.

Section WithUnicode.
Context {U : Unicode}.

Lemma drop_app_length (p s : str) : drop (strlen p) (p +:+ s) = s.
Proof. induction p as [|c p IH]; [reflexivity | exact IH]. Qed.

Lemma startswith_drop (p s : str) :
  startswith p s = true -> s = p +:+ drop (strlen p) s.
Proof.
  intros H. apply startswith_spec in H as [rest ->].
  now rewrite drop_app_length.
Qed.

Lemma take_digits_split (s : str) :
  s = take_digits s +:+ drop (strlen (take_digits s)) s /\
  all_chars is_digit (take_digits s) = true /\
  match drop (strlen (take_digits s)) s with
  | String c _ => is_digit c
  | EmptyString => false
  end = false.
Proof.
  induction s as [|c s (IH1 & IH2 & IH3)]; [repeat split|].
  cbn [take_digits]. destruct (is_digit c) eqn:E.
  - cbn [strlen drop all_chars]. rewrite append_cons, E.
    repeat split; [now f_equal | exact IH2 | exact IH3].
  - repeat split. exact E.
Qed.

Lemma at_end_cases (s : str) :
  at_end s = true -> s = "" \/ s = newline.
Proof.
  unfold at_end. intros H. apply orb_true_iff in H as [H|H];
    apply str_eqb_eq in H; auto.
Qed.

Lemma validate_tail (digits rest : str) :
  truthy digits = true ->
  all_chars is_digit digits = true ->
  match rest with String c _ => is_digit c | EmptyString => false end = false ->
  forall before : str,
    has_id before = false ->
    extract_pmc_id (before +:+ "PMC" +:+ digits +:+ rest)
    = Some ("PMC" +:+ digits).
Proof.
  intros Ht Hd Hr before Hb. unfold extract_pmc_id.
  now rewrite re_search_first.
Qed.

(** X7. A URL that [validate_pmc_url] accepts is [http] or [https], the
    fixed host and path, [PMC], digits, and then nothing, a slash, a line
    break, or a slash and a line break; [extract_pmc_id] finds [PMC] and
    exactly those digits in it. *)
Theorem validate_pmc_url_extract (url : str) :
  validate_pmc_url url = true ->
  exists scheme digits tail,
    (scheme = "https" \/ scheme = "http") /\
    url = scheme +:+ "://pmc.ncbi.nlm.nih.gov/articles/PMC" +:+ digits +:+ tail /\
    truthy digits = true /\
    all_chars is_digit digits = true /\
    (tail = "" \/ tail = "/" \/ tail = newline \/ tail = "/" +:+ newline) /\
    extract_pmc_id url = Some ("PMC" +:+ digits).
Proof.
  unfold validate_pmc_url. intros H.
  assert (exists scheme rest,
             (scheme = "https" \/ scheme = "http") /\
             url = scheme +:+ rest /\
             (let host := "://pmc.ncbi.nlm.nih.gov/articles/PMC" in
              if startswith host rest then
                let rest := drop (strlen host) rest in
                let digits := take_digits rest in
                if truthy digits then
                  let rest := drop (strlen digits) rest in
                  let rest := if startswith "/" rest then drop 1 rest else rest in
                  at_end rest
                else false
              else false) = true) as (scheme & rest & Hs & Hurl & Hrest).
  { destruct (startswith "https" url) eqn:E1.
    - exists "https", (drop 5 url). split; [auto|]. split; [|exact H].
      exact (startswith_drop "https" url E1).
    - destruct (startswith "http" url) eqn:E2; [|discriminate].
      exists "http", (drop 4 url). split; [auto|]. split; [|exact H].
      exact (startswith_drop "http" url E2). }
  clear H. cbv zeta in Hrest.
  destruct (startswith "://pmc.ncbi.nlm.nih.gov/articles/PMC" rest) eqn:Eh;
    [|discriminate].
  apply startswith_drop in Eh.
  remember (drop (strlen "://pmc.ncbi.nlm.nih.gov/articles/PMC") rest)
    as rest2 eqn:Er2.
  destruct (take_digits_split rest2) as (Hsplit & Hdig & Hnext).
  remember (take_digits rest2) as digits eqn:Ed.
  remember (drop (strlen digits) rest2) as tail eqn:Et.
  destruct (truthy digits) eqn:Htr; [|discriminate].
  assert (tail = "" \/ tail = "/" \/ tail = newline \/ tail = "/" +:+ newline)
    as Htail.
  { destruct (startswith "/" tail) eqn:Esl.
    - apply startswith_drop in Esl. apply at_end_cases in Hrest.
      change (strlen "/") with 1%nat in Esl.
      destruct Hrest as [Hr | Hr]; rewrite Hr in Esl; auto.
    - apply at_end_cases in Hrest. destruct Hrest as [-> | ->]; auto. }
  exists scheme, digits, tail.
  assert (url = scheme +:+ "://pmc.ncbi.nlm.nih.gov/articles/PMC"
                  +:+ digits +:+ tail) as Hfull.
  { rewrite Hurl, Eh. do 2 f_equal. exact Hsplit. }
  repeat split; try assumption.
  rewrite Hfull.
  destruct Hs as [-> | ->].
  - exact (validate_tail digits tail Htr Hdig Hnext
             "https://pmc.ncbi.nlm.nih.gov/articles/" eq_refl).
  - exact (validate_tail digits tail Htr Hdig Hnext
             "http://pmc.ncbi.nlm.nih.gov/articles/" eq_refl).
Qed.

Lemma firstn_plus {A} (a b : nat) (l : list A) :
  firstn (a + b) l = firstn a l ++ firstn b (skipn a l).
Proof.
  revert l. induction a as [|a IH]; intros l; [reflexivity|].
  destruct l as [|x l]; simpl.
  - now destruct b.
  - now rewrite IH.
Qed.

Lemma chunks_upto {A} (l : list A) (step : Z) (m : nat) :
  0 < step ->
  concat (map (fun i => slice l i (i + step))
              (map (fun k => Z.of_nat k * step) (seq 0 m)))
  = firstn (m * Z.to_nat step) l.
Proof.
  intros Hstep. induction m as [|m IH]; [reflexivity|].
  rewrite seq_S, !map_app, concat_app, IH. cbn [map concat plus].
  rewrite app_nil_r. unfold slice.
  replace (Z.to_nat (Z.of_nat m * step + step - Z.of_nat m * step))
    with (Z.to_nat step) by lia.
  replace (Z.to_nat (Z.of_nat m * step)) with (m * Z.to_nat step)%nat by nia.
  replace (Datatypes.S m * Z.to_nat step)%nat
    with (m * Z.to_nat step + Z.to_nat step)%nat by lia.
  now rewrite firstn_plus.
Qed.

(** X8. [chunk_list] with a positive size cuts the list into chunks that
    are not empty, have at most [chunk_size] elements and, put end to end,
    give the list back; with size 0 it raises [ValueError]; with a
    negative size it returns no chunk at all. *)
Theorem chunk_list_covers {A} (lst : list A) (chunk_size : Z) :
  (0 < chunk_size ->
   exists chunks,
     chunk_list lst chunk_size = Ok chunks /\
     concat chunks = lst /\
     Forall (fun c => 0 < len c <= chunk_size) chunks) /\
  (chunk_size = 0 ->
   chunk_list lst chunk_size
   = Raise (ValueError "range() arg 3 must not be zero")) /\
  (chunk_size < 0 -> chunk_list lst chunk_size = Ok []).
Proof.
  unfold chunk_list, range0. repeat split.
  - intros Hpos.
    destruct (Z.eqb_spec chunk_size 0); [lia|].
    destruct (Z.ltb_spec chunk_size 0); [lia|].
    eexists. split; [reflexivity|].
    assert (0 <= len lst) as Hlen by (unfold len; lia).
    pose proof (Z.div_mod (len lst + chunk_size - 1) chunk_size ltac:(lia))
      as Hdm.
    pose proof (Z.mod_pos_bound (len lst + chunk_size - 1) chunk_size Hpos)
      as Hb.
    assert (0 <= (len lst + chunk_size - 1) / chunk_size) as Hq
      by (apply Z.div_pos; lia).
    split.
    + rewrite chunks_upto by exact Hpos. apply firstn_all2.
      unfold len in *. nia.
    + apply List.Forall_forall. intros c Hc.
      apply in_map_iff in Hc as (i & <- & Hi).
      apply in_map_iff in Hi as (k & <- & Hk).
      apply in_seq in Hk.
      rewrite slice_length by nia.
      assert (Z.of_nat k * chunk_size < len lst) by nia. lia.
  - intros ->. reflexivity.
  - intros Hneg.
    destruct (Z.eqb_spec chunk_size 0); [lia|].
    destruct (Z.ltb_spec chunk_size 0); [reflexivity | lia].
Qed.

Lemma length_take_string (n : nat) (s : str) :
  strlen (take n s) = Nat.min n (strlen s).
Proof.
  revert s. induction n as [|n IH]; intros s; [reflexivity|].
  destruct s as [|c s]; [reflexivity|]. cbn [take strlen].
  now rewrite IH.
Qed.

Lemma length_append (a b : str) :
  strlen (a +:+ b) = (strlen a + strlen b)%nat.
Proof.
  induction a as [|c a IH]; [reflexivity|].
  rewrite append_cons. cbn [strlen]. now rewrite IH.
Qed.

(** X9. For a bound that is not negative, [truncate_text] returns a text
    of length at most [max_length] as it is, and otherwise the first
    [max_length] characters followed by three dots: the result can be up
    to three characters longer than the bound. *)
Theorem truncate_text_bound (text : str) (max_length : Z) :
  0 <= max_length ->
  (Z.of_nat (strlen text) <= max_length ->
   truncate_text text max_length = text) /\
  (max_length < Z.of_nat (strlen text) ->
   truncate_text text max_length = take (Z.to_nat max_length) text +:+ "..." /\
   Z.of_nat (strlen (truncate_text text max_length)) = max_length + 3).
Proof.
  intros Hm. unfold truncate_text, slice_to. split.
  - intros Hle. apply Z.leb_le in Hle. rewrite Hle. now rewrite orb_true_r.
  - intros Hlt.
    assert (truthy text = true) as ->
      by (destruct text; [simpl in Hlt; lia | reflexivity]).
    destruct (Z.leb_spec (Z.of_nat (strlen text)) max_length); [lia|].
    destruct (Z.ltb_spec max_length 0); [lia|].
    cbn [negb orb]. split; [reflexivity|].
    rewrite length_append, length_take_string. cbn [strlen]. lia.
Qed.

End WithUnicode.

End HelpersTextFacts.

(** ** Sanitizing a text, and the request for an article *)

Module SanitizeFacts.
Import PyStr Helpers Rules Py HelpersText PMCFetch Frames BatchProcessor
       PyStrFacts TextFacts HelpersFacts HelpersTextFacts.

Section WithUnicode.
Context {U : Unicode}.

Lemma remove_control_clean (s : str) :
  all_chars (fun c => negb (is_control c)) (remove_chars is_control s) = true.
Proof.
  induction s as [|c s IH]; [reflexivity|]. cbn [remove_chars].
  destruct (is_control c) eqn:E; [exact IH|].
  cbn [all_chars]. now rewrite E, IH.
Qed.

Lemma remove_control_fixed (s : str) :
  all_chars (fun c => negb (is_control c)) s = true ->
  remove_chars is_control s = s.
Proof.
  induction s as [|c s IH]; [reflexivity|]. cbn [all_chars remove_chars].
  intros H. apply andb_true_iff in H as [Hc Hs].
  apply negb_true_iff in Hc. rewrite Hc. now rewrite IH.
Qed.

Lemma single_spaced_space (s : str) :
  single_spaced false (String space s) = single_spaced true s.
Proof. reflexivity. Qed.

Lemma collapse_single_spaced (b : bool) (s : str) :
  all_chars (fun c => negb (is_control c)) s = true ->
  single_spaced b (collapse_go b s) = true.
Proof.
  revert b. induction s as [|c s IH]; intros b H; [reflexivity|].
  cbn [all_chars] in H. apply andb_true_iff in H as [Hc Hs].
  cbn [collapse_go]. destruct (is_space c) eqn:E.
  - destruct b.
    + now apply IH.
    + rewrite single_spaced_space. now apply IH.
  - cbn [single_spaced]. rewrite Hc, E. now apply IH.
Qed.

Lemma single_spaced_clean (b : bool) (s : str) :
  single_spaced b s = true ->
  all_chars (fun c => negb (is_control c)) s = true.
Proof.
  revert b. induction s as [|c s IH]; intros b H; [reflexivity|].
  cbn [single_spaced] in H. apply andb_true_iff in H as [Hc H].
  cbn [all_chars]. rewrite Hc. destruct (is_space c).
  - apply andb_true_iff in H as [_ H]. exact (IH true H).
  - exact (IH false H).
Qed.

Lemma collapse_fixed (b : bool) (s : str) :
  single_spaced b s = true -> collapse_go b s = s.
Proof.
  revert b. induction s as [|c s IH]; intros b H; [reflexivity|].
  cbn [single_spaced] in H. apply andb_true_iff in H as [Hc H].
  apply negb_true_iff in Hc. cbn [collapse_go].
  destruct (is_space c) eqn:E.
  - apply andb_true_iff in H as [Hb H].
    apply andb_true_iff in Hb as [Hsp Hb].
    apply negb_true_iff in Hb. subst b.
    apply N.eqb_eq in Hsp. subst c. now rewrite (IH true H).
  - now rewrite (IH false H).
Qed.

Lemma single_spaced_weaken (s : str) :
  single_spaced true s = true -> single_spaced false s = true.
Proof.
  destruct s as [|c s]; [reflexivity|]. cbn [single_spaced].
  destruct (is_space c); [|auto].
  rewrite andb_false_r, andb_false_l, andb_false_r. discriminate.
Qed.

Lemma lstrip_single_spaced (s : str) :
  single_spaced false s = true -> single_spaced false (lstrip s) = true.
Proof.
  destruct s as [|c s]; [reflexivity|]. intros H. cbn [lstrip].
  destruct (is_space c) eqn:E; [|exact H].
  cbn [single_spaced] in H. rewrite E in H.
  apply andb_true_iff in H as [_ H].
  apply andb_true_iff in H as [_ H].
  destruct s as [|d s]; [reflexivity|].
  assert (is_space d = false) as Ed.
  { cbn [single_spaced] in H. destruct (is_space d); [|reflexivity].
    rewrite andb_false_r, andb_false_l, andb_false_r in H. discriminate. }
  rewrite lstrip_fixed by exact Ed. now apply single_spaced_weaken.
Qed.

Lemma rstrip_single_spaced (b : bool) (s : str) :
  single_spaced b s = true -> single_spaced b (rstrip s) = true.
Proof.
  revert b. induction s as [|c s IH]; intros b H; [reflexivity|].
  cbn [rstrip]. destruct (is_space c && negb (truthy (rstrip s)));
    [reflexivity|].
  cbn [single_spaced] in *. apply andb_true_iff in H as [Hc H]. rewrite Hc.
  destruct (is_space c).
  - apply andb_true_iff in H as [Hb H]. rewrite Hb. now apply IH.
  - now apply IH.
Qed.

(** X10. The result of [sanitize_text] has no control character and no
    blank other than single spaces, and neither begins nor ends with a
    blank; sanitizing it again changes nothing.  Control characters, line
    breaks and tabs among them, are deleted before the blanks are looked
    at: the text without them has the same result. *)
Theorem sanitize_text_idempotent (text : str) :
  single_spaced false (sanitize_text text) = true /\
  strip (sanitize_text text) = sanitize_text text /\
  sanitize_text (sanitize_text text) = sanitize_text text /\
  sanitize_text (remove_chars is_control text) = sanitize_text text.
Proof.
  assert (single_spaced false (sanitize_text text) = true) as Htidy.
  { unfold sanitize_text. destruct (truthy text); [|reflexivity]. cbn [negb].
    unfold strip. apply rstrip_single_spaced, lstrip_single_spaced.
    apply collapse_single_spaced, remove_control_clean. }
  assert (strip (sanitize_text text) = sanitize_text text) as Hstrip.
  { unfold sanitize_text. destruct (truthy text); [|reflexivity]. cbn [negb].
    apply strip_idem. }
  repeat split; [exact Htidy | exact Hstrip | |].
  - unfold sanitize_text at 1.
    destruct (truthy (sanitize_text text)) eqn:Et.
    + cbn [negb].
      rewrite remove_control_fixed
        by (apply (single_spaced_clean false), Htidy).
      unfold collapse_spaces. rewrite collapse_fixed by exact Htidy.
      exact Hstrip.
    + destruct (sanitize_text text); [reflexivity | discriminate].
  - unfold sanitize_text.
    rewrite (remove_control_fixed (remove_chars is_control text))
      by apply remove_control_clean.
    destruct (truthy text) eqn:Et; cbn [negb].
    + destruct (truthy (remove_chars is_control text)) eqn:Er; [reflexivity|].
      destruct (remove_chars is_control text); [reflexivity | discriminate].
    + destruct text; [reflexivity | discriminate].
Qed.

Lemma digit_not_P (c : char) :
  is_digit c = true -> N.eqb c (ord "P") = false.
Proof.
  intros H. destruct (N.eqb_spec c (ord "P")) as [->|]; [|reflexivity].
  rewrite is_digit_ascii in H by reflexivity. discriminate.
Qed.

Lemma remove_pmc_digits (g : str) :
  all_chars is_digit g = true -> remove_pmc g = g.
Proof.
  induction g as [|c g IH]; [reflexivity|]. cbn [all_chars]. intros H.
  apply andb_true_iff in H as [Hc Hg]. cbn [remove_pmc].
  rewrite (digit_not_P c Hc). cbn [andb].
  destruct g as [|c2 [|c3 g]]; now rewrite IH.
Qed.

Lemma match_here_digits (s g : str) :
  match_here s = Some g -> truthy g = true /\ all_chars is_digit g = true.
Proof.
  unfold match_here. destruct (startswith "PMC" s); [|discriminate].
  destruct (truthy (take_digits (drop 3 s))) eqn:E; [|discriminate].
  intros [= <-]. split; [exact E|]. apply take_digits_split.
Qed.

Lemma re_search_digits (s g : str) :
  re_search s = Some g -> truthy g = true /\ all_chars is_digit g = true.
Proof.
  induction s as [|c s IH]; cbn [re_search].
  - destruct (match_here "") eqn:E; [|discriminate].
    intros [= <-]. now apply match_here_digits in E.
  - destruct (match_here (String c s)) eqn:E.
    + intros [= <-]. now apply match_here_digits in E.
    + exact IH.
Qed.

(** X11. For an identifier that the batch processor extracts from a URL,
    the normalisation of [fetch_article] changes nothing, and the [id]
    parameter of the request is the identifier without [PMC]: a run of
    digits that is not empty. *)
Theorem fetch_params_numeric_id (url pmc_id email : str)
    (api_key : option str) :
  _extract_pmc_id url = Ok pmc_id ->
  normalize_pmc_id pmc_id = pmc_id /\
  exists digits,
    pmc_id = "PMC" +:+ digits /\
    truthy digits = true /\
    all_chars is_digit digits = true /\
    PyDict.get "id" (fetch_params email api_key pmc_id) = Some digits.
Proof.
  unfold _extract_pmc_id. destruct (re_search url) as [g|] eqn:E;
    [|discriminate].
  intros [= <-]. apply re_search_digits in E as [Ht Hd].
  assert (normalize_pmc_id ("PMC" +:+ g) = "PMC" +:+ g) as Hn.
  { unfold normalize_pmc_id.
    replace (startswith "PMC" ("PMC" +:+ g)) with true; [reflexivity|].
    symmetry. apply startswith_spec. eauto. }
  split; [exact Hn|]. exists g. repeat split; try assumption.
  unfold fetch_params. rewrite Hn. unfold request_params.
  assert (remove_pmc ("PMC" +:+ g) = g) as ->.
  { rewrite pmc_append. cbn [remove_pmc ord N.eqb Pos.eqb andb].
    now apply remove_pmc_digits. }
  destruct api_key as [k|]; [|reflexivity].
  destruct (truthy k); reflexivity.
Qed.

End WithUnicode.

End SanitizeFacts.

(** ** More on enrichment and embeddings *)

Module AIMoreFacts.
Import PyStr PMCClient Py World AIClient BatchProcessor Frames Scenarios
       PyStrFacts TextFacts PMCClientFacts PyFacts.

Section WithUnicode.
Context {U : Unicode}.

Lemma all_chars_app (p : char -> bool) (a b : str) :
  all_chars p (a +:+ b) = all_chars p a && all_chars p b.
Proof.
  induction a as [|c a IH]; [reflexivity|].
  rewrite append_cons. cbn [all_chars]. now rewrite IH, andb_assoc.
Qed.

Lemma split_go_word (cur w rest : str) :
  all_chars (fun c => negb (is_space c)) w = true ->
  split_go cur (w +:+ rest) = split_go (cur +:+ w) rest.
Proof.
  revert cur. induction w as [|c w IH]; intros cur H.
  - now rewrite append_nil_l, append_empty_r.
  - cbn [all_chars] in H. apply andb_true_iff in H as [Hc Hw].
    apply negb_true_iff in Hc.
    rewrite append_cons. cbn [split_go]. rewrite Hc, IH by exact Hw.
    now rewrite append_assoc.
Qed.

Lemma split_go_words (cur s : str) :
  all_chars (fun c => negb (is_space c)) cur = true ->
  Forall (fun w => is_word w = true) (split_go cur s).
Proof.
  revert cur. induction s as [|c s IH]; intros cur Hcur; cbn [split_go].
  - destruct (truthy cur) eqn:E; repeat constructor.
    unfold is_word. now rewrite E, Hcur.
  - destruct (is_space c) eqn:Ec.
    + apply Forall_app_2; [|now apply IH].
      destruct (truthy cur) eqn:E; repeat constructor.
      unfold is_word. now rewrite E, Hcur.
    + apply IH. rewrite all_chars_app, Hcur. cbn [all_chars].
      now rewrite Ec.
Qed.

(** Splitting the join of words gives the words back. *)
Lemma split_join_words (ws : list str) :
  Forall (fun w => is_word w = true) ws -> split (join " " ws) = ws.
Proof.
  induction 1 as [|w ws Hw Hws IH]; [reflexivity|].
  unfold is_word in Hw. apply andb_true_iff in Hw as [Ht Hc].
  unfold split in *. destruct ws as [|w' ws].
  - unfold join. cbn [str_concat].
    rewrite <- (append_empty_r w) at 1.
    rewrite split_go_word by exact Hc. cbn [split_go].
    rewrite append_nil_l. now rewrite Ht.
  - rewrite join_cons2, split_go_word by exact Hc.
    rewrite append_nil_l.
    change (" " +:+ join " " (w' :: ws))
      with (String space (join " " (w' :: ws))).
    cbn [split_go]. change (is_space space) with true. cbv iota.
    now rewrite Ht, IH.
Qed.

(** X12. The content prepared for the model has one part for each of the
    sections introduction, results, conclusion, discussion that the
    article has, in that order whatever the order of the article, the
    parts separated by blank lines, and the part of a section holds its
    first 500 words at most, separated by single spaces. *)
Theorem prepare_content_excerpts :
  (forall article_data : Article,
     _prepare_content_for_llm article_data =
     str_concat (String 10 (String 10 ""))
       (flat_map
          (fun name => match PyDict.get name (sections article_data) with
                       | Some text => [upper name +:+ ": " +:+ excerpt text]
                       | None => []
                       end)
          ["introduction"; "results"; "conclusion"; "discussion"])) /\
  (forall text : str,
     split (excerpt text) = firstn 500 (split text) /\
     (length (split (excerpt text)) <= 500)%nat).
Proof.
  split.
  - intros article_data. unfold _prepare_content_for_llm. cbv zeta. f_equal.
    rewrite (fold_left_same _
               (fun parts name =>
                  parts ++ match PyDict.get name (sections article_data) with
                           | Some text => [upper name +:+ ": " +:+ excerpt text]
                           | None => []
                           end)).
    + now rewrite fold_left_append.
    + intros b name. destruct (PyDict.get name (sections article_data));
        [reflexivity | now rewrite app_nil_r].
  - intros text.
    assert (split (excerpt text) = firstn 500 (split text)) as E.
    { unfold excerpt. apply split_join_words.
      apply Forall_take. unfold split. now apply split_go_words. }
    split; [exact E|]. rewrite E, length_take. lia.
Qed.

End WithUnicode.

Section WithEnv.
Context {U : Unicode} {float : Type} (env : Env float).

Lemma decoded_answer_returned
    (article_data : Article) (w : World.t) (text : str) (j : JSON) :
  chat_completion env w (build_prompt article_data) = Ok (Some text) ->
  json_loads env (strip_code_fences text) = Some j ->
  extract_structured_info env article_data w =
  (Ok j, log (EvModelCall (build_prompt article_data)) w).
Proof.
  intros Hc Hj.
  unfold extract_structured_info, retry, extract_structured_info_once,
    try_except, call.
  rewrite bind_unfold, Hc, Hj. reflexivity.
Qed.

(** X13. When the model answers a text that, once the fences and the
    blanks around it are removed, decodes as JSON, [extract_structured_info]
    returns the decoded value as it is, whether or not it is an object
    with the expected keys, after one model call and without a pause. *)
Theorem extract_structured_info_decoded
    (article_data : Article) (w : World.t) (text : str) (j : JSON) :
  chat_completion env w (build_prompt article_data) = Ok (Some text) ->
  json_loads env (strip_code_fences text) = Some j ->
  extract_structured_info env article_data w =
  (Ok j, log (EvModelCall (build_prompt article_data)) w).
Proof. exact (decoded_answer_returned article_data w text j). Qed.

Lemma count_log (p : Event -> bool) (ev : Event) (w : World.t) :
  count_events p (log ev w)
  = (count_events p w + (if p ev then 1 else 0))%nat.
Proof.
  unfold count_events. cbn [log trace]. rewrite List.filter_app, length_app.
  cbn [List.filter]. destruct (p ev); reflexivity.
Qed.

Lemma length_log (ev : Event) (w : World.t) :
  length (trace (log ev w)) = Datatypes.S (length (trace w)).
Proof. cbn [log trace]. rewrite length_app. simpl. lia. Qed.

Lemma embedding_calls_trans (a b c d : nat) (w1 w2 w3 : World.t) :
  embedding_calls a b w1 w2 -> embedding_calls c d w2 w3 ->
  embedding_calls (a + c) (b + d) w1 w3.
Proof.
  unfold embedding_calls, same_tables.
  intros (A1 & A2 & A3 & A4 & A5 & A6) (B1 & B2 & B3 & B4 & B5 & B6).
  repeat split; try lia; congruence.
Qed.

Lemma embedding_calls_weaken (a b c d : nat) (w1 w2 : World.t) :
  (a <= c)%nat -> (b <= d)%nat ->
  embedding_calls a b w1 w2 -> embedding_calls c d w1 w2.
Proof.
  unfold embedding_calls. intros Hac Hbd (A1 & A2 & A3 & A4).
  split; [lia|]. split; [lia|]. split; [lia | exact A4].
Qed.

Ltac count_logs :=
  unfold embedding_calls, same_tables;
  rewrite ?count_log, ?length_log; cbn [is_encode is_sleep];
  cbn [log processing_status processing_errors publications];
  repeat split; lia.

(** One attempt makes one to three calls to the embedding model and
    nothing else. *)
Lemma generate_embeddings_once_calls (texts : list str) (w : World.t)
    (r : result (list (list float))) (w' : World.t) :
  generate_embeddings_once env texts w = (r, w') ->
  embedding_calls 3 0 w w'.
Proof.
  unfold generate_embeddings_once, try_except, call_encode, call.
  rewrite bind_unfold.
  destruct (encode env w texts) as [[rows|rows|]|e]; cbn [raise];
    try (intros [= <- <-]; count_logs).
  - rewrite bind_unfold.
    destruct (encode env (log (EvEncode texts) w) ["test"]) as [probe|e1];
      [|intros [= <- <-]; count_logs].
    rewrite bind_unfold. destruct (has_len probe);
      [|intros [= <- <-]; count_logs].
    rewrite bind_unfold.
    destruct (encode env _ ["test"]) as [probe'|e2];
      [|intros [= <- <-]; count_logs].
    unfold lift_result. destruct (py_len probe');
      intros [= <- <-]; count_logs.
  - rewrite bind_unfold.
    destruct (encode env (log (EvEncode texts) w) ["test"]) as [probe|e1];
      [|intros [= <- <-]; count_logs].
    rewrite bind_unfold. destruct (has_len probe);
      [|intros [= <- <-]; count_logs].
    rewrite bind_unfold.
    destruct (encode env _ ["test"]) as [probe'|e2];
      [|intros [= <- <-]; count_logs].
    unfold lift_result. destruct (py_len probe');
      intros [= <- <-]; count_logs.
Qed.

Lemma backoff_calls (w : World.t) : embedding_calls 0 1 w (log EvSleep w).
Proof. count_logs. Qed.

Lemma generate_embeddings_calls (texts : list str) (w : World.t)
    (r : result (list (list float))) (w' : World.t) :
  generate_embeddings env texts w = (r, w') ->
  embedding_calls 9 2 w w' /\
  match r with Ok _ => True | Raise e => e = RetryError end.
Proof.
  unfold generate_embeddings, retry, try_except.
  destruct (generate_embeddings_once env texts w) as [[a1|e1] w1] eqn:E1;
    apply generate_embeddings_once_calls in E1.
  { intros [= <- <-]. split; [|exact I].
    apply (embedding_calls_weaken 3 0); [lia | lia | exact E1]. }
  rewrite bind_unfold. unfold backoff at 1, modify at 1.
  destruct (generate_embeddings_once env texts (log EvSleep w1))
    as [[a2|e2] w2] eqn:E2; apply generate_embeddings_once_calls in E2.
  { intros [= <- <-]. split; [|exact I].
    apply (embedding_calls_weaken (3 + (0 + 3)) (0 + (1 + 0)));
      [lia | lia |].
    eapply embedding_calls_trans; [exact E1|].
    eapply embedding_calls_trans; [apply backoff_calls | exact E2]. }
  rewrite bind_unfold. unfold backoff at 1, modify at 1.
  destruct (generate_embeddings_once env texts (log EvSleep w2))
    as [[a3|e3] w3] eqn:E3; apply generate_embeddings_once_calls in E3;
    intros [= <- <-]; (split; [|try exact I; reflexivity]);
    apply (embedding_calls_weaken (3 + (0 + (3 + (0 + 3))))
                                  (0 + (1 + (0 + (1 + 0)))));
    try lia;
    (eapply embedding_calls_trans; [exact E1|]);
    (eapply embedding_calls_trans; [apply backoff_calls|]);
    (eapply embedding_calls_trans; [exact E2|]);
    (eapply embedding_calls_trans; [apply backoff_calls | exact E3]).
Qed.

(** X14. Whatever the embedding model does, [generate_embeddings] makes
    at most nine calls to it and pauses at most twice, does nothing else
    and leaves the tables alone; when it raises, it raises
    [RetryError]. *)
Theorem generate_embeddings_bounded (texts : list str) (w : World.t) :
  let run := generate_embeddings env texts w in
  embedding_calls 9 2 w (snd run) /\
  match fst run with Ok _ => True | Raise e => e = RetryError end.
Proof.
  cbv zeta. destruct (generate_embeddings env texts w) as [r w'] eqn:E.
  exact (generate_embeddings_calls texts w r w' E).
Qed.

End WithEnv.

End AIMoreFacts.

(** ** Reasoning on computations over the world *)

Module FramesFacts.
Import PyStr PMCClient Py World AIClient BatchProcessor Frames PyFacts
       AIMoreFacts PipelineFacts.

Lemma same_tables_refl (w : World.t) : same_tables w w.
Proof. unfold same_tables. auto. Qed.

Lemma same_tables_trans (w1 w2 w3 : World.t) :
  same_tables w1 w2 -> same_tables w2 w3 -> same_tables w1 w3.
Proof.
  unfold same_tables. intros (A1 & A2 & A3) (B1 & B2 & B3).
  repeat split; congruence.
Qed.

Lemma same_tables_log (ev : Event) (w : World.t) : same_tables w (log ev w).
Proof. unfold same_tables. auto. Qed.

Lemma quiet_ret {A} (a : A) : quiet (mret a).
Proof. intros w r w' [= <- <-]. apply same_tables_refl. Qed.

Lemma quiet_raise {A} (e : exn) : quiet (raise e : M World.t A).
Proof. intros w r w' [= <- <-]. apply same_tables_refl. Qed.

Lemma quiet_lift_result {A} (x : result A) : quiet (lift_result x).
Proof. intros w r w' [= <- <-]. apply same_tables_refl. Qed.

Lemma quiet_bind {A B} (m : M World.t A) (k : A -> M World.t B) :
  quiet m -> (forall a, quiet (k a)) -> quiet (m ≫= k).
Proof.
  intros Hm Hk w r w' E. rewrite bind_unfold in E.
  destruct (m w) as [[a|e] w1] eqn:Em; apply Hm in Em.
  - apply Hk in E. eapply same_tables_trans; eassumption.
  - injection E as <- <-. exact Em.
Qed.

Lemma quiet_try_except {A} (m : M World.t A) (h : exn -> M World.t A) :
  quiet m -> (forall e, quiet (h e)) -> quiet (try_except m h).
Proof.
  intros Hm Hh w r w' E. unfold try_except in E.
  destruct (m w) as [[a|e] w1] eqn:Em; apply Hm in Em.
  - injection E as <- <-. exact Em.
  - apply Hh in E. eapply same_tables_trans; eassumption.
Qed.

Lemma quiet_for_fold {A B} (l : list A) (acc : B)
    (body : B -> A -> M World.t B) :
  (forall b a, quiet (body b a)) -> quiet (for_fold l acc body).
Proof.
  intros Hb. revert acc. induction l as [|x l IH]; intros acc.
  - apply quiet_ret.
  - cbn [for_fold]. apply quiet_bind; [apply Hb | intros b; apply IH].
Qed.

Lemma quiet_call {A} (ev : Event) (oracle : World.t -> result A) :
  quiet (call ev oracle).
Proof. intros w r w' [= <- <-]. apply same_tables_log. Qed.

Lemma quiet_write (ev : Event) (fault : World.t -> option exn) :
  quiet (write ev fault id).
Proof.
  intros w r w' E. unfold write in E.
  destruct (fault w); injection E as <- <-; apply same_tables_log.
Qed.

(** *** The rules of the triples *)

Lemma hoare_ret {A} (P : World.t -> Prop) (a : A)
    (Q : A -> World.t -> Prop) (R : World.t -> Prop) :
  (forall w, P w -> Q a w) -> hoare P (mret a) Q R.
Proof. intros H w r w' HP [= <- <-]. now apply H. Qed.

Lemma hoare_raise {A} (P : World.t -> Prop) (e : exn)
    (Q : A -> World.t -> Prop) (R : World.t -> Prop) :
  (forall w, P w -> R w) -> hoare P (raise e) Q R.
Proof. intros H w r w' HP [= <- <-]. now apply H. Qed.

Lemma hoare_lift_result {A} (P : World.t -> Prop) (x : result A)
    (Q : A -> World.t -> Prop) (R : World.t -> Prop) :
  (forall w, P w -> match x with Ok a => Q a w | Raise _ => R w end) ->
  hoare P (lift_result x) Q R.
Proof. intros H w r w' HP [= <- <-]. now apply H. Qed.

Lemma hoare_bind {A B} (P : World.t -> Prop) (m : M World.t A)
    (Q1 : A -> World.t -> Prop) (k : A -> M World.t B)
    (Q : B -> World.t -> Prop) (R : World.t -> Prop) :
  hoare P m Q1 R -> (forall a, hoare (Q1 a) (k a) Q R) ->
  hoare P (m ≫= k) Q R.
Proof.
  intros Hm Hk w r w' HP E. rewrite bind_unfold in E.
  destruct (m w) as [[a|e] w1] eqn:Em; specialize (Hm _ _ _ HP Em).
  - exact (Hk a _ _ _ Hm E).
  - injection E as <- <-. exact Hm.
Qed.

Lemma hoare_try_except {A} (P : World.t -> Prop) (m : M World.t A)
    (h : exn -> M World.t A) (Q : A -> World.t -> Prop)
    (R1 R : World.t -> Prop) :
  hoare P m Q R1 -> (forall e, hoare R1 (h e) Q R) ->
  hoare P (try_except m h) Q R.
Proof.
  intros Hm Hh w r w' HP E. unfold try_except in E.
  destruct (m w) as [[a|e] w1] eqn:Em; specialize (Hm _ _ _ HP Em).
  - injection E as <- <-. exact Hm.
  - exact (Hh e _ _ _ Hm E).
Qed.

Lemma hoare_conseq {A} (P P' : World.t -> Prop) (m : M World.t A)
    (Q Q' : A -> World.t -> Prop) (R R' : World.t -> Prop) :
  (forall w, P' w -> P w) ->
  (forall a w, Q a w -> Q' a w) ->
  (forall w, R w -> R' w) ->
  hoare P m Q R -> hoare P' m Q' R'.
Proof.
  intros HP HQ HR Hm w r w' HP' E. specialize (Hm _ _ _ (HP _ HP') E).
  destruct r; auto.
Qed.

Lemma hoare_false {A} (m : M World.t A) (Q : A -> World.t -> Prop)
    (R : World.t -> Prop) :
  hoare (fun _ => False) m Q R.
Proof. intros w r w' []. Qed.

Lemma hoare_for_fold {A B} (Inv : B -> World.t -> Prop) (R : World.t -> Prop)
    (l : list A) (acc : B) (body : B -> A -> M World.t B) :
  (forall b a, hoare (Inv b) (body b a) Inv R) ->
  hoare (Inv acc) (for_fold l acc body) Inv R.
Proof.
  intros Hb. revert acc. induction l as [|x l IH]; intros acc.
  - apply hoare_ret. auto.
  - cbn [for_fold]. eapply hoare_bind; [apply Hb | intros b; apply IH].
Qed.

(** A quiet computation keeps what only depends on the tables. *)
Lemma hoare_quiet {A} (T : World.t -> Prop) (m : M World.t A) :
  quiet m -> on_tables T -> hoare T m (fun _ => T) T.
Proof.
  intros Hq HT w r w' HP E. apply Hq in E.
  destruct r; exact (HT _ _ E HP).
Qed.

Section WithEnv.
Context {U : Unicode} {float : Type} (env : Env float).

Lemma quiet_extract_structured_info (article_data : Article) :
  quiet (extract_structured_info env article_data).
Proof.
  intros w r w' E.
  destruct (extract_structured_info_one_attempt env article_data w)
    as [d Ed].
  rewrite Ed in E. injection E as <- <-. apply same_tables_log.
Qed.

Lemma quiet_generate_embeddings (texts : list str) :
  quiet (generate_embeddings env texts).
Proof.
  intros w r w' E. apply generate_embeddings_calls in E as [Hc _].
  apply Hc.
Qed.

Lemma quiet_store_in_weaviate (pmc_id : str) (article_data : Article)
    (enriched_data : JSON) (v : list float)
    (section_embeddings : PyDict.t (list float)) :
  quiet (_store_in_weaviate env pmc_id article_data enriched_data v
                            section_embeddings).
Proof.
  unfold _store_in_weaviate.
  apply quiet_bind; [apply quiet_lift_result | intros _].
  apply quiet_bind; [apply quiet_write | intros _].
  destruct (_ && _); [|apply quiet_ret].
  unfold for_each. apply quiet_for_fold. intros _ [name emb].
  destruct (PyDict.get name (sections article_data)) as [text|];
    [|apply quiet_ret].
  destruct (truthy text); [apply quiet_write | apply quiet_ret].
Qed.

Lemma quiet_index_in_elasticsearch (pmc_id : str)
    (article_data : Article) :
  quiet (_index_in_elasticsearch env pmc_id article_data).
Proof.
  unfold _index_in_elasticsearch.
  destruct (negb (es_client env)); [apply quiet_ret | apply quiet_write].
Qed.

Lemma quiet_create_publication_node (article_data : Article)
    (enriched_data : JSON) :
  quiet (create_publication_node env article_data enriched_data).
Proof. apply quiet_write. Qed.

Lemma quiet_section_embeddings (sections : PyDict.t str) :
  quiet
    (for_fold (PyDict.items sections) PyDict.empty
       (fun section_embeddings '(section_name, section_text) =>
          if truthy section_text then
            emb ← generate_embeddings env [take max_chars section_text];
            emb0 ← lift_result (first_item emb);
            mret (PyDict.set section_name emb0 section_embeddings)
          else mret section_embeddings)).
Proof.
  apply quiet_for_fold. intros b [name text].
  destruct (truthy text); [|apply quiet_ret].
  apply quiet_bind; [apply quiet_generate_embeddings | intros emb].
  apply quiet_bind; [apply quiet_lift_result | intros emb0].
  apply quiet_ret.
Qed.

(** *** The status and the publication writes *)

Lemma update_status_effect (pmc_id status : str) (error : option str)
    (w : World.t) (r : result unit) (w' : World.t) :
  _update_processing_status env pmc_id status error w = (r, w') ->
  publications w' = publications w /\
  processing_errors w' = processing_errors w /\
  (forall k, is_Some (processing_status w !! k) ->
             is_Some (processing_status w' !! k)).
Proof.
  unfold _update_processing_status. rewrite bind_unfold.
  unfold pg_acquire, pg_execute, write.
  destruct (pg_fault env w); [intros [= <- <-]; auto|].
  assert (forall (tbl : gmap str StatusRow) k row,
             is_Some (tbl !! k) -> is_Some (<[pmc_id := row]> tbl !! k))
    as Hins.
  { intros tbl k row Hk. destruct (decide (pmc_id = k)) as [->|Hne].
    - rewrite lookup_insert_eq. eauto.
    - now rewrite lookup_insert_ne. }
  destruct (str_eqb status "processing");
    [|destruct (str_eqb status "completed");
      [|destruct (str_eqb status "failed")]].
  - intros E.
    destruct (pg_fault env (log EvPgAcquire (id w)));
      injection E as <- <-; cbn; repeat split; auto.
    intros k Hk. destruct (processing_status w !! pmc_id); now apply Hins.
  - intros E.
    destruct (pg_fault env (log EvPgAcquire (id w)));
      injection E as <- <-; cbn; repeat split; auto.
    intros k Hk. destruct (processing_status w !! pmc_id);
      [now apply Hins | exact Hk].
  - intros E.
    destruct (pg_fault env (log EvPgAcquire (id w)));
      injection E as <- <-; cbn; repeat split; auto.
    intros k Hk. destruct (processing_status w !! pmc_id);
      [now apply Hins | exact Hk].
  - intros [= <- <-]. cbn. auto.
Qed.

Lemma update_processing_ok (pmc_id : str) (error : option str)
    (w w' : World.t) :
  _update_processing_status env pmc_id "processing" error w = (Ok tt, w') ->
  is_Some (processing_status w' !! pmc_id).
Proof.
  unfold _update_processing_status. rewrite bind_unfold.
  unfold pg_acquire, pg_execute, write.
  destruct (pg_fault env w); [discriminate|].
  cbn [str_eqb N.eqb Pos.eqb andb].
  destruct (pg_fault env _); [discriminate|].
  intros [= <-]. cbn.
  destruct (processing_status w !! pmc_id); rewrite lookup_insert_eq; eauto.
Qed.

Lemma update_completed_ok (pmc_id : str) (error : option str)
    (w w' : World.t) :
  _update_processing_status env pmc_id "completed" error w = (Ok tt, w') ->
  is_Some (processing_status w !! pmc_id) ->
  exists row, processing_status w' !! pmc_id = Some row /\
              st_status row = "completed".
Proof.
  unfold _update_processing_status. rewrite bind_unfold.
  unfold pg_acquire, pg_execute, write.
  destruct (pg_fault env w); [discriminate|].
  cbn [str_eqb N.eqb Pos.eqb andb].
  destruct (pg_fault env _); [discriminate|].
  intros [= <-] [row Hrow]. cbn. rewrite Hrow.
  eexists. split; [apply lookup_insert_eq | reflexivity].
Qed.

Lemma store_in_postgres_effect (pmc_id : str) (article_data : Article)
    (enriched_data : JSON) (w : World.t) (r : result unit) (w' : World.t) :
  _store_in_postgres env pmc_id article_data enriched_data w = (r, w') ->
  processing_status w' = processing_status w /\
  processing_errors w' = processing_errors w /\
  match r with
  | Ok _ => is_Some (publications w' !! pmc_id) /\
            exists fields, enriched_data = JObject fields
  | Raise _ => publications w' = publications w
  end.
Proof.
  unfold _store_in_postgres. rewrite bind_unfold.
  unfold pg_acquire, write.
  destruct (pg_fault env w); [intros [= <- <-]; auto|].
  destruct enriched_data;
    try (cbn [json_get_opt json_get]; unfold lift_result;
         rewrite bind_unfold; intros [= <- <-]; auto).
  cbn [json_get_opt json_get]. unfold lift_result. rewrite !bind_unfold.
  unfold pg_execute, write.
  destruct (pg_fault env _); intros [= <- <-]; cbn; repeat split; eauto.
  unfold upsert_publication.
  destruct (publications w !! pmc_id); rewrite lookup_insert_eq; eauto.
Qed.

Lemma log_error_effect (pmc_id msg type_name : str)
    (w : World.t) (r : result unit) (w' : World.t) :
  _log_error env pmc_id msg type_name w = (r, w') ->
  publications w' = publications w /\
  processing_status w' = processing_status w.
Proof.
  unfold _log_error. rewrite bind_unfold. unfold pg_acquire, pg_execute, write.
  destruct (pg_fault env w); [intros [= <- <-]; auto|].
  destruct (pg_fault env _); intros [= <- <-]; auto.
Qed.

End WithEnv.

End FramesFacts.

(** ** One article through the pipeline *)

Module ArticleFacts.
Import PyStr PMCClient Rules Py World AIClient BatchProcessor Frames PyFacts
       HelpersFacts AIMoreFacts PipelineFacts FramesFacts.

Section WithEnv.
Context {U : Unicode} {float : Type} (env : Env float).

Lemma on_tables_errors_status (errors0 : list ErrorRow) (pmc_id : str) :
  on_tables (fun w => processing_errors w = errors0 /\
                      is_Some (processing_status w !! pmc_id)).
Proof. intros w w' (A & B & C) [H1 H2]. rewrite A, B. auto. Qed.

Lemma on_tables_stored (errors0 : list ErrorRow) (pmc_id : str) :
  on_tables (fun w => processing_errors w = errors0 /\
                      is_Some (processing_status w !! pmc_id) /\
                      is_Some (publications w !! pmc_id)).
Proof. intros w w' (A & B & C) (H1 & H2 & H3). rewrite A, B, C. auto. Qed.

Lemma process_single_article_try_success (pmc_id : str)
    (errors0 : list ErrorRow) :
  hoare (fun w => processing_errors w = errors0)
        (process_single_article_try env pmc_id)
        (fun r w => res_status r = "success" ->
                    res_pmc_id r = pmc_id /\
                    stored_and_completed errors0 pmc_id w)
        (fun _ => True).
Proof.
  unfold process_single_article_try.
  eapply hoare_bind with
    (Q1 := fun _ w => processing_errors w = errors0 /\
                      is_Some (processing_status w !! pmc_id)).
  { intros w r w' HP E. destruct r as [[]|e]; [|exact I].
    pose proof (update_processing_ok env _ _ _ _ E) as Hrow.
    apply update_status_effect in E as (_ & He & _). split; congruence. }
  intros ?. eapply hoare_bind.
  { eapply hoare_conseq;
      [| | |apply (hoare_quiet _ _ (quiet_call _ _)),
                  (on_tables_errors_status errors0 pmc_id)];
      [auto | intros ? ? H; exact H | auto]. }
  intros article_data. cbv zeta. destruct (negb _).
  { eapply hoare_bind with (Q1 := fun _ _ => True).
    - intros w r w' _ _. now destruct r.
    - intros ?. apply hoare_ret. intros w _. discriminate. }
  eapply hoare_bind.
  { eapply hoare_conseq;
      [| | |apply (hoare_quiet _ _ (quiet_extract_structured_info env _)),
                  (on_tables_errors_status errors0 pmc_id)];
      [auto | intros ? ? H; exact H | auto]. }
  intros enriched_data. eapply hoare_bind.
  { eapply hoare_conseq;
      [| | |apply (hoare_quiet _ _ (quiet_generate_embeddings env _)),
                  (on_tables_errors_status errors0 pmc_id)];
      [auto | intros ? ? H; exact H | auto]. }
  intros full_text_embedding. eapply hoare_bind.
  { eapply hoare_conseq;
      [| | |apply (hoare_quiet _ _ (quiet_section_embeddings env _)),
                  (on_tables_errors_status errors0 pmc_id)];
      [auto | intros ? ? H; exact H | auto]. }
  intros section_embeddings.
  eapply hoare_bind with
    (Q1 := fun _ w => processing_errors w = errors0 /\
                      is_Some (processing_status w !! pmc_id) /\
                      is_Some (publications w !! pmc_id)).
  { intros w r w' [He Hs] E.
    apply store_in_postgres_effect in E as (A & B & C).
    destruct r as [[]|e]; [|exact I].
    destruct C as [C _]. rewrite A, B. auto. }
  intros ?. eapply hoare_bind.
  { apply hoare_lift_result with
      (Q := fun _ w => processing_errors w = errors0 /\
                       is_Some (processing_status w !! pmc_id) /\
                       is_Some (publications w !! pmc_id)).
    intros w H. destruct (first_item full_text_embedding); [exact H | exact I]. }
  intros full_text_embedding0. eapply hoare_bind.
  { eapply hoare_conseq;
      [| | |apply (hoare_quiet _ _ (quiet_store_in_weaviate env _ _ _ _ _)),
                  (on_tables_stored errors0 pmc_id)];
      [auto | intros ? ? H; exact H | auto]. }
  intros ?. eapply hoare_bind.
  { eapply hoare_conseq;
      [| | |apply (hoare_quiet _ _ (quiet_index_in_elasticsearch env _ _)),
                  (on_tables_stored errors0 pmc_id)];
      [auto | intros ? ? H; exact H | auto]. }
  intros ?. eapply hoare_bind.
  { eapply hoare_conseq;
      [| | |apply (hoare_quiet _ _ (quiet_create_publication_node env _ _)),
                  (on_tables_stored errors0 pmc_id)];
      [auto | intros ? ? H; exact H | auto]. }
  intros ?.
  eapply hoare_bind with
    (Q1 := fun _ w => stored_and_completed errors0 pmc_id w).
  { intros w r w' (He & Hs & Hp) E. destruct r as [[]|e]; [|exact I].
    pose proof (update_completed_ok env _ _ _ _ E Hs) as Hrow.
    apply update_status_effect in E as (A & B & _).
    unfold stored_and_completed. rewrite A, B. auto. }
  intros ?. apply hoare_ret. intros w H _. split; [reflexivity | exact H].
Qed.

(** The handler of [process_single_article] never returns. *)
Lemma handler_raises (pmc_id : str) (e : exn) (P : World.t -> Prop) :
  hoare P
    (_log_error env pmc_id (exn_msg e) (exn_type e) ;;
     _update_processing_status env pmc_id "failed" (Some (exn_msg e)) ;;
     (raise e : M World.t ArticleResult))
    (fun _ _ => False) (fun _ => True).
Proof.
  eapply hoare_bind with (Q1 := fun _ _ => True).
  { intros w r w' _ _. now destruct r. }
  intros ?. eapply hoare_bind with (Q1 := fun _ _ => True).
  { intros w r w' _ _. now destruct r. }
  intros ?. apply hoare_raise. auto.
Qed.

(** X17. When [process_single_article] returns a result that says
    [success], the identifier is the one of the URL, its status row says
    [completed], the table of publications has a row for it, and the error
    log is as it was. *)
Theorem process_single_article_success
    (pmc_url : str) (w : World.t) (r : ArticleResult) (w' : World.t) :
  process_single_article env pmc_url w = (Ok r, w') ->
  res_status r = "success" ->
  _extract_pmc_id pmc_url = Ok (res_pmc_id r) /\
  (exists row, processing_status w' !! res_pmc_id r = Some row /\
               st_status row = "completed") /\
  is_Some (publications w' !! res_pmc_id r) /\
  processing_errors w' = processing_errors w.
Proof.
  intros E Hs. unfold process_single_article in E. rewrite bind_unfold in E.
  unfold lift_result at 1 in E.
  destruct (_extract_pmc_id pmc_url) as [pmc_id|e0]; [|discriminate].
  pose proof (hoare_try_except _ _ _ _ _ _
                (process_single_article_try_success pmc_id
                   (processing_errors w))
                (fun e => hoare_conseq _ _ _ _ _ _ _
                            (fun _ H => H) (fun _ _ (H : False) => match H with end)
                            (fun _ H => H)
                            (handler_raises pmc_id e (fun _ => True)))
                w (Ok r) w' eq_refl E Hs) as [Hid Hdone].
  subst pmc_id. split; [reflexivity | exact Hdone].
Qed.

Lemma hoare_assume {A} (fact : Prop) (P : World.t -> Prop)
    (m : M World.t A) (Q : A -> World.t -> Prop) (R : World.t -> Prop) :
  (fact -> hoare P m Q R) -> hoare (fun w => fact /\ P w) m Q R.
Proof. intros H w r w' [Hf HP] E. exact (H Hf w r w' HP E). Qed.

Lemma on_tables_publications (pubs0 : gmap str PubRow) :
  on_tables (fun w => publications w = pubs0).
Proof. intros w w' (A & B & C) H. now rewrite C. Qed.

Lemma handler_keeps_publications (pmc_id : str) (e : exn)
    (pubs0 : gmap str PubRow) :
  hoare (fun w => publications w = pubs0)
    (_log_error env pmc_id (exn_msg e) (exn_type e) ;;
     _update_processing_status env pmc_id "failed" (Some (exn_msg e)) ;;
     (raise e : M World.t ArticleResult))
    (fun _ _ => False) (fun w => publications w = pubs0).
Proof.
  eapply hoare_bind with (Q1 := fun _ w => publications w = pubs0).
  { intros w r w' HP E. apply log_error_effect in E as [A _].
    destruct r; congruence. }
  intros ?. eapply hoare_bind with (Q1 := fun _ w => publications w = pubs0).
  { intros w r w' HP E. apply update_status_effect in E as (A & _).
    destruct r; congruence. }
  intros ?. apply hoare_raise. auto.
Qed.

(** X15. When the model's answer decodes to a JSON value that is not an
    object (a list, a string, a number, [null]), an article with text is
    not processed to the end: [process_single_article] raises, whatever
    the stores and the embedding model do, and the table of publications
    is left as it was. *)
Theorem non_object_answer_fails
    (pmc_url : str) (article_data : Article) (text : str) (j : JSON)
    (w : World.t) (r : result ArticleResult) (w' : World.t) :
  (forall w0 pmc_id,
     _extract_pmc_id pmc_url = Ok pmc_id ->
     fetch_article env w0 pmc_id = Ok article_data) ->
  negb (Nat.eqb (length (sections article_data)) 0)
    && any_nonblank (sections article_data) = true ->
  (forall w0, chat_completion env w0 (build_prompt article_data)
              = Ok (Some text)) ->
  json_loads env (strip_code_fences text) = Some j ->
  (forall fields, j <> JObject fields) ->
  process_single_article env pmc_url w = (r, w') ->
  (exists e, r = Raise e) /\ publications w' = publications w.
Proof.
  intros Hfetch Havail Hchat Hjson Hobj E.
  unfold process_single_article in E. rewrite bind_unfold in E.
  unfold lift_result at 1 in E.
  destruct (_extract_pmc_id pmc_url) as [pmc_id|e0] eqn:Hid;
    [|injection E as <- <-; eauto].
  assert (hoare (fun w0 => publications w0 = publications w)
                (process_single_article_try env pmc_id)
                (fun _ _ => False)
                (fun w0 => publications w0 = publications w)) as Hbody.
  { unfold process_single_article_try.
    eapply hoare_bind with
      (Q1 := fun _ w0 => publications w0 = publications w).
    { intros w0 r0 w0' HP E0. apply update_status_effect in E0 as (A & _).
      destruct r0; congruence. }
    intros ?. eapply hoare_bind with
      (Q1 := fun a w0 => a = article_data /\
                         publications w0 = publications w).
    { intros w0 r0 w0' HP [= <- <-]. rewrite (Hfetch _ _ eq_refl). auto. }
    intros article. apply hoare_assume. intros ->. cbv zeta.
    rewrite Havail. cbn [negb].
    eapply hoare_bind with
      (Q1 := fun a w0 => a = j /\ publications w0 = publications w).
    { intros w0 r0 w0' HP E0.
      rewrite (decoded_answer_returned env article_data w0 text j
                 (Hchat w0) Hjson) in E0.
      injection E0 as <- <-. auto. }
    intros enriched. apply hoare_assume. intros ->.
    eapply hoare_bind.
    { eapply hoare_conseq;
        [| | |apply (hoare_quiet _ _ (quiet_generate_embeddings env _)),
                    (on_tables_publications (publications w))];
        [auto | intros ? ? H; exact H | auto]. }
    intros ?. eapply hoare_bind.
    { eapply hoare_conseq;
        [| | |apply (hoare_quiet _ _ (quiet_section_embeddings env _)),
                    (on_tables_publications (publications w))];
        [auto | intros ? ? H; exact H | auto]. }
    intros ?. eapply hoare_bind with (Q1 := fun _ _ => False).
    { intros w0 r0 w0' HP E0.
      apply store_in_postgres_effect in E0 as (_ & _ & C).
      destruct r0 as [[]|e1]; [|congruence].
      destruct C as [_ [fields Hf]]. exact (Hobj fields Hf). }
    intros ?. apply hoare_false. }
  pose proof (hoare_try_except _ _ _ _ _ _ Hbody
                (fun e => handler_keeps_publications pmc_id e (publications w))
                w r w' eq_refl E) as H.
  destruct r as [a|e]; [destruct H | eauto].
Qed.

(** X16. With a relational store that answers, when the fetch of an
    article raises, [process_single_article] raises that same exception
    after no call other than the fetch; the status row of the identifier
    says [failed], holds the message as last error and counts one attempt
    more; the error log has one row more, with the identifier, the message
    and the type of the exception; the publications are as they were. *)
Theorem process_single_article_fetch_failure
    (pmc_url pmc_id : str) (e : exn) (w : World.t) :
  _extract_pmc_id pmc_url = Ok pmc_id ->
  (forall w0, pg_fault env w0 = None) ->
  (forall w0, fetch_article env w0 pmc_id = Raise e) ->
  exists w',
    process_single_article env pmc_url w = (Raise e, w') /\
    publications w' = publications w /\
    (exists t, processing_errors w' =
               processing_errors w ++
               [mkErrorRow pmc_id (exn_msg e) (exn_type e) t]) /\
    (exists row,
        processing_status w' !! pmc_id = Some row /\
        st_status row = "failed" /\
        st_last_error row = Some (exn_msg e) /\
        st_attempts row = match processing_status w !! pmc_id with
                          | Some old => st_attempts old + 1
                          | None => 1
                          end) /\
    trace w' = trace w ++
               [EvPgAcquire; EvPgQuery "upsert processing_status";
                EvFetch pmc_id;
                EvPgAcquire; EvPgQuery "insert processing_errors";
                EvPgAcquire; EvPgQuery "update processing_status failed"].
Proof.
  intros Hid Hpg Hfetch.
  unfold process_single_article. rewrite bind_unfold, Hid.
  unfold lift_result at 1, try_except, process_single_article_try.
  rewrite bind_unfold. unfold _update_processing_status at 1.
  rewrite bind_unfold. unfold pg_acquire at 1, write at 1. rewrite Hpg.
  cbn [str_eqb N.eqb Pos.eqb andb]. unfold pg_execute at 1, write at 1.
  rewrite Hpg. rewrite bind_unfold. unfold call at 1. rewrite Hfetch.
  rewrite bind_unfold. unfold _log_error. rewrite bind_unfold.
  unfold pg_acquire at 1, write at 1. rewrite Hpg.
  unfold pg_execute at 1, write at 1. rewrite Hpg.
  rewrite bind_unfold. unfold _update_processing_status.
  rewrite bind_unfold. unfold pg_acquire at 1, write at 1. rewrite Hpg.
  cbn [str_eqb N.eqb Pos.eqb andb]. unfold pg_execute at 1, write at 1.
  rewrite Hpg. unfold raise.
  eexists. split; [reflexivity|].
  cbn [trace publications processing_status processing_errors log
       with_status with_errors id upsert_processing update_failed].
  split; [reflexivity|]. split; [eauto|]. split.
  - destruct (processing_status w !! pmc_id) as [old|];
      rewrite lookup_insert_eq; eexists;
      (split; [apply lookup_insert_eq|]); cbn; auto.
  - now rewrite <- !app_assoc.
Qed.

(** X18. A URL without an identifier is refused by
    [process_single_article] before anything is written: it raises
    [ValueError] and the world, status table and error log included, is
    as it was. *)
Theorem process_single_article_invalid_url (pmc_url : str) (w : World.t) :
  has_id pmc_url = false ->
  process_single_article env pmc_url w =
  (Raise (ValueError ("Invalid PMC URL: " +:+ pmc_url)), w).
Proof.
  intros Hno. unfold process_single_article, _extract_pmc_id.
  rewrite (re_search_none _ Hno). reflexivity.
Qed.

(** X19. When the identifier has no row yet, a successful
    [_store_in_postgres] inserts a row that holds the columns of the
    article and of the enrichment at hand, which is then a JSON object:
    identifiers, title, abstract, journal, date and full text of the
    article, the [hypothesis] entry of the enrichment, if any, and the
    serialised lists, those of the enrichment being empty lists when the
    entry is missing; the rows of the other identifiers are untouched. *)
Theorem store_in_postgres_insert
    (pmc_id : str) (article_data : Article) (enriched_data : JSON)
    (w w' : World.t) :
  publications w !! pmc_id = None ->
  _store_in_postgres env pmc_id article_data enriched_data w = (Ok tt, w') ->
  exists fields row,
    enriched_data = JObject fields /\
    publications w' !! pmc_id = Some row /\
    (col_pmid row = md_pmid (metadata article_data) /\
     col_doi row = md_doi (metadata article_data) /\
     col_title row = md_title (metadata article_data) /\
     col_abstract row = md_abstract (metadata article_data) /\
     col_journal row = md_journal (metadata article_data) /\
     col_publication_date row = md_publication_date (metadata article_data) /\
     col_full_text row = full_text article_data) /\
    (col_hypothesis row = PyDict.get "hypothesis" fields /\
     col_key_findings row =
       json_dumps env (default (JArray []) (PyDict.get "key_findings" fields)) /\
     col_organisms_studied row =
       json_dumps env (default (JArray []) (PyDict.get "organisms" fields)) /\
     col_space_conditions row =
       json_dumps env
         (default (JArray []) (PyDict.get "space_conditions" fields))) /\
    (col_authors row =
       json_dumps env (JArray (map author_json
                                   (md_authors (metadata article_data)))) /\
     col_keywords row =
       json_dumps env (JArray (map JString
                                   (md_keywords (metadata article_data))))) /\
    is_Some (col_created_at row) /\
    (forall other, other <> pmc_id ->
       publications w' !! other = publications w !! other).
Proof.
  intros Hnone E. unfold _store_in_postgres in E.
  rewrite bind_unfold in E. unfold pg_acquire, write in E.
  destruct (pg_fault env w); [discriminate|].
  destruct enriched_data; try discriminate E.
  cbn [json_get_opt json_get] in E. unfold lift_result in E.
  rewrite !bind_unfold in E. unfold pg_execute, write in E.
  destruct (pg_fault env _); [discriminate|].
  injection E as <-. cbn [publications log with_publications id].
  unfold upsert_publication. rewrite Hnone.
  eexists _, _. split; [reflexivity|].
  split; [apply lookup_insert_eq|].
  cbn. repeat split; eauto.
  intros other Hne. now rewrite lookup_insert_ne.
Qed.

End WithEnv.

End ArticleFacts.

(** ** More on the batch scheduler *)

Module SchedulerFacts.
Import PyStr PMCClient Rules Py World AIClient BatchProcessor Frames PyFacts
       HelpersFacts BatchProcessorFacts FramesFacts.

Lemma elem_of_completed_ids (w : World.t) (pmc_id : str) :
  pmc_id ∈ completed_ids w <->
  exists row, processing_status w !! pmc_id = Some row /\
              st_status row = "completed".
Proof.
  unfold completed_ids. rewrite elem_of_dom. unfold is_Some.
  split.
  - intros [row H]. apply map_lookup_filter_Some in H as [H1 H2]. eauto.
  - intros (row & H1 & H2). exists row.
    apply map_lookup_filter_Some. auto.
Qed.

Lemma range0_nothing (batch_size : Z) :
  batch_size <> 0 -> range0 (len (@nil str)) batch_size = Ok [].
Proof.
  intros Hne. unfold range0, len. cbn [length Z.of_nat].
  destruct (Z.eqb_spec batch_size 0); [contradiction|].
  destruct (Z.ltb_spec batch_size 0); [reflexivity|].
  rewrite Z.div_small by lia. reflexivity.
Qed.

Section WithEnv.
Context {U : Unicode} {float : Type} (env : Env float).

Lemma get_processed_ids_ok (w : World.t) :
  pg_fault env w = None ->
  pg_fault env (log EvPgAcquire w) = None ->
  _get_processed_ids env w = (Ok (completed_ids w), after_select w).
Proof.
  intros H1 H2. unfold _get_processed_ids. rewrite bind_unfold.
  unfold pg_acquire, write. rewrite H1. unfold select_completed, id.
  rewrite H2. reflexivity.
Qed.

(** The run after its first two steps. *)
Lemma process_all_articles_start (pmc_urls : list str) (batch_size : Z)
    (p : Processor) :
  pg_fault env (world p) = None ->
  pg_fault env (log EvPgAcquire (world p)) = None ->
  process_all_articles env pmc_urls batch_size p =
  (urls_to_process ←
     for_fold pmc_urls [] (keep_unprocessed (completed_ids (world p)));
   starts ← lift_result (range0 (len urls_to_process) batch_size);
   for_each starts (process_batch env urls_to_process batch_size))
    (mkProcessor (mkStats (len pmc_urls) (success (stats p))
                          (errors (stats p)) (skipped (stats p)))
                 (after_select (world p))).
Proof.
  intros H1 H2. unfold process_all_articles.
  rewrite bind_unfold. unfold with_stats at 1, modify at 1.
  rewrite bind_unfold. unfold lift_world at 1. cbn [world stats].
  rewrite (get_processed_ids_ok _ H1 H2). reflexivity.
Qed.

Lemma keep_unprocessed_step (ids : gset str) (acc : list str)
    (url pmc_id : str) (p : Processor) :
  _extract_pmc_id url = Ok pmc_id ->
  keep_unprocessed ids acc url p =
  if bool_decide (pmc_id ∉ ids) then (Ok (acc ++ [url]), p)
  else (Ok acc, skip_one p).
Proof.
  intros Hid. unfold keep_unprocessed. rewrite bind_unfold, Hid.
  unfold lift_result. destruct (bool_decide (pmc_id ∉ ids)); reflexivity.
Qed.

Lemma keep_unprocessed_completed (ids : gset str) (urls acc : list str)
    (p : Processor) :
  Forall (fun url => exists pmc_id,
              _extract_pmc_id url = Ok pmc_id /\ pmc_id ∈ ids) urls ->
  for_fold urls acc (keep_unprocessed ids) p =
  (Ok acc,
   mkProcessor (mkStats (total (stats p)) (success (stats p))
                        (errors (stats p)) (skipped (stats p) + len urls))
               (world p)).
Proof.
  intros Hall. revert p. induction Hall as [|url urls (id & Hid & Hin) _ IH];
    intros p.
  - unfold len. cbn [for_fold length Z.of_nat]. rewrite Z.add_0_r.
    destruct p as [[] ?]. reflexivity.
  - cbn [for_fold]. rewrite bind_unfold, (keep_unprocessed_step _ _ _ _ _ Hid).
    rewrite bool_decide_eq_false_2 by (intros Hn; exact (Hn Hin)).
    rewrite IH. unfold skip_one.
    cbn [stats world total success errors skipped].
    do 3 f_equal. unfold len. cbn [length]. lia.
Qed.

Lemma keep_unprocessed_valid (ids : gset str) (urls acc : list str)
    (p : Processor) :
  Forall valid_url urls ->
  exists acc' stats',
    for_fold urls acc (keep_unprocessed ids) p =
      (Ok acc', mkProcessor stats' (world p)) /\
    total stats' = total (stats p).
Proof.
  intros Hall. revert acc p.
  induction Hall as [|url urls [id Hid] _ IH]; intros acc p.
  - exists acc, (stats p). destruct p. split; reflexivity.
  - cbn [for_fold]. rewrite bind_unfold, (keep_unprocessed_step _ _ _ _ _ Hid).
    destruct (bool_decide (id ∉ ids)).
    + apply IH.
    + destruct (IH acc (skip_one p)) as (acc' & st' & E & Ht).
      exact (ex_intro _ acc' (ex_intro _ st' (conj E Ht))).
Qed.

Lemma keep_unprocessed_invalid (ids : gset str)
    (good rest acc : list str) (bad : str) (p : Processor) :
  Forall valid_url good ->
  has_id bad = false ->
  exists stats',
    for_fold (good ++ bad :: rest) acc (keep_unprocessed ids) p =
      (Raise (ValueError ("Invalid PMC URL: " +:+ bad)),
       mkProcessor stats' (world p)).
Proof.
  intros Hall Hbad. revert acc p.
  induction Hall as [|url urls [id Hid] _ IH]; intros acc p.
  - cbn [app for_fold]. rewrite bind_unfold. unfold keep_unprocessed at 1.
    rewrite bind_unfold. unfold _extract_pmc_id.
    rewrite (re_search_none _ Hbad). unfold lift_result.
    exists (stats p). destruct p. reflexivity.
  - cbn [app for_fold].
    rewrite bind_unfold, (keep_unprocessed_step _ _ _ _ _ Hid).
    destruct (bool_decide (id ∉ ids)).
    + apply IH.
    + destruct (IH acc (skip_one p)) as (st' & E).
      exact (ex_intro _ st' E).
Qed.

(** A batch always comes to its end. *)
Lemma process_batch_returns (urls : list str) (batch_size i : Z)
    (p : Processor) :
  exists p', process_batch env urls batch_size i p = (Ok tt, p').
Proof.
  unfold process_batch. cbv zeta. rewrite bind_unfold.
  destruct (gather_results
              (fun a => res_status a = "success" \/ res_status a = "skipped")
              (map (process_single_article env)
                   (slice urls i (i + batch_size)))
              ltac:(apply Forall_map, Forall_forall; intros;
                    apply process_single_article_status)
              (world p)) as (rs & w1 & Eg & Hlen & Hall).
  unfold lift_world at 1. rewrite Eg.
  destruct (count_results_counts rs (mkProcessor (stats p) w1) Hall)
    as (p1 & E1 & _).
  rewrite bind_unfold, E1. unfold lift_world, modify. eauto.
Qed.

Lemma batches_return (urls : list str) (batch_size : Z)
    (starts : list Z) (p : Processor) :
  exists p',
    for_each starts (process_batch env urls batch_size) p = (Ok tt, p').
Proof.
  revert p. induction starts as [|i starts IH]; intros p.
  - exists p. reflexivity.
  - unfold for_each in *. cbn [for_fold]. rewrite bind_unfold.
    destruct (process_batch_returns urls batch_size i p) as [p1 ->].
    apply IH.
Qed.

(** X20. When the relational store answers and every URL of the list
    belongs to an identifier whose status is [completed], a run with a
    batch size other than 0 returns after the status query alone, without
    a fetch or any other call: [total] is the number of URLs, [skipped]
    has grown by that number, [success] and [errors] are as they were. *)
Theorem process_all_articles_all_completed
    (pmc_urls : list str) (batch_size : Z) (p : Processor) :
  pg_fault env (world p) = None ->
  pg_fault env (log EvPgAcquire (world p)) = None ->
  Forall (completed_url (world p)) pmc_urls ->
  batch_size <> 0 ->
  process_all_articles env pmc_urls batch_size p =
  (Ok tt,
   mkProcessor (mkStats (len pmc_urls) (success (stats p)) (errors (stats p))
                        (skipped (stats p) + len pmc_urls))
               (after_select (world p))).
Proof.
  intros H1 H2 Hall Hbs. rewrite process_all_articles_start by assumption.
  rewrite bind_unfold, keep_unprocessed_completed.
  - rewrite bind_unfold. unfold lift_result at 1.
    rewrite range0_nothing by exact Hbs. reflexivity.
  - eapply Forall_impl; [exact Hall|]. intros url (id & row & Hid & Hr & Hs).
    exists id. split; [exact Hid|]. apply elem_of_completed_ids. eauto.
Qed.

(** X21. When the relational store answers and the list holds a URL
    without an identifier, the run raises [ValueError] for the first such
    URL right after the status query: no article of the list is fetched,
    the valid ones before and after it included. *)
Theorem process_all_articles_invalid_url
    (good rest : list str) (bad : str) (batch_size : Z)
    (p : Processor) :
  pg_fault env (world p) = None ->
  pg_fault env (log EvPgAcquire (world p)) = None ->
  Forall valid_url good ->
  has_id bad = false ->
  exists stats',
    process_all_articles env (good ++ bad :: rest) batch_size p =
    (Raise (ValueError ("Invalid PMC URL: " +:+ bad)),
     mkProcessor stats' (after_select (world p))).
Proof.
  intros H1 H2 Hgood Hbad. rewrite process_all_articles_start by assumption.
  rewrite bind_unfold.
  destruct (keep_unprocessed_invalid (completed_ids (world p)) good rest []
              bad
              (mkProcessor (mkStats (len (good ++ bad :: rest))
                                    (success (stats p)) (errors (stats p))
                                    (skipped (stats p)))
                           (after_select (world p))) Hgood Hbad)
    as [st' ->].
  eauto.
Qed.

(** X22. With a batch size of 0 and valid URLs, the run raises
    [ValueError] once the URLs are filtered: [total] is set, and nothing
    is fetched. *)
Theorem process_all_articles_zero_batch_size
    (pmc_urls : list str) (p : Processor) :
  pg_fault env (world p) = None ->
  pg_fault env (log EvPgAcquire (world p)) = None ->
  Forall valid_url pmc_urls ->
  exists stats',
    process_all_articles env pmc_urls 0 p =
    (Raise (ValueError "range() arg 3 must not be zero"),
     mkProcessor stats' (after_select (world p))) /\
    total stats' = len pmc_urls.
Proof.
  intros H1 H2 Hall. rewrite process_all_articles_start by assumption.
  rewrite bind_unfold.
  destruct (keep_unprocessed_valid (completed_ids (world p)) pmc_urls []
              (mkProcessor (mkStats (len pmc_urls)
                                    (success (stats p)) (errors (stats p))
                                    (skipped (stats p)))
                           (after_select (world p))) Hall)
    as (acc' & st' & -> & Ht).
  rewrite bind_unfold. unfold lift_result at 1, range0.
  cbn [Z.eqb]. exists st'. split; [reflexivity | exact Ht].
Qed.

(** X23. When the relational store answers the status query, the URLs
    are valid and the batch size is not 0, the run comes to its end
    whatever the source, the model, the embedding model and the stores do
    afterwards: the failure of an article never aborts the run. *)
Theorem process_all_articles_returns
    (pmc_urls : list str) (batch_size : Z) (p : Processor) :
  pg_fault env (world p) = None ->
  pg_fault env (log EvPgAcquire (world p)) = None ->
  Forall valid_url pmc_urls ->
  batch_size <> 0 ->
  exists p', process_all_articles env pmc_urls batch_size p = (Ok tt, p').
Proof.
  intros H1 H2 Hall Hbs. rewrite process_all_articles_start by assumption.
  rewrite bind_unfold.
  destruct (keep_unprocessed_valid (completed_ids (world p)) pmc_urls []
              (mkProcessor (mkStats (len pmc_urls)
                                    (success (stats p)) (errors (stats p))
                                    (skipped (stats p)))
                           (after_select (world p))) Hall)
    as (acc' & st' & -> & _).
  rewrite bind_unfold. unfold lift_result at 1, range0.
  destruct (Z.eqb_spec batch_size 0); [contradiction|].
  destruct (batch_size <? 0); apply batches_return.
Qed.

End WithEnv.

End SchedulerFacts.

(** ** Texts outside the ASCII range *)

Module UnicodeFacts.
Import PyStr Helpers HelpersText Py BatchProcessor PyStrFacts HelpersFacts.

(** The no-break space and the thin space are blanks for [strip] and
    [split]. *)
Example strip_no_break_space :
  strip (String 160 "Résultats" +:+ String 160 (String 8201 "")) = "Résultats".
Proof. reflexivity. Qed.

Example split_no_break_space :
  split ("a" +:+ String 160 "b c") = ["a"; "b"; "c"].
Proof. reflexivity. Qed.

(** Lengths and slices count code points. *)
Example truncate_text_code_points :
  strlen "été" = 3%nat /\ truncate_text "été" 3 = "été" /\
  truncate_text "étés" 3 = "été...".
Proof. repeat split. Qed.

(** A letter such as U+00C0 is kept by [sanitize_text]; the no-break space
    becomes a space and NEL (U+0085) is deleted as a control character. *)
Example sanitize_text_latin :
  sanitize_text ("À" +:+ String 160 (String 133 "b")) = "À b".
Proof. reflexivity. Qed.

Section WithUnicode.
Context {U : Unicode}.

(** A decimal digit outside the ASCII range goes on the run of digits of
    an identifier. *)
Lemma extract_pmc_id_other_digit (d : char) :
  is_digit d = true ->
  extract_pmc_id ("PMC12" +:+ String d "") = Some ("PMC12" +:+ String d "") /\
  _extract_pmc_id (String d "PMC" +:+ String d "")
  = Ok ("PMC" +:+ String d "").
Proof.
  intros Hd. unfold extract_pmc_id, _extract_pmc_id. split.
  - rewrite (re_search_first "" ("12" +:+ String d "") "");
      [reflexivity | reflexivity | reflexivity | | reflexivity].
    rewrite !append_cons, append_nil_l. cbn [all_chars].
    rewrite !is_digit_ascii by reflexivity. now rewrite Hd.
  - rewrite (re_search_first (String d "") (String d "") "");
      [reflexivity | | reflexivity | | reflexivity].
    + unfold Rules.has_id, Rules.id_here, startswith. cbn [prefix].
      now rewrite andb_false_r.
    + cbn [all_chars]. now rewrite Hd.
Qed.

End WithUnicode.

End UnicodeFacts.

(** ** Status rows, table headers, and concrete runs of the properties *)

Module MoreFacts.
Import PyStr PMCClient Helpers Rules Py World AIClient BatchProcessor Frames
       Scenarios HelpersText PMCFetch PyFacts HelpersFacts ParserMoreFacts
       HelpersTextFacts SanitizeFacts AIMoreFacts FramesFacts ArticleFacts
       SchedulerFacts.

Lemma last_cons {A} (x d : A) (l : list A) :
  List.last (x :: l) d = List.last l x.
Proof.
  revert x d. induction l as [|y l IH]; intros x d; [reflexivity|].
  change (List.last (x :: y :: l) d) with (List.last (y :: l) d).
  now rewrite !IH.
Qed.

Lemma headers_fold (trs : list ET.Element) (acc : list str) :
  fold_left (fun headers tr => match cells "th" tr with
                               | [] => headers
                               | _ => cells "th" tr
                               end) trs acc
  = List.last (List.filter (fun row => negb (Nat.eqb (length row) 0))
                           (map (cells "th") trs)) acc.
Proof.
  revert acc. induction trs as [|tr trs IH]; intros acc; [reflexivity|].
  cbn [fold_left map List.filter].
  destruct (cells "th" tr) as [|c row] eqn:E.
  - apply IH.
  - cbn [length Nat.eqb negb]. rewrite last_cons. apply IH.
Qed.

(** X6. The headers of a parsed table are the cells of the last row of
    the first [thead] that has at least one [th]; they are empty when no
    row has one. *)
Theorem parse_xml_table_headers (table thead : ET.Element) :
  ET.find "thead" table = Some thead ->
  fst (_parse_xml_table table) =
    List.last (List.filter (fun row => negb (Nat.eqb (length row) 0))
            (map (fun tr => map _get_element_text (ET.findall "th" tr))
                 (ET.findall "tr" thead))) [].
Proof.
  intros Hh. unfold _parse_xml_table. cbn [fst]. rewrite Hh.
  rewrite headers_fold. do 2 f_equal.
  apply map_ext. intros tr. apply cells_map.
Qed.

Section WithEnv.
Context {float : Type} (env : Env float).

(** X24. [_update_processing_status] writes nothing for a status other
    than [processing], [completed] and [failed]: it takes a connection and
    leaves the tables as they are.  And a status row is only ever created
    by the status [processing]: for another status and an identifier
    without a row, the status table is as it was. *)
Theorem update_processing_status_silent
    (pmc_id status : str) (error : option str) (w : World.t) :
  status <> "processing" ->
  (status <> "completed" -> status <> "failed" ->
   _update_processing_status env pmc_id status error w =
   (match pg_fault env w with Some e => Raise e | None => Ok tt end,
    log EvPgAcquire w)) /\
  (processing_status w !! pmc_id = None ->
   processing_status
     (snd (_update_processing_status env pmc_id status error w))
   = processing_status w).
Proof.
  intros Hp. apply str_eqb_neq in Hp.
  unfold _update_processing_status. rewrite bind_unfold.
  unfold pg_acquire, pg_execute, write. rewrite Hp. split.
  - intros Hc Hf. apply str_eqb_neq in Hc, Hf. rewrite Hc, Hf.
    destruct (pg_fault env w); reflexivity.
  - intros Hnone. destruct (pg_fault env w); [reflexivity|].
    destruct (str_eqb status "completed");
      [|destruct (str_eqb status "failed")];
      try (destruct (pg_fault env _); cbn; now rewrite ?Hnone).
    reflexivity.
Qed.

End WithEnv.

#[local] Existing Instance BasicLatin.basic_latin.

Lemma parse_xml_table_headers_witness :
  fst (_parse_xml_table small_table) = ["Gene"; "Fold"].
Proof.
  rewrite (parse_xml_table_headers small_table
             (ET.Elem "thead" None
                [ET.Elem "tr" None [ET.Elem "th" (Some "Gene") [] None;
                                    ET.Elem "th" (Some "Fold") [] None] None]
                None) eq_refl).
  reflexivity.
Defined.

Lemma parse_xml_table_rows_witness :
  snd (_parse_xml_table small_table) = [["p53"; "2.1"]].
Proof.
  rewrite (proj1 (parse_xml_table_rows small_table
             (ET.Elem "tbody" None
                [ET.Elem "tr" None [ET.Elem "td" (Some "p53") [] None;
                                    ET.Elem "td" (Some " 2.1 ") [] None] None;
                 ET.Elem "tr" None [] None] None) eq_refl)).
  reflexivity.
Defined.

Lemma validate_pmc_url_extract_witness :
  exists scheme digits tail,
    (scheme = "https" \/ scheme = "http") /\
    "https://pmc.ncbi.nlm.nih.gov/articles/PMC11930778/" =
      scheme +:+ "://pmc.ncbi.nlm.nih.gov/articles/PMC" +:+ digits +:+ tail /\
    truthy digits = true /\
    all_chars is_digit digits = true /\
    (tail = "" \/ tail = "/" \/ tail = newline \/ tail = "/" +:+ newline) /\
    extract_pmc_id "https://pmc.ncbi.nlm.nih.gov/articles/PMC11930778/"
      = Some ("PMC" +:+ digits).
Proof.
  apply (validate_pmc_url_extract
           "https://pmc.ncbi.nlm.nih.gov/articles/PMC11930778/").
  reflexivity.
Defined.

Lemma chunk_list_covers_witness :
  exists chunks,
    chunk_list [1; 2; 3; 4; 5] 2 = Ok chunks /\
    concat chunks = [1; 2; 3; 4; 5] /\
    Forall (fun c => 0 < len c <= 2) chunks.
Proof.
  apply (proj1 (chunk_list_covers [1; 2; 3; 4; 5] 2)). lia.
Defined.

Lemma truncate_text_bound_witness :
  truncate_text "hello world" 5 = "hello..." /\
  Z.of_nat (strlen (truncate_text "hello world" 5)) = 5 + 3.
Proof.
  apply (proj2 (truncate_text_bound "hello world" 5 ltac:(lia))).
  simpl. lia.
Defined.

Lemma fetch_params_numeric_id_witness :
  normalize_pmc_id "PMC11930778" = "PMC11930778" /\
  exists digits,
    "PMC11930778" = "PMC" +:+ digits /\
    truthy digits = true /\
    all_chars is_digit digits = true /\
    PyDict.get "id" (fetch_params "me@example.org" (Some "key") "PMC11930778")
      = Some digits.
Proof.
  apply (fetch_params_numeric_id url1 "PMC11930778" "me@example.org"
           (Some "key")).
  reflexivity.
Defined.

Lemma extract_structured_info_decoded_witness :
  extract_structured_info (healthy_env plain_article)
                          (plain_article "PMC11930778") empty_world =
  (Ok (JObject []),
   log (EvModelCall (build_prompt (plain_article "PMC11930778"))) empty_world).
Proof.
  apply (extract_structured_info_decoded (healthy_env plain_article)
           (plain_article "PMC11930778") empty_world
           ("```json" +:+ newline +:+ "{}" +:+ newline +:+ "```")
           (JObject [])); reflexivity.
Defined.

Lemma non_object_answer_fails_witness :
  let run := process_single_article (array_env plain_article) url1
                                    empty_world in
  (exists e, fst run = Raise e) /\
  publications (snd run) = publications empty_world.
Proof.
  intros run.
  apply (non_object_answer_fails (array_env plain_article) url1
           (plain_article "PMC11930778") "[]" (JArray []) empty_world
           (fst run) (snd run)).
  - intros w0 pmc_id [= <-]. reflexivity.
  - reflexivity.
  - intros w0. reflexivity.
  - reflexivity.
  - intros fields. discriminate.
  - apply surjective_pairing.
Defined.

Lemma process_single_article_fetch_failure_witness :
  exists w',
    process_single_article unreachable_env url1 empty_world =
      (Raise (mkExn "Exception" "API error 500: down"), w') /\
    publications w' = publications empty_world /\
    (exists t, processing_errors w' =
               processing_errors empty_world ++
               [mkErrorRow "PMC11930778" "API error 500: down" "Exception" t]) /\
    (exists row,
        processing_status w' !! "PMC11930778" = Some row /\
        st_status row = "failed" /\
        st_last_error row = Some "API error 500: down" /\
        st_attempts row = 1) /\
    trace w' = trace empty_world ++
               [EvPgAcquire; EvPgQuery "upsert processing_status";
                EvFetch "PMC11930778";
                EvPgAcquire; EvPgQuery "insert processing_errors";
                EvPgAcquire; EvPgQuery "update processing_status failed"].
Proof.
  apply (process_single_article_fetch_failure unreachable_env url1
           "PMC11930778" (mkExn "Exception" "API error 500: down")
           empty_world).
  - reflexivity.
  - intros w0. reflexivity.
  - intros w0. reflexivity.
Defined.

Lemma process_single_article_success_witness :
  let run := process_single_article (healthy_env plain_article) url1
                                    empty_world in
  (exists row, processing_status (snd run) !! "PMC11930778" = Some row /\
               st_status row = "completed") /\
  is_Some (publications (snd run) !! "PMC11930778") /\
  processing_errors (snd run) = processing_errors empty_world.
Proof.
  intros run.
  apply (process_single_article_success (healthy_env plain_article) url1
           empty_world
           (mkArticleResult "PMC11930778" "success" None (Some metadata1))
           (snd run)).
  - vm_compute. reflexivity.
  - reflexivity.
Defined.

Lemma process_all_articles_all_completed_witness :
  process_all_articles (healthy_env plain_article) [url1; url1] 10
                       (mkProcessor init_stats completed_world) =
  (Ok tt, mkProcessor (mkStats 2 0 0 2) (after_select completed_world)).
Proof.
  apply (process_all_articles_all_completed (healthy_env plain_article)
           [url1; url1] 10 (mkProcessor init_stats completed_world)).
  - reflexivity.
  - reflexivity.
  - repeat constructor;
      exists "PMC11930778", (mkStatusRow "completed" (Some 1) (Some 2) 1 None);
      repeat split; reflexivity.
  - lia.
Defined.

Lemma valid_url1 : valid_url url1.
Proof. exists "PMC11930778". reflexivity. Qed.

Lemma process_all_articles_invalid_url_witness :
  exists stats',
    process_all_articles (healthy_env plain_article)
                         ([url1] ++ "https://example.com/article" :: [url1])
                         10 fresh_processor =
    (Raise (ValueError "Invalid PMC URL: https://example.com/article"),
     mkProcessor stats' (after_select empty_world)).
Proof.
  apply (process_all_articles_invalid_url (healthy_env plain_article)
           [url1] [url1] "https://example.com/article" 10 fresh_processor).
  - reflexivity.
  - reflexivity.
  - repeat constructor. exact valid_url1.
  - reflexivity.
Defined.

Lemma process_all_articles_zero_batch_size_witness :
  exists stats',
    process_all_articles (healthy_env plain_article) [url1] 0
                         fresh_processor =
    (Raise (ValueError "range() arg 3 must not be zero"),
     mkProcessor stats' (after_select empty_world)) /\
    total stats' = len [url1].
Proof.
  apply (process_all_articles_zero_batch_size (healthy_env plain_article)
           [url1] fresh_processor).
  - reflexivity.
  - reflexivity.
  - repeat constructor. exact valid_url1.
Defined.

Lemma process_all_articles_returns_witness :
  exists p',
    process_all_articles unreachable_env [url1; url1] 1 fresh_processor
    = (Ok tt, p').
Proof.
  apply (process_all_articles_returns unreachable_env [url1; url1] 1
           fresh_processor).
  - reflexivity.
  - reflexivity.
  - repeat constructor; exact valid_url1.
  - lia.
Defined.

Lemma process_single_article_invalid_url_witness :
  process_single_article (healthy_env plain_article)
                         "https://example.com/article" empty_world =
  (Raise (ValueError "Invalid PMC URL: https://example.com/article"),
   empty_world).
Proof.
  apply (process_single_article_invalid_url (healthy_env plain_article)
           "https://example.com/article" empty_world).
  reflexivity.
Defined.

Lemma store_in_postgres_insert_witness :
  let env := healthy_env plain_article in
  let w' := snd (_store_in_postgres env "PMC11930778"
                   (plain_article "PMC11930778")
                   (_get_default_enriched_data) empty_world) in
  exists row,
    publications w' !! "PMC11930778" = Some row /\
    col_title row = Some "Title" /\
    col_hypothesis row = Some (JString "Not extracted").
Proof.
  intros env w'.
  destruct (store_in_postgres_insert env "PMC11930778"
              (plain_article "PMC11930778") (_get_default_enriched_data)
              empty_world w' eq_refl ltac:(vm_compute; reflexivity))
    as (fields & row & Hf & Hrow & (_ & _ & Ht & _) & (Hh & _) & _).
  exists row. injection Hf as <-. repeat split; assumption.
Defined.

Lemma update_processing_status_silent_witness :
  _update_processing_status (healthy_env plain_article) "PMC11930778"
                            "skipped_no_sections" None empty_world =
  (Ok tt, log EvPgAcquire empty_world).
Proof.
  apply (proj1 (update_processing_status_silent (healthy_env plain_article)
                  "PMC11930778" "skipped_no_sections" None empty_world
                  ltac:(discriminate)));
    discriminate.
Defined.

End MoreFacts.
